(** * KP2000 SPI controller driver: the transfer engine

    A shallow embedding of drivers/staging/kpc2000/kpc_spi/spi_driver.c:
    the cached register accessors, the bounded bit wait, the programmed-I/O
    byte transfer, device setup and the message sequencer, together with
    the properties of the engine that the specification states.

    The hardware and the kernel clock are an environment: what a bus read
    returns and what [jiffies] holds are functions of everything that has
    happened so far (the event log).  The driver itself is deterministic. *)

From Stdlib Require Import ZArith List Bool Lia.
Import ListNotations.
Local Open Scope Z_scope.

(** ** Machine integers *)

Definition u8 (z : Z) : Z := z mod 2 ^ 8.
Definition u32 (z : Z) : Z := z mod 2 ^ 32.
Definition u64 (z : Z) : Z := z mod 2 ^ 64.

(** Conversion to the signed type of the same width (two's complement). *)
Definition s8 (z : Z) : Z := if u8 z <? 2 ^ 7 then u8 z else u8 z - 2 ^ 8.
Definition s32 (z : Z) : Z := if u32 z <? 2 ^ 31 then u32 z else u32 z - 2 ^ 32.
Definition s64 (z : Z) : Z := if u64 z <? 2 ^ 63 then u64 z else u64 z - 2 ^ 64.

(** ** SPI defines *)

Definition KP_SPI_REG_CONFIG : Z := 0.
Definition KP_SPI_REG_STATUS : Z := 1.
Definition KP_SPI_REG_FFCTRL : Z := 2.
Definition KP_SPI_REG_TXDATA : Z := 3.
Definition KP_SPI_REG_RXDATA : Z := 4.

Definition KP_SPI_CLK : Z := 48000000.

Definition KP_SPI_REG_CONFIG_TRM_TXRX : Z := 0.
Definition KP_SPI_REG_CONFIG_TRM_RX : Z := 1.
Definition KP_SPI_REG_CONFIG_TRM_TX : Z := 2.

Definition KP_SPI_REG_STATUS_RXS : Z := 0x01.
Definition KP_SPI_REG_STATUS_TXS : Z := 0x02.
Definition KP_SPI_REG_STATUS_EOT : Z := 0x04.

Definition EIO : Z := 5.
Definition ENOMEM : Z := 12.
Definition EINVAL : Z := 22.
Definition ETIMEDOUT : Z := 110.

(** ** union kp_spi_config: bit fields of the 32-bit register word

    The fields are laid out from the least significant bit:
    pha(1) pol(1) epol(1) dpe(1) wl(5) -(3) trm(2) cs(4) wcnt(7) ffen(1)
    spi_en(1) -(5). *)

Record bitfield := { f_off : Z; f_width : Z }.

Definition pha : bitfield := {| f_off := 0; f_width := 1 |}.
Definition pol : bitfield := {| f_off := 1; f_width := 1 |}.
Definition epol : bitfield := {| f_off := 2; f_width := 1 |}.
Definition dpe : bitfield := {| f_off := 3; f_width := 1 |}.
Definition wl : bitfield := {| f_off := 4; f_width := 5 |}.
Definition trm : bitfield := {| f_off := 12; f_width := 2 |}.
Definition cs : bitfield := {| f_off := 14; f_width := 4 |}.
Definition wcnt : bitfield := {| f_off := 18; f_width := 7 |}.
Definition ffen : bitfield := {| f_off := 25; f_width := 1 |}.
Definition spi_en : bitfield := {| f_off := 26; f_width := 1 |}.

(** [sc.bitfield.f] as an rvalue. *)
Definition get_field (f : bitfield) (reg : Z) : Z :=
  Z.land (Z.shiftr reg (f_off f)) (Z.ones (f_width f)).

(** [sc.bitfield.f = v]: the value is truncated to the width of the field,
    the other bits of the word are kept. *)
Definition set_field (f : bitfield) (v : Z) (reg : Z) : Z :=
  Z.lor (Z.land reg (Z.lnot (Z.shiftl (Z.ones (f_width f)) (f_off f))))
        (Z.shiftl (Z.land v (Z.ones (f_width f))) (f_off f)).

(** A field that lies inside the 32-bit word. *)
Definition field_ok (f : bitfield) : Prop :=
  0 <= f_off f /\ 0 <= f_width f /\ f_off f + f_width f <= 32.

Definition disjoint_fields (f g : bitfield) : Prop :=
  f_off f + f_width f <= f_off g \/ f_off g + f_width g <= f_off f.

(** ** Events *)

(** Everything the driver does to the world outside its own variables is
    recorded, most recent event first.  [EvCached] and [EvWaitRet] are ghost
    events: a Config read served from the cache, and the value returned by a
    completed bit wait; they touch nothing and only make runs describable. *)
Inductive event : Type :=
| EvReadq (idx val : Z)           (* readq(base + idx) returned val *)
| EvWriteq (idx val : Z)          (* writeq(val, base + idx) *)
| EvCached (idx val : Z)          (* read served from conf_cache *)
| EvJiffies (j : Z)               (* a sample of jiffies *)
| EvRelax                         (* cpu_relax() *)
| EvUdelay (usecs : Z)            (* udelay(usecs) *)
| EvPrintk                        (* dev_dbg / dev_info *)
| EvWaitRet (idx bit ret : Z)     (* kp_spi_wait_for_reg_bit returned ret *)
| EvFinalize.                     (* spi_finalize_current_message(master) *)

Definition is_bus (e : event) : bool :=
  match e with EvReadq _ _ | EvWriteq _ _ => true | _ => false end.

Definition is_write_event (e : event) : bool :=
  match e with EvWriteq _ _ => true | _ => false end.

Definition is_relax (e : event) : bool :=
  match e with EvRelax => true | _ => false end.

(** The value a register read through the access layer delivered. *)
Definition reg_read (e : event) : option (Z * Z) :=
  match e with
  | EvReadq i v | EvCached i v => Some (i, v)
  | _ => None
  end.

(** Values written to register [idx], in the order of the list. *)
Fixpoint writes_to (idx : Z) (evs : list event) : list Z :=
  match evs with
  | [] => []
  | EvWriteq i v :: r => if i =? idx then v :: writes_to idx r else writes_to idx r
  | _ :: r => writes_to idx r
  end.

(** Values the bus returned for register [idx], in the order of the list. *)
Fixpoint reads_of (idx : Z) (evs : list event) : list Z :=
  match evs with
  | [] => []
  | EvReadq i v :: r => if i =? idx then v :: reads_of idx r else reads_of idx r
  | _ :: r => reads_of idx r
  end.

(** Outcomes of the completed waits, in the order of the list. *)
Fixpoint wait_rets (evs : list event) : list (Z * Z * Z) :=
  match evs with
  | [] => []
  | EvWaitRet i b r :: rest => (i, b, r) :: wait_rets rest
  | _ :: rest => wait_rets rest
  end.

Definition count_relax (evs : list event) : nat := length (filter is_relax evs).

(** ** The environment *)

(** The device and the kernel, as far as the driver can observe them.
    [msecs_to_jiffies] and the signedness of plain [char] come from the
    kernel configuration and the target ABI. *)
Record platform := {
  readq_of : list event -> Z -> Z;
  jiffies_of : list event -> Z;
  msecs_to_jiffies : Z -> Z;
  char_signed : bool
}.

(** [time_after(a, b)] of linux/jiffies.h: [(long)((b) - (a)) < 0]. *)
Definition time_after (a b : Z) : bool := s64 (b - a) <? 0.

(** ** SPI structures *)

(** [conf_cache] is an s64; -1 means that no Config value is cached. *)
Record kp_spi_controller_state := {
  base : Z;
  phys : Z;
  chip_select : Z;
  word_len : Z;
  conf_cache : Z
}.

(** The parts of struct spi_transfer and struct spi_message
    (linux/spi/spi.h) that the driver touches.  Buffers are addresses;
    [len], [speed_hz] and [actual_length] are unsigned (32 bits),
    [bits_per_word] is a u8, [delay_usecs] a u16, [status] an int. *)
Record spi_transfer := {
  tx_buf : option Z;      (* None is NULL *)
  rx_buf : option Z;
  len : Z;
  bits_per_word : Z;
  delay_usecs : Z;
  speed_hz : Z
}.

Record spi_message := {
  transfers : list spi_transfer;      (* the list headed by m->transfers *)
  actual_length : Z;
  status : Z
}.

(** The driver's variables and the memory the transfer buffers live in. *)
Record machine := {
  ctl : kp_spi_controller_state;     (* *spidev->controller_state *)
  mem : Z -> Z;                      (* byte-addressed memory *)
  log : list event
}.

Definition log_event (e : event) (st : machine) : machine :=
  {| ctl := ctl st; mem := mem st; log := e :: log st |}.

Definition set_conf_cache (v : Z) (st : machine) : machine :=
  {| ctl := {| base := base (ctl st); phys := phys (ctl st);
               chip_select := chip_select (ctl st);
               word_len := word_len (ctl st); conf_cache := v |};
     mem := mem st; log := log st |}.

Definition set_word_len (v : Z) (st : machine) : machine :=
  {| ctl := {| base := base (ctl st); phys := phys (ctl st);
               chip_select := chip_select (ctl st);
               word_len := v; conf_cache := conf_cache (ctl st) |};
     mem := mem st; log := log st |}.

Definition with_ctl (c : kp_spi_controller_state) (st : machine) : machine :=
  {| ctl := c; mem := mem st; log := log st |}.

Definition store8 (a v : Z) (st : machine) : machine :=
  {| ctl := ctl st;
     mem := (fun a' => if a' =? a then u8 v else mem st a');
     log := log st |}.

Definition load8 (st : machine) (a : Z) : Z := u8 (mem st a).

(** ** A state monad with failure

    [None] is only ever produced by a polling loop that ran out of fuel. *)
Definition M (A : Type) : Type := machine -> option (A * machine).

Definition ret {A} (a : A) : M A := fun st => Some (a, st).

Definition bind {A B} (c : M A) (k : A -> M B) : M B :=
  fun st => match c st with
            | Some (a, st') => k a st'
            | None => None
            end.

Notation "'let*' x ':=' c 'in' k" := (bind c (fun x => k))
  (at level 10, x pattern, c at level 100, k at level 200).
Notation "c ';;' k" := (bind c (fun _ => k))
  (at level 100, k at level 200, right associativity).

(** Operations that cannot fail. *)
Definition lift {A} (f : machine -> A * machine) : M A := fun st => Some (f st).

Definition modify (f : machine -> machine) : M unit := fun st => Some (tt, f st).

Definition emit (e : event) : M unit := modify (log_event e).

(** The events of a run from [st] to [st'], most recent first. *)
Definition new_events (st st' : machine) : list event :=
  firstn (length (log st') - length (log st)) (log st').

Section Hw.

Variable E : platform.

(** [readq]: the device decides, the result is a u64. *)
Definition readq (idx : Z) (st : machine) : Z * machine :=
  let val := u64 (readq_of E (log st) idx) in
  (val, log_event (EvReadq idx val) st).

Definition writeq (val idx : Z) (st : machine) : machine :=
  log_event (EvWriteq idx val) st.

(** A sample of the kernel's [jiffies] counter (an unsigned long). *)
Definition jiffies (st : machine) : Z * machine :=
  let j := u64 (jiffies_of E (log st)) in
  (j, log_event (EvJiffies j) st).

(** Plain [char] holding the byte [b], widened to u64 as an argument. *)
Definition char_to_u64 (b : Z) : Z :=
  if char_signed E then u64 (s8 b) else u8 b.

End Hw.

Section Driver.

Variable E : platform.

(** ** SPI helpers *)

Definition kp_spi_bytes_per_word (word_len : Z) : Z :=
  if word_len <=? 8 then 1 else if word_len <=? 16 then 2 else 4.

Definition kp_spi_read_reg (idx : Z) (st : machine) : Z * machine :=
  if (idx =? KP_SPI_REG_CONFIG) && (0 <=? conf_cache (ctl st)) then
    let val := u64 (conf_cache (ctl st)) in
    (val, log_event (EvCached idx val) st)
  else readq E idx st.

Definition kp_spi_write_reg (idx val : Z) (st : machine) : machine :=
  let st1 := writeq val idx st in
  if idx =? KP_SPI_REG_CONFIG then set_conf_cache (s64 val) st1 else st1.

(** The [while] loop of kp_spi_wait_for_reg_bit; one unit of fuel per
    evaluation of the loop condition. *)
Fixpoint wait_loop (fuel : nat) (idx bit timeout : Z) : M Z :=
  match fuel with
  | O => fun _ => None
  | S fuel' =>
      let* v := lift (kp_spi_read_reg idx) in
      if Z.land v bit =? 0 then
        let* j := lift (jiffies E) in
        if time_after j timeout then
          let* v2 := lift (kp_spi_read_reg idx) in
          if Z.land v2 bit =? 0 then ret (- ETIMEDOUT) else ret 0
        else
          emit EvRelax ;; wait_loop fuel' idx bit timeout
      else ret 0
  end.

Definition kp_spi_wait_for_reg_bit (fuel : nat) (idx bit : Z) : M Z :=
  let* j0 := lift (jiffies E) in
  let timeout := u64 (j0 + msecs_to_jiffies E 1000) in
  let* r := wait_loop fuel idx bit timeout in
  emit (EvWaitRet idx bit r) ;;
  ret r.

(** The send loop of kp_spi_txrx_pio: [n] iterations left, [tx] the read
    pointer, [processed] the int counter.  The boolean tells whether the
    loop left through [goto out]. *)
Fixpoint tx_loop (fuel : nat) (n : nat) (tx processed : Z) : M (Z * bool) :=
  match n with
  | O => ret (processed, false)
  | S n' =>
      let* val := (fun st => Some (load8 st tx, st)) in       (* char val = *tx++ *)
      let* r := kp_spi_wait_for_reg_bit fuel KP_SPI_REG_STATUS KP_SPI_REG_STATUS_TXS in
      if r <? 0 then ret (processed, true)
      else
        modify (kp_spi_write_reg KP_SPI_REG_TXDATA (char_to_u64 E val)) ;;
        tx_loop fuel n' (tx + 1) (s32 (processed + 1))
  end.

(** The receive loop of kp_spi_txrx_pio.  The value read passes through
    [char test] into the u8 buffer: what is stored is its low byte,
    whatever the signedness of char. *)
Fixpoint rx_loop (fuel : nat) (n : nat) (rx processed : Z) : M (Z * bool) :=
  match n with
  | O => ret (processed, false)
  | S n' =>
      modify (kp_spi_write_reg KP_SPI_REG_TXDATA 0) ;;
      let* r := kp_spi_wait_for_reg_bit fuel KP_SPI_REG_STATUS KP_SPI_REG_STATUS_RXS in
      if r <? 0 then ret (processed, true)
      else
        let* test := lift (kp_spi_read_reg KP_SPI_REG_RXDATA) in
        modify (store8 rx test) ;;
        rx_loop fuel n' (rx + 1) (s32 (processed + 1))
  end.

(** [c] is [transfer->len]; the int [processed] is returned as unsigned. *)
Definition kp_spi_txrx_pio (fuel : nat) (transfer : spi_transfer) : M Z :=
  let c := Z.to_nat (len transfer) in
  let* (processed, out) :=
    match tx_buf transfer, rx_buf transfer with
    | Some tx, _ => tx_loop fuel c tx 0
    | None, Some rx => rx_loop fuel c rx 0
    | None, None => ret (0, false)
    end in
  if out : bool then ret (u32 processed)
  else
    kp_spi_wait_for_reg_bit fuel KP_SPI_REG_STATUS KP_SPI_REG_STATUS_EOT ;;
    ret (u32 processed).

(** ** SPI functions *)

Record kp_spi := { kp_base : Z; kp_phys : Z }.

Record spi_device := {
  dev_chip_select : Z;
  dev_bits_per_word : Z;
  controller_state : option kp_spi_controller_state     (* None is NULL *)
}.

(** The state kp_spi_setup builds in freshly zeroed memory. *)
Definition new_controller_state (kpspi : kp_spi) (spidev : spi_device)
  : kp_spi_controller_state :=
  {| base := kp_base kpspi; phys := kp_phys kpspi;
     chip_select := dev_chip_select spidev;
     word_len := dev_bits_per_word spidev;
     conf_cache := -1 |}.

(** The Config word kp_spi_setup writes.  [sc0] is what the automatic
    variable [sc] holds on entry: it is never initialised as a whole. *)
Definition setup_config (spidev : spi_device) (sc0 : Z) : Z :=
  let sc := u32 sc0 in
  let sc := set_field wl (dev_bits_per_word spidev - 1) sc in
  let sc := set_field cs (dev_chip_select spidev) sc in
  let sc := set_field spi_en 0 sc in
  let sc := set_field trm 0 sc in
  set_field ffen 0 sc.

(** [kzalloc_ok] tells whether the allocation succeeds when one is made.
    The result is the return value, the device and the log. *)
Definition kp_spi_setup (kpspi : kp_spi) (kzalloc_ok : bool) (sc0 : Z)
    (spidev : spi_device) (m : Z -> Z) (l : list event)
  : Z * spi_device * list event :=
  let state :=
    match controller_state spidev with
    | Some c => Some c
    | None => if kzalloc_ok then Some (new_controller_state kpspi spidev) else None
    end in
  match state with
  | None => (- ENOMEM, spidev, l)
  | Some c =>
      let st' := kp_spi_write_reg KP_SPI_REG_CONFIG (setup_config spidev sc0)
                   {| ctl := c; mem := m; log := l |} in
      (0,
       {| dev_chip_select := dev_chip_select spidev;
          dev_bits_per_word := dev_bits_per_word spidev;
          controller_state := Some (ctl st') |},
       log st')
  end.

Definition is_null (p : option Z) : bool :=
  match p with None => true | Some _ => false end.

(** The two rejecting conditions of the validation loop, in source order. *)
Definition bad_speed_or_buffers (t : spi_transfer) : bool :=
  (KP_SPI_CLK <? speed_hz t)
  || (negb (len t =? 0) && negb (negb (is_null (rx_buf t)) || negb (is_null (tx_buf t)))).

Definition below_min_speed (t : spi_transfer) : bool :=
  negb (speed_hz t =? 0) && (speed_hz t <? Z.shiftr KP_SPI_CLK 15).

(** The validation loop; the result is 0 or -EINVAL. *)
Fixpoint validate (ts : list spi_transfer) : M Z :=
  match ts with
  | [] => ret 0
  | t :: rest =>
      if bad_speed_or_buffers t then
        emit EvPrintk ;; emit EvPrintk ;; ret (- EINVAL)
      else if below_min_speed t then
        emit EvPrintk ;; emit EvPrintk ;; ret (- EINVAL)
      else validate rest
  end.

(** The Config word written before a transfer, from the one read back. *)
Definition transfer_config (spidev : spi_device) (t : spi_transfer) (reg : Z) : Z :=
  let sc := u32 reg in
  let sc :=
    if negb (is_null (tx_buf t)) then set_field trm KP_SPI_REG_CONFIG_TRM_TX sc
    else if negb (is_null (rx_buf t)) then set_field trm KP_SPI_REG_CONFIG_TRM_RX sc
    else sc in
  let word_len :=
    if negb (bits_per_word t =? 0) then bits_per_word t else dev_bits_per_word spidev in
  let sc := set_field wl (word_len - 1) sc in
  set_field cs (dev_chip_select spidev) sc.

Definition transfer_word_len (spidev : spi_device) (t : spi_transfer) : Z :=
  if negb (bits_per_word t =? 0) then bits_per_word t else dev_bits_per_word spidev.

(** The transfer loop of kp_spi_transfer_one_message.  [acc] is
    [m->actual_length]; the result is the local [status] and the final
    [m->actual_length]. *)
Fixpoint do_transfers (fuel : nat) (spidev : spi_device)
    (ts : list spi_transfer) (acc : Z) : M (Z * Z) :=
  match ts with
  | [] => ret (0, acc)
  | t :: rest =>
      if is_null (tx_buf t) && is_null (rx_buf t) && negb (len t =? 0) then
        ret (- EINVAL, acc)
      else
        let* (brk, acc') :=
          if negb (len t =? 0) then
            let* reg := lift (kp_spi_read_reg KP_SPI_REG_CONFIG) in
            modify (set_word_len (transfer_word_len spidev t)) ;;
            modify (kp_spi_write_reg KP_SPI_REG_CONFIG (transfer_config spidev t reg)) ;;
            let* count := kp_spi_txrx_pio fuel t in
            ret (negb (count =? len t), u32 (acc + count))
          else ret (false, acc) in
        if brk : bool then ret (- EIO, acc')
        else
          (if negb (delay_usecs t =? 0) then emit (EvUdelay (delay_usecs t)) else ret tt) ;;
          do_transfers fuel spidev rest acc'
  end.

Definition set_result (m : spi_message) (alen : Z) : spi_message :=
  {| transfers := transfers m; actual_length := alen; status := 0 |}.

(** kp_spi_transfer_one_message up to its [return]: the result is the
    value about to be returned, the local [status], and the message. *)
Definition message_body (fuel : nat) (spidev : spi_device) (m : spi_message)
  : M (Z * Z * spi_message) :=
  let m0 := set_result m 0 in
  match transfers m with
  | [] => ret (- EINVAL, 0, m0)
  | _ :: _ =>
      let* v := validate (transfers m) in
      if v <? 0 then ret (- EINVAL, 0, m0)
      else
        (* assert chip select to start the sequence *)
        let* reg := lift (kp_spi_read_reg KP_SPI_REG_CONFIG) in
        modify (kp_spi_write_reg KP_SPI_REG_CONFIG (set_field spi_en 1 (u32 reg))) ;;
        (* work *)
        let* r := kp_spi_wait_for_reg_bit fuel KP_SPI_REG_STATUS KP_SPI_REG_STATUS_EOT in
        if r <? 0 then
          emit EvPrintk ;;
          emit EvFinalize ;;
          ret (0, 0, m0)
        else
          let* (status, alen) := do_transfers fuel spidev (transfers m) 0 in
          (* de-assert chip select to end the sequence *)
          let* reg := lift (kp_spi_read_reg KP_SPI_REG_CONFIG) in
          modify (kp_spi_write_reg KP_SPI_REG_CONFIG (set_field spi_en 0 (u32 reg))) ;;
          emit EvFinalize ;;
          ret (0, status, set_result m alen)
  end.

(** The local [status] dies with the stack frame: the caller sees the
    returned value and the message. *)
Definition kp_spi_transfer_one_message (fuel : nat) (spidev : spi_device)
    (m : spi_message) : M (Z * spi_message) :=
  let* (r, _, m') := message_body fuel spidev m in
  ret (r, m').

End Driver.

(** ** Cleanup, probe and remove *)

(** kp_spi_cleanup: the blocks it hands to [kfree]. *)
Definition kp_spi_cleanup (spidev : spi_device) : list kp_spi_controller_state :=
  match controller_state spidev with
  | Some cs => [cs]
  | None => []
  end.

Definition ENODEV : Z := 19.

(** The calls kp_spi_probe and kp_spi_remove make into the kernel, the
    pure accessors apart. *)
Inductive kcall : Type :=
| KDevErr
| KAllocMaster
| KSetDrvdata
| KGetResource
| KIoremap (start size : Z)
| KRegisterMaster
| KNewDevice (i : nat)                 (* spi_new_device(master, &table[i]) *)
| KMasterPut
| KUnregisterMaster.

Record resource := { res_start : Z; res_end : Z }.

Record platform_device := {
  pdev_id : Z;
  platform_data : option Z;            (* the card_id behind it; None is NULL *)
  mem_resource : option resource       (* platform_get_resource(.., IORESOURCE_MEM, 0) *)
}.

(** What lies outside this file: three definitions of headers that are
    not part of it, and the answers of the kernel to the calls of
    kp_spi_probe. *)
Record kernel := {
  PCI_DEVICE_ID_DAKTRONICS_KADOKA_P2KR0 : Z;
  p2kr0_board_info_size : nat;         (* ARRAY_SIZE(p2kr0_board_info) *)
  resource_size : resource -> Z;
  spi_alloc_master_ok : bool;
  ioremap_nocache : Z -> Z -> Z;
  spi_register_master : Z
}.

(** kp_spi_probe: the value returned, the device data once the registers
    are mapped, and the calls made, oldest first.  The fields of the
    master that probe fills in - mode bits, word mask, the three handlers,
    the number of chip selects, the bus number - and [pin_dir] are read by
    nothing in this file and are left out. *)
Definition kp_spi_probe (K : kernel) (pldev : platform_device)
  : Z * option kp_spi * list kcall :=
  match platform_data pldev with
  | None => (- ENODEV, None, [KDevErr])
  | Some card_id =>
      if negb (spi_alloc_master_ok K) then (- ENOMEM, None, [KAllocMaster; KDevErr])
      else
        let calls := [KAllocMaster; KSetDrvdata; KGetResource] in
        match mem_resource pldev with
        | None => (- ENODEV, None, calls ++ [KDevErr; KMasterPut])
        | Some r =>
            let phys := u64 (ioremap_nocache K (res_start r) (resource_size K r)) in
            let kpspi := {| kp_base := phys; kp_phys := phys |} in
            let calls :=
              calls ++ [KIoremap (res_start r) (resource_size K r); KRegisterMaster] in
            let status := s32 (spi_register_master K) in
            if status <? 0 then (status, Some kpspi, calls ++ [KDevErr; KMasterPut])
            else if Z.shiftr (Z.land card_id 0xFFFF0000) 16
                    =? PCI_DEVICE_ID_DAKTRONICS_KADOKA_P2KR0 K
            then (status, Some kpspi,
                  calls ++ map KNewDevice (seq 0 (p2kr0_board_info_size K)))
            else (status, Some kpspi, calls ++ [KDevErr; KMasterPut])
        end
  end.

Definition kp_spi_remove : Z * list kcall := (0, [KUnregisterMaster]).

(** ** Concrete environments *)

(** A device whose status register is given by [status_of] and whose
    RX-Data register delivers the bytes of [rxdata] one after the other;
    the clock advances by one jiffy per [cpu_relax] and a second lasts two
    jiffies. *)
Definition scripted (status_of : list event -> Z) (rxdata : list Z) : platform :=
  {| readq_of := fun l idx =>
       if idx =? KP_SPI_REG_STATUS then status_of l
       else if idx =? KP_SPI_REG_RXDATA
            then nth (length (reads_of KP_SPI_REG_RXDATA l)) rxdata 0
            else 0;
     jiffies_of := fun l => Z.of_nat (count_relax l);
     msecs_to_jiffies := fun _ => 2;
     char_signed := true |}.

(** Every status bit is always set. *)
Definition ready_device (rxdata : list Z) : platform := scripted (fun _ => 7) rxdata.

(** No status bit is ever set. *)
Definition stuck_device : platform := scripted (fun _ => 0) [].

Definition idle_state : kp_spi_controller_state :=
  {| base := 0; phys := 0; chip_select := 1; word_len := 8; conf_cache := 0x4070 |}.

Definition boot (c : kp_spi_controller_state) (m : Z -> Z) : machine :=
  {| ctl := c; mem := m; log := [] |}.

Definition board_device : spi_device :=
  {| dev_chip_select := 1; dev_bits_per_word := 8; controller_state := Some idle_state |}.

Definition xfer (tx rx : option Z) (n : Z) : spi_transfer :=
  {| tx_buf := tx; rx_buf := rx; len := n; bits_per_word := 0;
     delay_usecs := 0; speed_hz := 1000000 |}.

Definition msg (ts : list spi_transfer) : spi_message :=
  {| transfers := ts; actual_length := 0; status := 0 |}.

(** A device whose registers all read as the number of events so far. *)
Definition counting_device : platform :=
  {| readq_of := fun l _ => Z.of_nat (length l);
     jiffies_of := fun l => Z.of_nat (count_relax l);
     msecs_to_jiffies := fun _ => 2;
     char_signed := true |}.

(** The status register shows the given bit only to a read that directly
    follows a sample of jiffies taken in the third jiffy or later: the bit
    comes up in the instant between the deadline check and the re-check. *)
Definition boundary_device : platform :=
  scripted (fun l => match l with
                     | EvJiffies j :: _ => if 3 <=? j then 7 else 0
                     | _ => 0
                     end) [].

Definition kp0 : kp_spi := {| kp_base := 0; kp_phys := 0 |}.

(** A device kp_spi_setup has not seen yet. *)
Definition new_device : spi_device :=
  {| dev_chip_select := 1; dev_bits_per_word := 8; controller_state := None |}.

(** Three send transfers of 2^31 - 1, 2^31 - 1 and 2 bytes: 2^32 in all. *)
Definition big_message : spi_message :=
  msg [xfer (Some 0) None (2 ^ 31 - 1); xfer (Some 0) None (2 ^ 31 - 1);
       xfer (Some 0) None 2].

(** The status register always shows end-of-transfer and never TX- or
    RX-ready. *)
Definition eot_only_device : platform := scripted (fun _ => 4) [].

(** ** Vocabulary of the properties *)

(** The events between two states, oldest first. *)
Definition trace (st st' : machine) : list event := rev (new_events st st').

Definition trace_of (st st' : machine) (t : list event) : Prop :=
  log st' = rev t ++ log st.

(** The clock passes every one-second deadline within [N] rounds of
    polling: [l0] is the log when a wait begins, [l1] what was logged
    since its first sample of jiffies. *)
Definition live_within (E : platform) (N : nat) : Prop :=
  forall l0 : list event,
    exists n : nat, (n < N)%nat /\
      forall l1 : list event, count_relax l1 = n ->
        time_after (u64 (jiffies_of E (l1 ++ EvJiffies (u64 (jiffies_of E l0)) :: l0)))
                   (u64 (u64 (jiffies_of E l0) + msecs_to_jiffies E 1000)) = true.

(** The polls of one wait, oldest first, and the value it returns. *)
Inductive wait_polls (idx bit timeout : Z) : list event -> Z -> Prop :=
| polls_set : forall e v,
    reg_read e = Some (idx, v) -> Z.land v bit <> 0 ->
    wait_polls idx bit timeout [e] 0
| polls_recheck : forall e v j e2 v2,
    reg_read e = Some (idx, v) -> Z.land v bit = 0 ->
    time_after j timeout = true ->
    reg_read e2 = Some (idx, v2) ->
    wait_polls idx bit timeout [e; EvJiffies j; e2]
      (if Z.land v2 bit =? 0 then - ETIMEDOUT else 0)
| polls_spin : forall e v j rest r,
    reg_read e = Some (idx, v) -> Z.land v bit = 0 ->
    time_after j timeout = false ->
    wait_polls idx bit timeout rest r ->
    wait_polls idx bit timeout (e :: EvJiffies j :: EvRelax :: rest) r.

(** Every jiffies sample of the list lies before the deadline. *)
Definition before_deadline (timeout : Z) (evs : list event) : Prop :=
  forall j, In (EvJiffies j) evs -> time_after j timeout = false.

Definition all_waits_ok (evs : list event) : Prop :=
  Forall (fun w => snd w = 0) (wait_rets evs).

(** The traffic on the two data registers. *)
Definition is_data (e : event) : bool :=
  match e with
  | EvWriteq i _ => i =? KP_SPI_REG_TXDATA
  | EvReadq i _ => i =? KP_SPI_REG_RXDATA
  | _ => false
  end.

Definition wf_transfer (t : spi_transfer) : Prop := 0 <= len t < 2 ^ 32.

Definition has_buffer (t : spi_transfer) : Prop :=
  tx_buf t <> None \/ rx_buf t <> None.

Fixpoint total_length (ts : list spi_transfer) : Z :=
  match ts with
  | [] => 0
  | t :: rest => len t + total_length rest
  end.

(** What the validation loop accepts, transfer by transfer. *)
Definition transfer_okb (t : spi_transfer) : bool :=
  negb (bad_speed_or_buffers t) && negb (below_min_speed t).

Definition passes_validation (m : spi_message) : bool :=
  match transfers m with
  | [] => false
  | ts => forallb transfer_okb ts
  end.

(** The rejected transfers, with the lower speed bound the code applies:
    below 1464 Hz, which is KP_SPI_CLK >> 15, the integer part of
    48,000,000/32768. *)
Definition invalid_transfer (t : spi_transfer) : Prop :=
  speed_hz t > 48000000
  \/ (speed_hz t <> 0 /\ speed_hz t < 1464)
  \/ (len t <> 0 /\ tx_buf t = None /\ rx_buf t = None).

Definition invalid_message (m : spi_message) : Prop :=
  transfers m = [] \/ Exists invalid_transfer (transfers m).

(** The rejected transfers in the words of the specification: the lower
    bound is 48,000,000/32768 Hz, that is 1464.84... Hz, and a speed in
    whole Hz lies below it exactly when 32768 times the speed is below
    48,000,000. *)
Definition claimed_invalid_transfer (t : spi_transfer) : Prop :=
  speed_hz t > 48000000
  \/ (speed_hz t <> 0 /\ 32768 * speed_hz t < 48000000)
  \/ (len t <> 0 /\ tx_buf t = None /\ rx_buf t = None).

Definition claimed_invalid_message (m : spi_message) : Prop :=
  transfers m = [] \/ Exists claimed_invalid_transfer (transfers m).

(** A send of two bytes at 1464 Hz. *)
Definition slow_message : spi_message :=
  msg [ {| tx_buf := Some 100; rx_buf := None; len := 2; bits_per_word := 0;
           delay_usecs := 0; speed_hz := 1464 |} ].

(** The status bit that gates each unit of a transfer: TX-ready when
    there is a send buffer, RX-ready otherwise. *)
Definition unit_ready_bit (t : spi_transfer) : Z :=
  match tx_buf t with
  | Some _ => KP_SPI_REG_STATUS_TXS
  | None => KP_SPI_REG_STATUS_RXS
  end.

(** The session states the register access layer is called on: those a
    successful kp_spi_setup leaves in the device, and those that come of
    such a state by what the driver does to a session - a write of a
    Config word (the u32 member of the union), an update of the word
    length, a whole message. *)
Inductive session_state : kp_spi_controller_state -> Prop :=
| session_setup : forall kpspi ok sc0 spidev m l d' l' c,
    kp_spi_setup kpspi ok sc0 spidev m l = (0, d', l') ->
    controller_state d' = Some c ->
    session_state c
| session_config_write : forall st v,
    session_state (ctl st) ->
    session_state (ctl (kp_spi_write_reg KP_SPI_REG_CONFIG (u32 v) st))
| session_word_len : forall st w,
    session_state (ctl st) ->
    session_state (ctl (set_word_len w st))
| session_message : forall E fuel spidev m st r st',
    session_state (ctl st) ->
    kp_spi_transfer_one_message E fuel spidev m st = Some (r, st') ->
    session_state (ctl st').

(** The events a wait on register [idx] can produce while polling. *)
Definition poll_event (idx : Z) (e : event) : bool :=
  match e with
  | EvReadq i _ | EvCached i _ => i =? idx
  | EvJiffies _ | EvRelax => true
  | _ => false
  end.

(** Chip select is asserted: the cached Config word is a valid u32 with
    SPI-enable set. *)
Definition cs_asserted (st : machine) : Prop :=
  0 <= conf_cache (ctl st) < 2 ^ 32 /\ get_field spi_en (conf_cache (ctl st)) = 1.

(** The status register always reads [v]. *)
Definition status_always (E : platform) (v : Z) : Prop :=
  forall l, u64 (readq_of E l KP_SPI_REG_STATUS) = v.

(** The same outcome on a machine with another session state. *)
Definition retarget {A} (c : kp_spi_controller_state) (r : option (A * machine))
  : option (A * machine) :=
  match r with
  | Some (a, s) => Some (a, with_ctl c s)
  | None => None
  end.


(** The named fields of union kp_spi_config, from the least significant. *)
Definition config_fields : list bitfield :=
  [pha; pol; epol; dpe; wl; trm; cs; wcnt; ffen; spi_en].

(** A register read through the access layer, from the bus or the cache. *)
Definition is_reg_read (e : event) : bool :=
  match reg_read e with Some _ => true | None => false end.

(** What a state must keep of an earlier one: the session state as a
    whole when [whole] holds, else its base, phys and chip_select; and the
    bytes of memory at the addresses in [keep]. *)
Definition preserves (keep : Z -> Prop) (whole : bool) (st st' : machine) : Prop :=
  (if whole then ctl st' = ctl st
   else base (ctl st') = base (ctl st) /\ phys (ctl st') = phys (ctl st)
        /\ chip_select (ctl st') = chip_select (ctl st))
  /\ (forall a, keep a -> mem st' a = mem st a).

(** A computation that, started in a session state satisfying [I], ends
    in one, produces only events satisfying [P] and relates its end states
    by [R]. *)
Definition confined {A} (I : kp_spi_controller_state -> Prop) (P : event -> bool)
    (R : machine -> machine -> Prop) (c : M A) : Prop :=
  forall st a st', I (ctl st) -> c st = Some (a, st') ->
    exists t, trace_of st st' t /\ forallb P t = true /\ R st st' /\ I (ctl st').

(** The Config cache is populated. *)
Definition cached (c : kp_spi_controller_state) : Prop := 0 <= conf_cache c.

(** The events of a wait on a register other than Config. *)
Definition wait_event (idx : Z) (e : event) : bool :=
  match e with
  | EvReadq i _ => i =? idx
  | EvJiffies _ | EvRelax | EvWaitRet _ _ _ => true
  | _ => false
  end.

(** The events of the byte transfer primitive: it reads Status and
    RX-Data and writes TX-Data. *)
Definition pio_event (e : event) : bool :=
  match e with
  | EvReadq i _ => (i =? KP_SPI_REG_STATUS) || (i =? KP_SPI_REG_RXDATA)
  | EvWriteq i _ => i =? KP_SPI_REG_TXDATA
  | EvJiffies _ | EvRelax | EvWaitRet _ _ _ => true
  | _ => false
  end.

(** The events of a send: no read of RX-Data. *)
Definition send_event (e : event) : bool :=
  match e with
  | EvReadq i _ => i =? KP_SPI_REG_STATUS
  | _ => pio_event e
  end.

(** The events of a message on a session with a populated cache: Config
    is read from the cache only, FIFO-Control is never touched. *)
Definition message_event (e : event) : bool :=
  match e with
  | EvReadq i _ => (i =? KP_SPI_REG_STATUS) || (i =? KP_SPI_REG_RXDATA)
  | EvWriteq i _ => (i =? KP_SPI_REG_CONFIG) || (i =? KP_SPI_REG_TXDATA)
  | EvCached i _ => i =? KP_SPI_REG_CONFIG
  | _ => true
  end.

(** The address lies in no receive buffer that a transfer of the list
    would fill (a transfer with a send buffer never receives). *)
Definition outside_rx (ts : list spi_transfer) (a : Z) : Prop :=
  forall t rx, In t ts -> tx_buf t = None -> rx_buf t = Some rx ->
               ~ (rx <= a < rx + len t).

(** The delays slept, in the order of the list. *)
Fixpoint udelays (evs : list event) : list Z :=
  match evs with
  | [] => []
  | EvUdelay us :: r => us :: udelays r
  | _ :: r => udelays r
  end.

Definition is_master_put (c : kcall) : bool :=
  match c with KMasterPut => true | _ => false end.

Definition is_new_device (c : kcall) : bool :=
  match c with KNewDevice _ => true | _ => false end.

(** A kernel that answers every call with success, for a board table of
    two entries. *)
Definition willing_kernel : kernel :=
  {| PCI_DEVICE_ID_DAKTRONICS_KADOKA_P2KR0 := 0x4B03;
     p2kr0_board_info_size := 2;
     resource_size := fun r => res_end r - res_start r + 1;
     spi_alloc_master_ok := true;
     ioremap_nocache := fun start _ => start + 0x1000;
     spi_register_master := 0 |}.

Definition card (id : Z) : platform_device :=
  {| pdev_id := 0; platform_data := Some id;
     mem_resource := Some {| res_start := 0x100; res_end := 0x1FF |} |}.

(** A sequence of kp_spi_setup calls on one device, each with its own
    allocation outcome and its own stack garbage: the results in order,
    and the device and the log at the end. *)
Fixpoint setups (kpspi : kp_spi) (calls : list (bool * Z)) (spidev : spi_device)
    (m : Z -> Z) (l : list event) : list Z * spi_device * list event :=
  match calls with
  | [] => ([], spidev, l)
  | (ok, sc0) :: rest =>
      let '(r, d, l1) := kp_spi_setup kpspi ok sc0 spidev m l in
      let '(rs, d', l') := setups kpspi rest d m l1 in
      (r :: rs, d', l')
  end.

(** ** Machine integers: facts *)

Lemma u32_range z : 0 <= u32 z < 2 ^ 32.
Proof. unfold u32. apply Z.mod_pos_bound. lia. Qed.

Lemma u64_range z : 0 <= u64 z < 2 ^ 64.
Proof. unfold u64. apply Z.mod_pos_bound. lia. Qed.

Lemma u8_range z : 0 <= u8 z < 2 ^ 8.
Proof. unfold u8. apply Z.mod_pos_bound. lia. Qed.

Lemma u32_small z : 0 <= z < 2 ^ 32 -> u32 z = z.
Proof. intros H. unfold u32. apply Z.mod_small. exact H. Qed.

Lemma u64_small z : 0 <= z < 2 ^ 64 -> u64 z = z.
Proof. intros H. unfold u64. apply Z.mod_small. exact H. Qed.

Lemma s64_small z : 0 <= z < 2 ^ 63 -> s64 z = z.
Proof.
  intros H. unfold s64. rewrite u64_small by lia.
  destruct (Z.ltb_spec z (2 ^ 63)); lia.
Qed.

Lemma u32_s32 z : u32 (s32 z) = u32 z.
Proof.
  unfold s32. destruct (u32 z <? 2 ^ 31).
  - unfold u32. apply Z.mod_mod. lia.
  - unfold u32. change (2 ^ 32) with (1 * 2 ^ 32) at 2.
    rewrite Zminus_mod, Z.mod_mod, Z_mod_mult, Z.sub_0_r, Z.mod_mod by lia.
    reflexivity.
Qed.

Lemma u32_le z : 0 <= z -> u32 z <= z.
Proof. intros H. unfold u32. apply Z.mod_le; lia. Qed.

Lemma u32_add_l a b : u32 (u32 a + b) = u32 (a + b).
Proof. unfold u32. apply Zplus_mod_idemp_l. Qed.

(** ** Bit fields: facts *)

Lemma testbit_set_field f v r i :
  0 <= f_off f -> 0 <= f_width f -> 0 <= i ->
  Z.testbit (set_field f v r) i =
  if (f_off f <=? i) && (i <? f_off f + f_width f)
  then Z.testbit v (i - f_off f) else Z.testbit r i.
Proof.
  intros Ho Hw Hi. unfold set_field.
  rewrite Z.lor_spec, Z.land_spec, Z.lnot_spec, !Z.shiftl_spec by assumption.
  rewrite Z.land_spec.
  destruct (Z.leb_spec (f_off f) i) as [Hle | Hlt]; simpl.
  - rewrite !Z.testbit_ones_nonneg by lia.
    destruct (Z.ltb_spec i (f_off f + f_width f));
      destruct (Z.ltb_spec (i - f_off f) (f_width f)); try lia; simpl;
      destruct (Z.testbit r i), (Z.testbit v (i - f_off f)); reflexivity.
  - rewrite !(Z.testbit_neg_r _ (i - f_off f)) by lia.
    simpl. destruct (Z.testbit r i); reflexivity.
Qed.

Lemma testbit_get_field f r i :
  0 <= f_off f -> 0 <= f_width f -> 0 <= i ->
  Z.testbit (get_field f r) i = Z.testbit r (i + f_off f) && (i <? f_width f).
Proof.
  intros Ho Hw Hi. unfold get_field.
  rewrite Z.land_spec, Z.shiftr_spec, Z.testbit_ones_nonneg by assumption.
  reflexivity.
Qed.

Lemma get_set_same f v r :
  0 <= f_off f -> 0 <= f_width f ->
  get_field f (set_field f v r) = v mod 2 ^ f_width f.
Proof.
  intros Ho Hw. rewrite <- Z.land_ones by assumption.
  apply Z.bits_inj'. intros i Hi.
  rewrite testbit_get_field, testbit_set_field by lia.
  rewrite Z.land_spec, Z.testbit_ones_nonneg by assumption.
  destruct (Z.ltb_spec i (f_width f)).
  - destruct (Z.leb_spec (f_off f) (i + f_off f)); [| lia].
    destruct (Z.ltb_spec (i + f_off f) (f_off f + f_width f)); [| lia].
    simpl. replace (i + f_off f - f_off f) with i by lia. reflexivity.
  - rewrite !Bool.andb_false_r. reflexivity.
Qed.

Lemma get_set_other f g v r :
  0 <= f_off f -> 0 <= f_width f -> 0 <= f_off g -> 0 <= f_width g ->
  disjoint_fields f g ->
  get_field f (set_field g v r) = get_field f r.
Proof.
  intros Hof Hwf Hog Hwg Hd. apply Z.bits_inj'. intros i Hi.
  rewrite !testbit_get_field, testbit_set_field by lia.
  destruct (Z.ltb_spec i (f_width f)).
  - destruct (Z.leb_spec (f_off g) (i + f_off f));
      destruct (Z.ltb_spec (i + f_off f) (f_off g + f_width g));
      simpl; try reflexivity.
    unfold disjoint_fields in Hd. lia.
  - rewrite !Bool.andb_false_r. reflexivity.
Qed.

Lemma below_pow2_32 x : Z.land x (Z.ones 32) = x -> 0 <= x < 2 ^ 32.
Proof.
  intros H. rewrite Z.land_ones in H by lia. rewrite <- H.
  apply Z.mod_pos_bound. lia.
Qed.

Lemma testbit_high r i : 0 <= r < 2 ^ 32 -> 32 <= i -> Z.testbit r i = false.
Proof.
  intros Hr Hi. destruct (Z.eq_dec r 0) as [-> | Hn].
  - apply Z.testbit_0_l.
  - apply Z.bits_above_log2; [lia |].
    apply Z.lt_le_trans with 32; [| lia].
    apply Z.log2_lt_pow2; lia.
Qed.

Lemma set_field_range f v r :
  field_ok f -> 0 <= r < 2 ^ 32 -> 0 <= set_field f v r < 2 ^ 32.
Proof.
  intros (Ho & Hw & Hs) Hr. apply below_pow2_32.
  apply Z.bits_inj'. intros i Hi.
  rewrite Z.land_spec, Z.testbit_ones_nonneg by lia.
  destruct (Z.ltb_spec i 32).
  - apply Bool.andb_true_r.
  - rewrite Bool.andb_false_r, testbit_set_field by lia.
    destruct (Z.leb_spec (f_off f) i);
      destruct (Z.ltb_spec i (f_off f + f_width f)); simpl; try lia;
      symmetry; apply testbit_high; assumption.
Qed.

Lemma fields_ok :
  field_ok wl /\ field_ok trm /\ field_ok cs /\ field_ok ffen /\ field_ok spi_en
  /\ field_ok dpe.
Proof. unfold field_ok; simpl; lia. Qed.

(** ** Traces *)

Lemma writes_to_app idx a b : writes_to idx (a ++ b) = writes_to idx a ++ writes_to idx b.
Proof.
  induction a as [| e a IH]; simpl; [reflexivity |].
  destruct e; try exact IH. destruct (idx0 =? idx); simpl; congruence.
Qed.

Lemma reads_of_app idx a b : reads_of idx (a ++ b) = reads_of idx a ++ reads_of idx b.
Proof.
  induction a as [| e a IH]; simpl; [reflexivity |].
  destruct e; try exact IH. destruct (idx0 =? idx); simpl; congruence.
Qed.

Lemma wait_rets_app a b : wait_rets (a ++ b) = wait_rets a ++ wait_rets b.
Proof.
  induction a as [| e a IH]; simpl; [reflexivity |].
  destruct e; try exact IH. simpl. congruence.
Qed.

Lemma writes_to_other i j v t : i <> j -> writes_to i (EvWriteq j v :: t) = writes_to i t.
Proof. intros H. simpl. destruct (Z.eqb_spec j i); [congruence | reflexivity]. Qed.

Lemma writes_to_same i v t : writes_to i (EvWriteq i v :: t) = v :: writes_to i t.
Proof. simpl. rewrite Z.eqb_refl. reflexivity. Qed.

Lemma all_waits_ok_app a b : all_waits_ok (a ++ b) <-> all_waits_ok a /\ all_waits_ok b.
Proof. unfold all_waits_ok. rewrite wait_rets_app. apply Forall_app. Qed.

Lemma trace_of_refl st : trace_of st st [].
Proof. reflexivity. Qed.

Lemma trace_of_trans st st1 st2 t1 t2 :
  trace_of st st1 t1 -> trace_of st1 st2 t2 -> trace_of st st2 (t1 ++ t2).
Proof.
  unfold trace_of. intros H1 H2. rewrite H2, H1, rev_app_distr, app_assoc.
  reflexivity.
Qed.

Lemma trace_of_trace st st' t : trace_of st st' t -> trace st st' = t.
Proof.
  unfold trace_of, trace, new_events. intros H. rewrite H.
  rewrite length_app, Nat.add_sub, <- (Nat.add_0_r (length (rev t))).
  rewrite firstn_app_2. simpl. rewrite app_nil_r. apply rev_involutive.
Qed.

Lemma trace_of_log_event e st : trace_of st (log_event e st) [e].
Proof. reflexivity. Qed.

(** ** Inversion of monadic code *)

Lemma bind_inv {A B} (c : M A) (k : A -> M B) st r :
  bind c k st = Some r -> exists a st1, c st = Some (a, st1) /\ k a st1 = Some r.
Proof.
  unfold bind. destruct (c st) as [[a st1] |]; [eauto | discriminate].
Qed.

Lemma bind_some {A B} (c : M A) (k : A -> M B) st a st1 :
  c st = Some (a, st1) -> bind c k st = k a st1.
Proof. unfold bind. intros ->. reflexivity. Qed.

Lemma bind_lift {A B} (f : machine -> A * machine) (k : A -> M B) st :
  bind (lift f) k st = k (fst (f st)) (snd (f st)).
Proof. unfold bind, lift. destruct (f st). reflexivity. Qed.

Lemma bind_modify {B} f (k : unit -> M B) st : bind (modify f) k st = k tt (f st).
Proof. reflexivity. Qed.

Lemma bind_emit {B} e (k : unit -> M B) st : bind (emit e) k st = k tt (log_event e st).
Proof. reflexivity. Qed.

Lemma bind_ret {A B} (a : A) (k : A -> M B) st : bind (ret a) k st = k a st.
Proof. reflexivity. Qed.

Lemma lift_inv {A} (f : machine -> A * machine) st a st1 :
  lift f st = Some (a, st1) -> f st = (a, st1).
Proof. unfold lift. congruence. Qed.

Lemma modify_inv f st (u : unit) st1 : modify f st = Some (u, st1) -> st1 = f st.
Proof. unfold modify. congruence. Qed.

Lemma emit_inv e st (u : unit) st1 : emit e st = Some (u, st1) -> st1 = log_event e st.
Proof. unfold emit, modify. congruence. Qed.

Lemma ret_inv {A} (a b : A) st st1 : ret a st = Some (b, st1) -> b = a /\ st1 = st.
Proof. unfold ret. intros H. split; congruence. Qed.

Ltac inv H := inversion H; subst; clear H.

(** Peel the leading operation off a run [H : (c ;; k) st = Some r]. *)
Ltac mstep H a st1 Ha :=
  apply bind_inv in H; destruct H as (a & st1 & Ha & H).

Section Access.

Variable E : platform.

Lemma read_reg_spec idx st v st' :
  kp_spi_read_reg E idx st = (v, st') ->
  exists e, st' = log_event e st /\ reg_read e = Some (idx, v) /\ 0 <= v < 2 ^ 64.
Proof.
  unfold kp_spi_read_reg, readq. intros H.
  destruct ((idx =? KP_SPI_REG_CONFIG) && (0 <=? conf_cache (ctl st))); inv H;
    eexists; (split; [reflexivity |]); (split; [reflexivity |]); apply u64_range.
Qed.

Lemma read_reg_bus idx st :
  idx <> KP_SPI_REG_CONFIG \/ conf_cache (ctl st) < 0 ->
  kp_spi_read_reg E idx st =
  (u64 (readq_of E (log st) idx),
   log_event (EvReadq idx (u64 (readq_of E (log st) idx))) st).
Proof.
  intros H. unfold kp_spi_read_reg, readq.
  destruct (Z.eqb_spec idx KP_SPI_REG_CONFIG); simpl; [| reflexivity].
  destruct (Z.leb_spec 0 (conf_cache (ctl st))); [lia | reflexivity].
Qed.

Lemma read_reg_cached st :
  0 <= conf_cache (ctl st) ->
  kp_spi_read_reg E KP_SPI_REG_CONFIG st =
  (u64 (conf_cache (ctl st)),
   log_event (EvCached KP_SPI_REG_CONFIG (u64 (conf_cache (ctl st)))) st).
Proof.
  intros H. unfold kp_spi_read_reg. simpl.
  destruct (Z.leb_spec 0 (conf_cache (ctl st))); [reflexivity | lia].
Qed.

Lemma write_reg_data idx val st :
  idx <> KP_SPI_REG_CONFIG ->
  kp_spi_write_reg idx val st = log_event (EvWriteq idx val) st.
Proof.
  intros H. unfold kp_spi_write_reg, writeq.
  destruct (Z.eqb_spec idx KP_SPI_REG_CONFIG); [contradiction | reflexivity].
Qed.

Lemma write_reg_config val st :
  kp_spi_write_reg KP_SPI_REG_CONFIG val st =
  set_conf_cache (s64 val) (log_event (EvWriteq KP_SPI_REG_CONFIG val) st).
Proof. reflexivity. Qed.

(** *** The bit wait *)

Lemma wait_loop_spec fuel idx bit timeout :
  forall st r st',
    wait_loop E fuel idx bit timeout st = Some (r, st') ->
    exists polls,
      trace_of st st' polls /\ wait_polls idx bit timeout polls r
      /\ ctl st' = ctl st /\ mem st' = mem st.
Proof.
  induction fuel as [| fuel IH]; intros st r st' H; [discriminate |].
  simpl in H. mstep H v st1 Hv. apply lift_inv in Hv.
  destruct (read_reg_spec _ _ _ _ Hv) as (e & -> & He & _).
  destruct (Z.eqb_spec (Z.land v bit) 0) as [Hclr | Hset].
  - mstep H j st2 Hj. apply lift_inv in Hj. unfold jiffies in Hj. inv Hj.
    destruct (time_after _ timeout) eqn:Hta.
    + mstep H v2 st3 Hv2. apply lift_inv in Hv2.
      destruct (read_reg_spec _ _ _ _ Hv2) as (e2 & -> & He2 & _).
      exists [e; EvJiffies (u64 (jiffies_of E (log (log_event e st)))); e2].
      assert (Hr : r = (if Z.land v2 bit =? 0 then - ETIMEDOUT else 0)
                   /\ st' = log_event e2 (log_event (EvJiffies (u64 (jiffies_of E (log (log_event e st))))) (log_event e st))).
      { destruct (Z.land v2 bit =? 0); apply ret_inv in H;
          destruct H as [-> ->]; split; reflexivity. }
      destruct Hr as [-> ->].
      split; [reflexivity |]. split; [| split; reflexivity].
      eapply polls_recheck; eassumption.
    + mstep H u st3 Hu. apply emit_inv in Hu. subst st3.
      apply IH in H. destruct H as (polls & Ht & Hp & Hc & Hm).
      exists (e :: EvJiffies (u64 (jiffies_of E (log (log_event e st)))) :: EvRelax :: polls).
      split; [| split; [| split; assumption]].
      * unfold trace_of in *. rewrite Ht. simpl. rewrite <- !app_assoc. reflexivity.
      * eapply polls_spin; eassumption.
  - apply ret_inv in H. destruct H as [-> ->]. exists [e]. split; [reflexivity |].
    split; [| split; reflexivity]. eapply polls_set; eassumption.
Qed.

Lemma wait_spec fuel idx bit st r st' :
  kp_spi_wait_for_reg_bit E fuel idx bit st = Some (r, st') ->
  exists polls,
    trace_of st st'
      (EvJiffies (u64 (jiffies_of E (log st))) :: polls ++ [EvWaitRet idx bit r])
    /\ wait_polls idx bit
         (u64 (u64 (jiffies_of E (log st)) + msecs_to_jiffies E 1000)) polls r
    /\ ctl st' = ctl st /\ mem st' = mem st.
Proof.
  unfold kp_spi_wait_for_reg_bit. intros H.
  mstep H j0 st1 Hj. apply lift_inv in Hj. unfold jiffies in Hj. inv Hj.
  mstep H r1 st2 Hl. mstep H u st3 Hu. apply emit_inv in Hu. subst st3.
  apply ret_inv in H. destruct H as [-> ->].
  apply wait_loop_spec in Hl. destruct Hl as (polls & Ht & Hp & Hc & Hm).
  exists polls. split; [| split; [exact Hp | split; assumption]].
  unfold trace_of in *. simpl. rewrite Ht. simpl.
  rewrite rev_app_distr. simpl. rewrite <- !app_assoc. reflexivity.
Qed.

End Access.

(** ** The polls of a wait *)

Lemma polls_alphabet idx bit timeout polls r :
  wait_polls idx bit timeout polls r -> forallb (poll_event idx) polls = true.
Proof.
  assert (Hrd : forall e v, reg_read e = Some (idx, v) -> poll_event idx e = true).
  { intros e v H. destruct e; simpl in *; try discriminate; inv H; apply Z.eqb_refl. }
  induction 1; simpl.
  - erewrite Hrd by eassumption. reflexivity.
  - erewrite !Hrd by eassumption. reflexivity.
  - erewrite Hrd by eassumption. exact IHwait_polls.
Qed.

Lemma alphabet_quiet idx l :
  forallb (poll_event idx) l = true ->
  (forall i, writes_to i l = []) /\ wait_rets l = []
  /\ (forall i, i <> idx -> reads_of i l = []) /\ ~ In EvFinalize l.
Proof.
  induction l as [| e l IH]; simpl; intros H.
  - repeat split; auto.
  - apply andb_prop in H. destruct H as [He Hl].
    destruct (IH Hl) as (Hw & Hr & Hrd & Hf).
    assert (Hnf : forall e', e' <> EvFinalize -> ~ In EvFinalize (e' :: l)).
    { intros e' Hne [? | ?]; [congruence | contradiction]. }
    destruct e; simpl in He; try discriminate; simpl.
    + apply Z.eqb_eq in He. subst idx0. repeat split; try assumption.
      * intros i Hi. destruct (Z.eqb_spec idx i); [congruence | auto].
      * apply Hnf. discriminate.
    + repeat split; try assumption. apply Hnf. discriminate.
    + repeat split; try assumption. apply Hnf. discriminate.
    + repeat split; try assumption. apply Hnf. discriminate.
Qed.

Lemma alphabet_no_data idx l :
  idx <> KP_SPI_REG_RXDATA ->
  forallb (poll_event idx) l = true -> filter is_data l = [].
Proof.
  intros Hi. induction l as [| e l IH]; simpl; intros H; [reflexivity |].
  apply andb_prop in H. destruct H as [He Hl].
  destruct e; simpl in *; try discriminate; auto.
  apply Z.eqb_eq in He. subst idx0.
  destruct (Z.eqb_spec idx KP_SPI_REG_RXDATA); [contradiction | auto].
Qed.

Lemma polls_ret idx bit timeout polls r :
  wait_polls idx bit timeout polls r -> r = 0 \/ r = - ETIMEDOUT.
Proof.
  induction 1; auto. destruct (Z.land v2 bit =? 0); auto.
Qed.

Lemma polls_timeout idx bit timeout polls r :
  wait_polls idx bit timeout polls r -> r <> 0 ->
  exists pre j e2 v2,
    polls = pre ++ [EvJiffies j; e2]
    /\ time_after j timeout = true
    /\ reg_read e2 = Some (idx, v2) /\ Z.land v2 bit = 0
    /\ before_deadline timeout pre
    /\ (forall e v, In e polls -> reg_read e = Some (idx, v) -> Z.land v bit = 0).
Proof.
  induction 1; intros Hr.
  - contradiction.
  - destruct (Z.eqb_spec (Z.land v2 bit) 0) as [Hz | Hnz]; [| contradiction].
    exists [e], j, e2, v2. repeat split; try assumption.
    + intros j' [Hj | []]. subst e. discriminate.
    + intros e' v' Hin Hrd. simpl in Hin.
      destruct Hin as [<- | [<- | [<- | []]]]; try discriminate; congruence.
  - destruct (IHwait_polls Hr) as (pre & j' & e2 & v2 & -> & Hta & He2 & Hv2 & Hb & Hall).
    exists (e :: EvJiffies j :: EvRelax :: pre), j', e2, v2.
    repeat split; try assumption.
    + intros j0 [Hj | [Hj | [Hj | Hj]]]; try discriminate.
      * subst e. discriminate.
      * inv Hj. assumption.
      * apply Hb. exact Hj.
    + intros e' v' Hin Hrd. simpl in Hin.
      destruct Hin as [<- | [<- | [<- | Hin]]]; try discriminate.
      * congruence.
      * eapply Hall; eassumption.
Qed.

Lemma polls_seen idx bit timeout polls r e v :
  wait_polls idx bit timeout polls r ->
  In e polls -> reg_read e = Some (idx, v) -> Z.land v bit <> 0 -> r = 0.
Proof.
  intros Hp Hin Hrd Hv. destruct (Z.eq_dec r 0) as [| Hr]; [assumption |].
  destruct (polls_timeout _ _ _ _ _ Hp Hr) as (_ & _ & _ & _ & _ & _ & _ & _ & _ & Hall).
  exfalso. apply Hv. eapply Hall; eassumption.
Qed.

(** ** Termination of the polling loop *)

Section Termination.

Variable E : platform.

Lemma count_relax_read e idx v l :
  reg_read e = Some (idx, v) -> count_relax (e :: l) = count_relax l.
Proof. destruct e; simpl; intros H; try discriminate; reflexivity. Qed.

Lemma wait_loop_total idx bit timeout L0 n :
  (forall l1, count_relax l1 = n ->
              time_after (u64 (jiffies_of E (l1 ++ L0))) timeout = true) ->
  forall fuel st l1,
    log st = l1 ++ L0 -> (count_relax l1 <= n)%nat ->
    (n - count_relax l1 < fuel)%nat ->
    exists r st', wait_loop E fuel idx bit timeout st = Some (r, st').
Proof.
  intros Hlive. induction fuel as [| fuel IH]; intros st l1 Hlog Hle Hlt; [lia |].
  simpl. destruct (kp_spi_read_reg E idx st) as [v st1] eqn:Hrd.
  rewrite (bind_some _ _ st v st1) by (unfold lift; rewrite Hrd; reflexivity).
  destruct (read_reg_spec _ _ _ _ _ Hrd) as (e & -> & He & _).
  destruct (Z.land v bit =? 0); [| unfold ret; eauto].
  unfold bind at 1, lift, jiffies. simpl log.
  destruct (time_after _ timeout) eqn:Hta.
  - destruct (kp_spi_read_reg E idx
               (log_event (EvJiffies (u64 (jiffies_of E (e :: log st)))) (log_event e st)))
      as [v2 st2] eqn:Hrd2.
    unfold bind, lift. rewrite Hrd2.
    destruct (Z.land v2 bit =? 0); unfold ret; eauto.
  - unfold bind at 1, emit, modify.
    assert (Hne : count_relax (e :: l1) <> n).
    { intros Hn. apply Hlive in Hn.
      change ((e :: l1) ++ L0) with (e :: (l1 ++ L0)) in Hn.
      rewrite <- Hlog in Hn. simpl in Hta. congruence. }
    rewrite (count_relax_read _ _ _ _ He) in Hne.
    apply (IH _ (EvRelax :: EvJiffies (u64 (jiffies_of E (e :: log st))) :: e :: l1)).
    + simpl. rewrite Hlog. reflexivity.
    + change (S (count_relax (e :: l1)) <= n)%nat.
      rewrite (count_relax_read _ _ _ _ He). lia.
    + change (n - S (count_relax (e :: l1)) < fuel)%nat.
      rewrite (count_relax_read _ _ _ _ He). lia.
Qed.

Lemma wait_total N idx bit st :
  live_within E N ->
  exists r st', kp_spi_wait_for_reg_bit E N idx bit st = Some (r, st').
Proof.
  intros Hlive. destruct (Hlive (log st)) as (n & Hn & Hl).
  unfold kp_spi_wait_for_reg_bit.
  unfold bind at 1, lift, jiffies.
  destruct (wait_loop_total idx bit
              (u64 (u64 (jiffies_of E (log st)) + msecs_to_jiffies E 1000))
              (EvJiffies (u64 (jiffies_of E (log st))) :: log st) n Hl N
              (log_event (EvJiffies (u64 (jiffies_of E (log st)))) st) [])
    as (r & st' & Hw);
    [reflexivity | unfold count_relax; simpl; lia | unfold count_relax; simpl; lia |].
  rewrite (bind_some _ _ _ _ _ Hw). unfold bind, emit, modify, ret. eauto.
Qed.

End Termination.

Lemma time_after_passed a d k :
  0 < k < 2 ^ 63 -> time_after (u64 (a + d + k)) (u64 (u64 a + d)) = true.
Proof.
  intros Hk. unfold time_after, s64.
  assert (Hu : u64 (u64 (u64 a + d) - u64 (a + d + k)) = 2 ^ 64 - k).
  { unfold u64. rewrite Zplus_mod_idemp_l, <- Zminus_mod.
    replace (a + d - (a + d + k)) with (- k) by lia.
    rewrite <- (Z_mod_plus_full (- k) 1 (2 ^ 64)).
    rewrite Z.mod_small by lia. lia. }
  rewrite Hu.
  destruct (Z.ltb_spec (2 ^ 64 - k) (2 ^ 63)); [lia |].
  apply Z.ltb_lt. lia.
Qed.

Lemma count_relax_app a b : count_relax (a ++ b) = (count_relax a + count_relax b)%nat.
Proof. unfold count_relax. rewrite filter_app, length_app. reflexivity. Qed.

Lemma scripted_live status_of rxdata : live_within (scripted status_of rxdata) 4.
Proof.
  intros l0. exists 3%nat. split; [lia |]. intros l1 Hl1.
  unfold scripted, jiffies_of, msecs_to_jiffies.
  rewrite count_relax_app, Hl1.
  change (count_relax (EvJiffies (u64 (Z.of_nat (count_relax l0))) :: l0))
    with (count_relax l0).
  replace (Z.of_nat (3 + count_relax l0)) with (Z.of_nat (count_relax l0) + 2 + 1) by lia.
  apply time_after_passed. lia.
Qed.

(** ** The byte transfer primitive *)

Section Pio.

Variable E : platform.

Lemma wait_quiet fuel idx bit st r st' :
  kp_spi_wait_for_reg_bit E fuel idx bit st = Some (r, st') ->
  exists t,
    trace_of st st' t /\ ctl st' = ctl st /\ mem st' = mem st
    /\ (r = 0 \/ r = - ETIMEDOUT)
    /\ (forall i, writes_to i t = [])
    /\ wait_rets t = [(idx, bit, r)]
    /\ (forall i, i <> idx -> reads_of i t = [])
    /\ (idx <> KP_SPI_REG_RXDATA -> filter is_data t = [])
    /\ ~ In EvFinalize t.
Proof.
  intros H. apply wait_spec in H. destruct H as (polls & Ht & Hp & Hc & Hm).
  pose proof (polls_alphabet _ _ _ _ _ Hp) as Ha.
  destruct (alphabet_quiet _ _ Ha) as (Hw & Hr & Hrd & Hf).
  eexists. split; [exact Ht |]. split; [exact Hc |]. split; [exact Hm |].
  split; [eapply polls_ret; eassumption |].
  split; [| split; [| split; [| split]]].
  - intros i. simpl. rewrite writes_to_app, Hw. reflexivity.
  - simpl. rewrite wait_rets_app, Hr. reflexivity.
  - intros i Hi. simpl. rewrite reads_of_app, Hrd by assumption. reflexivity.
  - intros Hi. simpl. rewrite filter_app, (alphabet_no_data _ _ Hi Ha). reflexivity.
  - simpl. intros [Hx | Hx]; [discriminate |].
    apply in_app_or in Hx. destruct Hx as [Hx | [Hx | []]]; [auto | discriminate].
Qed.

Lemma ret_neg r : r = 0 \/ r = - ETIMEDOUT -> (r <? 0) = negb (r =? 0).
Proof. intros [-> | ->]; reflexivity. Qed.

Lemma map_seq_S {A} (f : nat -> A) k :
  map f (seq 0 (S k)) = f 0%nat :: map (fun i => f (S i)) (seq 0 k).
Proof. simpl. rewrite <- seq_shift, map_map. reflexivity. Qed.

Lemma tx_loop_spec fuel :
  forall n tx p st p' out st',
    tx_loop E fuel n tx p st = Some ((p', out), st') ->
    exists t k,
      trace_of st st' t /\ ctl st' = ctl st /\ mem st' = mem st
      /\ (k <= n)%nat /\ u32 p' = u32 (p + Z.of_nat k)
      /\ writes_to KP_SPI_REG_TXDATA t =
         map (fun i => char_to_u64 E (u8 (mem st (tx + Z.of_nat i)))) (seq 0 k)
      /\ (forall i, i <> KP_SPI_REG_TXDATA -> writes_to i t = [])
      /\ (forall i, i <> KP_SPI_REG_STATUS -> reads_of i t = [])
      /\ ~ In EvFinalize t
      /\ wait_rets t =
         repeat (KP_SPI_REG_STATUS, KP_SPI_REG_STATUS_TXS, 0) k
         ++ (if out then [(KP_SPI_REG_STATUS, KP_SPI_REG_STATUS_TXS, - ETIMEDOUT)] else [])
      /\ (if out then (k < n)%nat else k = n).
Proof.
  induction n as [| n IH]; intros tx p st p' out st' H; simpl in H.
  - apply ret_inv in H. destruct H as [H ->]. inv H.
    exists [], 0%nat. rewrite Z.add_0_r. repeat split; auto.
  - mstep H val st1 Hval. inv Hval.
    mstep H r st2 Hw. apply wait_quiet in Hw.
    destruct Hw as (tw & Htw & Hc & Hm & Hr & Hww & Hwr & Hrd & _ & Hf).
    rewrite (ret_neg _ Hr) in H.
    destruct Hr as [-> | ->]; simpl in H.
    + mstep H u st3 Hu. apply modify_inv in Hu. subst st3.
      rewrite write_reg_data in H by discriminate.
      apply IH in H.
      destruct H as (t & k & Ht & Hc' & Hm' & Hk & Hp & Htx & Hwo & Hro & Hfin & Hwt & Hout).
      exists (tw ++ EvWriteq KP_SPI_REG_TXDATA (char_to_u64 E (load8 st1 tx)) :: t), (S k).
      split; [| split; [| split; [| split; [| split; [| split; [| split; [| split; [| split; [| split]]]]]]]]].
      * eapply trace_of_trans; [exact Htw |].
        apply (trace_of_trans _ _ _ [_] t (trace_of_log_event _ _) Ht).
      * rewrite Hc'. exact Hc.
      * rewrite Hm'. exact Hm.
      * lia.
      * rewrite Hp, <- u32_add_l, u32_s32, u32_add_l. f_equal. lia.
      * rewrite writes_to_app, Hww, map_seq_S, writes_to_same. simpl app. rewrite Htx.
        unfold load8. simpl Z.of_nat at 1. rewrite Z.add_0_r. f_equal.
        apply map_ext. intros i. simpl mem. rewrite Hm. do 3 f_equal. lia.
      * intros i Hi. rewrite writes_to_app, Hww, writes_to_other by assumption.
        simpl. auto.
      * intros i Hi. rewrite reads_of_app, Hrd by assumption. simpl. auto.
      * intros Hin. apply in_app_or in Hin.
        destruct Hin as [Hin | [Hin | Hin]]; [auto | discriminate | auto].
      * rewrite wait_rets_app, Hwr. simpl. rewrite Hwt. reflexivity.
      * destruct out; lia.
    + apply ret_inv in H. destruct H as [H ->]. inv H.
      exists tw, 0%nat. rewrite Z.add_0_r.
      repeat split; auto; try lia.
Qed.

Lemma rx_loop_spec fuel :
  forall n rx p st p' out st',
    rx_loop E fuel n rx p st = Some ((p', out), st') ->
    exists t vs,
      trace_of st st' t /\ ctl st' = ctl st
      /\ (length vs <= n)%nat /\ u32 p' = u32 (p + Z.of_nat (length vs))
      /\ filter is_data t =
         flat_map (fun v => [EvWriteq KP_SPI_REG_TXDATA 0; EvReadq KP_SPI_REG_RXDATA v]) vs
         ++ (if out then [EvWriteq KP_SPI_REG_TXDATA 0] else [])
      /\ (forall a, mem st' a =
                    if (rx <=? a) && (a <? rx + Z.of_nat (length vs))
                    then u8 (nth (Z.to_nat (a - rx)) vs 0) else mem st a)
      /\ (forall i, i <> KP_SPI_REG_TXDATA -> writes_to i t = [])
      /\ ~ In EvFinalize t
      /\ wait_rets t =
         repeat (KP_SPI_REG_STATUS, KP_SPI_REG_STATUS_RXS, 0) (length vs)
         ++ (if out then [(KP_SPI_REG_STATUS, KP_SPI_REG_STATUS_RXS, - ETIMEDOUT)] else [])
      /\ (if out then (length vs < n)%nat else length vs = n).
Proof.
  induction n as [| n IH]; intros rx p st p' out st' H; simpl in H.
  - apply ret_inv in H. destruct H as [H ->]. inv H.
    exists [], []. simpl. rewrite Z.add_0_r. repeat split; auto.
    intros a. destruct (Z.leb_spec rx a); destruct (Z.ltb_spec a (rx + 0));
      simpl; try lia; reflexivity.
  - mstep H u st0 Hu. apply modify_inv in Hu. subst st0.
    rewrite write_reg_data in H by discriminate.
    mstep H r st2 Hw. apply wait_quiet in Hw.
    destruct Hw as (tw & Htw & Hc & Hm & Hr & Hww & Hwr & Hrd & Hnd & Hf).
    specialize (Hnd ltac:(discriminate)).
    rewrite (ret_neg _ Hr) in H.
    destruct Hr as [-> | ->]; simpl in H.
    + mstep H test st3 Hrx. apply lift_inv in Hrx.
      rewrite read_reg_bus in Hrx by (left; discriminate). inv Hrx.
      mstep H u' st4 Hu. apply modify_inv in Hu. subst st4.
      apply IH in H.
      destruct H as (t & vs & Ht & Hc' & Hk & Hp & Hdata & Hmem & Hwo & Hfin & Hwt & Hout).
      set (v := u64 (readq_of E (log st2) KP_SPI_REG_RXDATA)) in *.
      exists (EvWriteq KP_SPI_REG_TXDATA 0 :: tw ++ EvReadq KP_SPI_REG_RXDATA v :: t),
             (v :: vs).
      split; [| split; [| split; [| split; [| split; [| split; [| split; [| split; [| split]]]]]]]].
      * apply (trace_of_trans _ _ _ [_] _ (trace_of_log_event _ _)).
        eapply trace_of_trans; [exact Htw |].
        apply (trace_of_trans _ _ _ [_] t (trace_of_log_event _ _) Ht).
      * rewrite Hc'. simpl. rewrite Hc. reflexivity.
      * simpl. lia.
      * rewrite Hp, <- u32_add_l, u32_s32, u32_add_l. f_equal. simpl length. lia.
      * simpl. rewrite filter_app, Hnd. simpl. rewrite Hdata. reflexivity.
      * intros a. rewrite Hmem. simpl mem. rewrite Hm. simpl mem. simpl length.
        destruct (Z.leb_spec (rx + 1) a); destruct (Z.ltb_spec a (rx + 1 + Z.of_nat (length vs)));
          destruct (Z.leb_spec rx a); destruct (Z.ltb_spec a (rx + Z.of_nat (S (length vs))));
          destruct (Z.eqb_spec a rx); simpl; try lia; try reflexivity.
        -- replace (Z.to_nat (a - rx)) with (S (Z.to_nat (a - (rx + 1)))) by lia.
           reflexivity.
        -- subst a. rewrite Z.sub_diag. reflexivity.
      * intros i Hi. rewrite writes_to_other, writes_to_app, Hww by assumption.
        simpl. auto.
      * simpl. intros [Hin | Hin]; [discriminate |]. apply in_app_or in Hin.
        destruct Hin as [Hin | [Hin | Hin]]; [auto | discriminate | auto].
      * simpl. rewrite wait_rets_app, Hwr. simpl. rewrite Hwt. reflexivity.
      * simpl length. destruct out; lia.
    + apply ret_inv in H. destruct H as [H ->]. inv H.
      exists (EvWriteq KP_SPI_REG_TXDATA 0 :: tw), [].
      split; [| split; [| split; [| split; [| split; [| split; [| split; [| split; [| split]]]]]]]].
      * apply (trace_of_trans _ _ _ [_] _ (trace_of_log_event _ _) Htw).
      * rewrite Hc. reflexivity.
      * simpl. lia.
      * simpl. rewrite Z.add_0_r. reflexivity.
      * simpl. rewrite Hnd. reflexivity.
      * intros a. rewrite Hm. simpl.
        destruct (Z.leb_spec rx a); destruct (Z.ltb_spec a (rx + 0)); simpl; try lia; reflexivity.
      * intros i Hi. rewrite writes_to_other by assumption. auto.
      * simpl. intros [Hin | Hin]; [discriminate | auto].
      * simpl. rewrite Hwr. reflexivity.
      * simpl. lia.
Qed.

Lemma pio_spec fuel t st count st' :
  kp_spi_txrx_pio E fuel t st = Some (count, st') -> wf_transfer t ->
  exists tr k out r ubit,
    trace_of st st' tr /\ ctl st' = ctl st
    /\ count = Z.of_nat k /\ Z.of_nat k <= len t
    /\ (forall i, i <> KP_SPI_REG_TXDATA -> writes_to i tr = [])
    /\ ~ In EvFinalize tr
    /\ ubit <> KP_SPI_REG_STATUS_EOT
    /\ wait_rets tr =
       repeat (KP_SPI_REG_STATUS, ubit, 0) k
       ++ (if out : bool then [(KP_SPI_REG_STATUS, ubit, - ETIMEDOUT)]
           else [(KP_SPI_REG_STATUS, KP_SPI_REG_STATUS_EOT, r)])
    /\ (if out then Z.of_nat k < len t else has_buffer t -> Z.of_nat k = len t).
Proof.
  unfold kp_spi_txrx_pio, wf_transfer. intros H Hwf.
  mstep H po st1 Hloop. destruct po as [p' out].
  assert (Hl : exists t1 k ubit,
             trace_of st st1 t1 /\ ctl st1 = ctl st
             /\ (k <= Z.to_nat (len t))%nat /\ u32 p' = u32 (0 + Z.of_nat k)
             /\ (forall i, i <> KP_SPI_REG_TXDATA -> writes_to i t1 = [])
             /\ ~ In EvFinalize t1
             /\ ubit <> KP_SPI_REG_STATUS_EOT
             /\ wait_rets t1 =
                repeat (KP_SPI_REG_STATUS, ubit, 0) k
                ++ (if out then [(KP_SPI_REG_STATUS, ubit, - ETIMEDOUT)] else [])
             /\ (if out then (k < Z.to_nat (len t))%nat
                 else has_buffer t -> k = Z.to_nat (len t))).
  { destruct (tx_buf t) as [tx |] eqn:Htx; [| destruct (rx_buf t) as [rx |] eqn:Hrx].
    - apply tx_loop_spec in Hloop.
      destruct Hloop as (t1 & k & Ht & Hc & _ & Hk & Hp & _ & Hwo & _ & Hf & Hw & Hout).
      exists t1, k, KP_SPI_REG_STATUS_TXS.
      repeat (split; [first [assumption | discriminate] |]).
      destruct out; [assumption | intros _; assumption].
    - apply rx_loop_spec in Hloop.
      destruct Hloop as (t1 & vs & Ht & Hc & Hk & Hp & _ & _ & Hwo & Hf & Hw & Hout).
      exists t1, (length vs), KP_SPI_REG_STATUS_RXS.
      repeat (split; [first [assumption | discriminate] |]).
      destruct out; [assumption | intros _; assumption].
    - apply ret_inv in Hloop. destruct Hloop as [Hpo ->]. inv Hpo.
      exists [], 0%nat, KP_SPI_REG_STATUS_TXS.
      repeat (split; [first [reflexivity | discriminate | lia | auto] |]).
      intros [Hb | Hb]; congruence. }
  destruct Hl as (t1 & k & ubit & Ht & Hc & Hk & Hp & Hwo & Hf & Hub & Hw & Hout).
  assert (Hcount : u32 p' = Z.of_nat k).
  { rewrite Hp. apply u32_small. lia. }
  destruct out.
  - apply ret_inv in H. destruct H as [-> ->].
    exists t1, k, true, 0, ubit. repeat (split; [first [assumption | lia] |]). lia.
  - mstep H r st2 Hwt. apply ret_inv in H. destruct H as [-> ->].
    apply wait_quiet in Hwt.
    destruct Hwt as (tw & Htw & Hcw & _ & _ & Hww & Hwr & _ & _ & Hfw).
    exists (t1 ++ tw), k, false, r, ubit.
    split; [eapply trace_of_trans; eassumption |].
    split; [congruence |]. split; [assumption |]. split; [lia |].
    split; [intros i Hi; rewrite writes_to_app, Hwo, Hww by assumption; reflexivity |].
    split; [intros Hin; apply in_app_or in Hin; tauto |].
    split; [assumption |].
    split; [rewrite wait_rets_app, Hw, Hwr, app_nil_r; reflexivity |].
    intros Hb. specialize (Hout Hb). lia.
Qed.

Lemma pio_all_ok fuel t st count st' tr :
  kp_spi_txrx_pio E fuel t st = Some (count, st') -> wf_transfer t ->
  trace_of st st' tr -> all_waits_ok tr -> has_buffer t -> count = len t.
Proof.
  intros H Hwf Htr Hok Hb.
  destruct (pio_spec _ _ _ _ _ H Hwf)
    as (tr' & k & out & r & ubit & Ht & _ & -> & _ & _ & _ & _ & Hw & Hout).
  assert (tr' = tr).
  { unfold trace_of in *. rewrite Ht in Htr. apply app_inv_tail in Htr.
    rewrite <- (rev_involutive tr), <- (rev_involutive tr'). congruence. }
  subst tr'. destruct out; [| auto].
  unfold all_waits_ok in Hok. rewrite Hw in Hok.
  apply Forall_app in Hok. destruct Hok as [_ Hok]. inv Hok. discriminate.
Qed.

(** *** Termination *)

Lemma tx_loop_total N :
  live_within E N ->
  forall n tx p st, exists r st', tx_loop E N n tx p st = Some (r, st').
Proof.
  intros Hlive. induction n as [| n IH]; intros tx p st; simpl.
  - unfold ret. eauto.
  - unfold bind at 1.
    destruct (wait_total E N KP_SPI_REG_STATUS KP_SPI_REG_STATUS_TXS st Hlive)
      as (r & st1 & Hw).
    rewrite (bind_some _ _ _ _ _ Hw).
    destruct (r <? 0); [unfold ret; eauto |].
    unfold bind at 1, modify. apply IH.
Qed.

Lemma rx_loop_total N :
  live_within E N ->
  forall n rx p st, exists r st', rx_loop E N n rx p st = Some (r, st').
Proof.
  intros Hlive. induction n as [| n IH]; intros rx p st; simpl.
  - unfold ret. eauto.
  - unfold bind at 1, modify.
    destruct (wait_total E N KP_SPI_REG_STATUS KP_SPI_REG_STATUS_RXS
                (kp_spi_write_reg KP_SPI_REG_TXDATA 0 st) Hlive)
      as (r & st1 & Hw).
    rewrite (bind_some _ _ _ _ _ Hw).
    destruct (r <? 0); [unfold ret; eauto |].
    unfold bind at 1, lift.
    destruct (kp_spi_read_reg E KP_SPI_REG_RXDATA st1) as [v st2].
    unfold bind at 1, modify. apply IH.
Qed.

Lemma pio_total N t st :
  live_within E N ->
  exists count st', kp_spi_txrx_pio E N t st = Some (count, st').
Proof.
  intros Hlive. unfold kp_spi_txrx_pio.
  assert (Hl : exists po st1,
             match tx_buf t, rx_buf t with
             | Some tx, _ => tx_loop E N (Z.to_nat (len t)) tx 0
             | None, Some rx => rx_loop E N (Z.to_nat (len t)) rx 0
             | None, None => ret (0, false)
             end st = Some (po, st1)).
  { destruct (tx_buf t); [apply tx_loop_total; assumption |].
    destruct (rx_buf t); [apply rx_loop_total; assumption |].
    unfold ret. eauto. }
  destruct Hl as ([p' out] & st1 & Hl). rewrite (bind_some _ _ _ _ _ Hl).
  destruct out; [unfold ret; eauto |].
  destruct (wait_total E N KP_SPI_REG_STATUS KP_SPI_REG_STATUS_EOT st1 Hlive)
    as (r & st2 & Hw).
  rewrite (bind_some _ _ _ _ _ Hw). unfold ret. eauto.
Qed.

End Pio.

(** ** The message sequencer *)

Lemma fields_disjoint :
  disjoint_fields spi_en trm /\ disjoint_fields spi_en wl /\ disjoint_fields spi_en cs
  /\ disjoint_fields spi_en ffen /\ disjoint_fields trm wl /\ disjoint_fields trm cs
  /\ disjoint_fields trm ffen /\ disjoint_fields wl cs /\ disjoint_fields wl ffen
  /\ disjoint_fields cs ffen /\ disjoint_fields wl spi_en /\ disjoint_fields wl trm
  /\ disjoint_fields cs spi_en /\ disjoint_fields cs trm /\ disjoint_fields ffen spi_en
  /\ disjoint_fields ffen trm /\ disjoint_fields trm spi_en.
Proof. unfold disjoint_fields; simpl; lia. Qed.

Lemma get_set_cfg f g v r :
  field_ok f -> field_ok g -> disjoint_fields f g ->
  get_field f (set_field g v r) = get_field f r.
Proof.
  intros (? & ? & _) (? & ? & _) ?. apply get_set_other; assumption.
Qed.

Lemma transfer_config_keeps spidev t reg :
  0 <= transfer_config spidev t reg < 2 ^ 32
  /\ get_field spi_en (transfer_config spidev t reg) = get_field spi_en (u32 reg).
Proof.
  unfold transfer_config.
  pose proof (u32_range reg) as Hr.
  destruct fields_ok as (Hwl & Htrm & Hcs & _ & Hen & _).
  destruct fields_disjoint as (D1 & D2 & D3 & _).
  assert (Hs : forall f v r, field_ok f -> disjoint_fields spi_en f ->
                 0 <= r < 2 ^ 32 ->
                 0 <= set_field f v r < 2 ^ 32
                 /\ get_field spi_en (set_field f v r) = get_field spi_en r).
  { intros f v r Hf Hd Hrr. split; [apply set_field_range; assumption |].
    apply get_set_cfg; assumption. }
  destruct (negb (is_null (tx_buf t))); [| destruct (negb (is_null (rx_buf t)))].
  - destruct (Hs trm KP_SPI_REG_CONFIG_TRM_TX _ Htrm D1 Hr) as [R1 E1].
    destruct (Hs wl ((if negb (bits_per_word t =? 0) then bits_per_word t
                      else dev_bits_per_word spidev) - 1) _ Hwl D2 R1) as [R2 E2].
    destruct (Hs cs (dev_chip_select spidev) _ Hcs D3 R2) as [R3 E3].
    split; [exact R3 | congruence].
  - destruct (Hs trm KP_SPI_REG_CONFIG_TRM_RX _ Htrm D1 Hr) as [R1 E1].
    destruct (Hs wl ((if negb (bits_per_word t =? 0) then bits_per_word t
                      else dev_bits_per_word spidev) - 1) _ Hwl D2 R1) as [R2 E2].
    destruct (Hs cs (dev_chip_select spidev) _ Hcs D3 R2) as [R3 E3].
    split; [exact R3 | congruence].
  - destruct (Hs wl ((if negb (bits_per_word t =? 0) then bits_per_word t
                      else dev_bits_per_word spidev) - 1) _ Hwl D2 Hr) as [R2 E2].
    destruct (Hs cs (dev_chip_select spidev) _ Hcs D3 R2) as [R3 E3].
    split; [exact R3 | congruence].
Qed.

Lemma transfer_okb_buffers t :
  transfer_okb t = true ->
  is_null (tx_buf t) && is_null (rx_buf t) && negb (len t =? 0) = false
  /\ (len t <> 0 -> has_buffer t).
Proof.
  unfold transfer_okb, bad_speed_or_buffers, has_buffer. intros H.
  apply andb_prop in H. destruct H as [H _].
  apply Bool.negb_true_iff, Bool.orb_false_iff in H. destruct H as [_ H].
  destruct (Z.eqb_spec (len t) 0) as [Hz | Hnz]; simpl in *.
  - split; [apply Bool.andb_false_r | contradiction].
  - destruct (tx_buf t), (rx_buf t); simpl in *; try discriminate;
      (split; [reflexivity | intros _; first [left; discriminate | right; discriminate]]).
Qed.

Lemma validate_eq ts st :
  validate ts st =
  if forallb transfer_okb ts then Some (0, st)
  else Some (- EINVAL, log_event EvPrintk (log_event EvPrintk st)).
Proof.
  induction ts as [| t ts IH]; simpl; [reflexivity |].
  unfold transfer_okb at 1.
  destruct (bad_speed_or_buffers t); simpl; [reflexivity |].
  destruct (below_min_speed t); simpl; [reflexivity | exact IH].
Qed.

Section Sequencer.

Variable E : platform.

Lemma total_length_nonneg ts : Forall wf_transfer ts -> 0 <= total_length ts.
Proof.
  induction 1 as [| t ts Ht _ IH]; simpl; [lia |]. unfold wf_transfer in Ht. lia.
Qed.

Lemma do_transfers_spec fuel spidev :
  forall ts acc st s acc' st',
    do_transfers E fuel spidev ts acc st = Some ((s, acc'), st') ->
    Forall wf_transfer ts -> forallb transfer_okb ts = true ->
    cs_asserted st -> 0 <= acc < 2 ^ 32 ->
    exists tr short,
      trace_of st st' tr /\ cs_asserted st'
      /\ Forall (fun v => get_field spi_en v = 1) (writes_to KP_SPI_REG_CONFIG tr)
      /\ ~ In EvFinalize tr
      /\ acc' = u32 (acc + short) /\ 0 <= short
      /\ ((s = 0 /\ short = total_length ts)
          \/ (s = - EIO /\ short < total_length ts))
      /\ (all_waits_ok tr -> s = 0).
Proof.
  induction ts as [| t ts IH]; intros acc st s acc' st' H Hwf Hok Hcs Hacc.
  - simpl in H. apply ret_inv in H. destruct H as [H ->]. inv H.
    exists [], 0. rewrite Z.add_0_r, u32_small by assumption.
    split; [reflexivity |]. split; [assumption |]. split; [constructor |].
    split; [simpl; tauto |]. split; [reflexivity |]. split; [lia |].
    split; [left; split; reflexivity | reflexivity].
  - simpl in H. simpl in Hok. apply andb_prop in Hok. destruct Hok as [Hokt Hok].
    destruct (transfer_okb_buffers _ Hokt) as [Hnull Hbuf]. rewrite Hnull in H.
    inversion Hwf as [| ? ? Hwft Hwfs]; subst.
    pose proof (total_length_nonneg _ Hwfs) as Htot.
    mstep H ba st1 Hbody. destruct ba as [brk acc1].
    assert (Hb : exists tr1 c,
               trace_of st st1 tr1 /\ cs_asserted st1
               /\ Forall (fun v => get_field spi_en v = 1)
                    (writes_to KP_SPI_REG_CONFIG tr1)
               /\ ~ In EvFinalize tr1
               /\ acc1 = u32 (acc + c) /\ 0 <= c <= len t
               /\ brk = negb (c =? len t)
               /\ (all_waits_ok tr1 -> brk = false)).
    { destruct (Z.eqb_spec (len t) 0) as [Hz | Hnz]; simpl in Hbody.
      - apply ret_inv in Hbody. destruct Hbody as [Hba ->]. inv Hba.
        exists [], 0. rewrite Z.add_0_r, u32_small, Hz by assumption.
        split; [reflexivity |]. split; [assumption |]. split; [constructor |].
        split; [simpl; tauto |]. split; [reflexivity |]. split; [lia |].
        split; reflexivity.
      - mstep Hbody reg st2 Hrd. apply lift_inv in Hrd.
        destruct Hcs as [Hrange Hen].
        rewrite read_reg_cached in Hrd by lia. inv Hrd.
        mstep Hbody u st3 Hu. apply modify_inv in Hu. subst st3.
        mstep Hbody u' st4 Hu. apply modify_inv in Hu. subst st4.
        mstep Hbody count st5 Hpio.
        apply ret_inv in Hbody. destruct Hbody as [Hba ->]. inv Hba.
        destruct (pio_spec _ _ _ _ _ _ Hpio Hwft)
          as (trp & k & out & r & ubit & Htp & Hcp & -> & Hk & Hwo & Hfp & _ & Hwr & Hout).
        set (cfg := transfer_config spidev t (u64 (conf_cache (ctl st)))) in *.
        destruct (transfer_config_keeps spidev t (u64 (conf_cache (ctl st)))) as [Hcr Hce].
        fold cfg in Hcr, Hce.
        rewrite u64_small, u32_small, Hen in Hce by lia.
        exists (EvCached KP_SPI_REG_CONFIG (u64 (conf_cache (ctl st)))
                :: EvWriteq KP_SPI_REG_CONFIG cfg :: trp), (Z.of_nat k).
        split; [| split; [| split; [| split; [| split; [| split; [| split]]]]]].
        + unfold trace_of in *. rewrite Htp. simpl. rewrite <- !app_assoc. reflexivity.
        + unfold cs_asserted. rewrite Hcp. simpl. rewrite s64_small by lia. auto.
        + simpl. rewrite Hwo by discriminate. repeat constructor. exact Hce.
        + simpl. intros [Hx | [Hx | Hx]]; [discriminate | discriminate | auto].
        + reflexivity.
        + lia.
        + reflexivity.
        + intros Hall.
          assert (Hpok : all_waits_ok trp) by exact Hall.
          rewrite (pio_all_ok _ _ _ _ _ _ _ Hpio Hwft Htp Hpok (Hbuf Hnz)).
          rewrite Z.eqb_refl. reflexivity. }
    destruct Hb as (tr1 & c & Ht1 & Hcs1 & Hen1 & Hf1 & -> & Hc & -> & Hok1).
    destruct (Z.eqb_spec c (len t)) as [Hfull | Hshort]; simpl in H.
    + mstep H u st2 Hd.
      assert (Hdl : exists trd, trace_of st1 st2 trd /\ ctl st2 = ctl st1
                                /\ writes_to KP_SPI_REG_CONFIG trd = []
                                /\ wait_rets trd = [] /\ ~ In EvFinalize trd).
      { destruct (negb (delay_usecs t =? 0)).
        - apply emit_inv in Hd. subst st2. exists [EvUdelay (delay_usecs t)].
          repeat split; auto. intros [Hx | []]. discriminate.
        - apply ret_inv in Hd. destruct Hd as [_ ->]. exists [].
          repeat split; auto. }
      destruct Hdl as (trd & Htd & Hcd & Hwd & Hrd & Hfd).
      assert (Hcs2 : cs_asserted st2) by (unfold cs_asserted in *; rewrite Hcd; exact Hcs1).
      destruct (IH _ _ _ _ _ H Hwfs Hok Hcs2 (u32_range _))
        as (tr2 & short & Ht2 & Hcs' & Hen2 & Hf2 & -> & Hs0 & Hres & Hok2).
      exists (tr1 ++ trd ++ tr2), (c + short).
      split; [eapply trace_of_trans; [exact Ht1 | eapply trace_of_trans; eassumption] |].
      split; [assumption |].
      split; [rewrite !writes_to_app, Hwd; simpl; apply Forall_app; split; assumption |].
      split; [intros Hin; apply in_app_or in Hin; destruct Hin as [Hin | Hin];
              [auto | apply in_app_or in Hin; tauto] |].
      split; [rewrite u32_add_l; f_equal; lia |].
      split; [lia |].
      split; [simpl; destruct Hres as [[-> ->] | [-> Hlt]]; [left | right]; split; lia || reflexivity |].
      intros Hall. apply all_waits_ok_app in Hall. destruct Hall as [_ Hall].
      apply all_waits_ok_app in Hall. destruct Hall as [_ Hall]. auto.
    + apply ret_inv in H. destruct H as [H ->]. inv H.
      exists tr1, c.
      split; [assumption |]. split; [assumption |]. split; [assumption |].
      split; [assumption |]. split; [reflexivity |]. split; [lia |].
      split; [right; split; [reflexivity | simpl; lia] |].
      intros Hall. specialize (Hok1 Hall).
      destruct (Z.eqb_spec c (len t)); [contradiction | discriminate].
Qed.

Lemma do_transfers_total N spidev :
  live_within E N ->
  forall ts acc st, exists r st', do_transfers E N spidev ts acc st = Some (r, st').
Proof.
  intros Hlive. induction ts as [| t ts IH]; intros acc st; simpl.
  - unfold ret. eauto.
  - destruct (is_null (tx_buf t) && is_null (rx_buf t) && negb (len t =? 0));
      [unfold ret; eauto |].
    assert (Hb : exists ba st1,
               (if negb (len t =? 0)
                then
                  let* reg := lift (kp_spi_read_reg E KP_SPI_REG_CONFIG) in
                  modify (set_word_len (transfer_word_len spidev t));;
                  modify (kp_spi_write_reg KP_SPI_REG_CONFIG (transfer_config spidev t reg));;
                  (let* count := kp_spi_txrx_pio E N t in
                   ret (negb (count =? len t), u32 (acc + count)))
                else ret (false, acc)) st = Some (ba, st1)).
    { destruct (negb (len t =? 0)); [| unfold ret; eauto].
      rewrite bind_lift, !bind_modify.
      match goal with
      | |- context [kp_spi_txrx_pio E N t] =>
          match goal with
          | |- exists _ _, bind _ _ ?s = _ =>
              destruct (pio_total E N t s Hlive) as (count & st2 & Hp)
          end
      end.
      rewrite (bind_some _ _ _ _ _ Hp). unfold ret. eauto. }
    destruct Hb as ([brk acc1] & st1 & Hb). rewrite (bind_some _ _ _ _ _ Hb).
    destruct brk; [unfold ret; eauto |].
    destruct (negb (delay_usecs t =? 0)); [rewrite bind_emit | rewrite bind_ret];
      apply IH.
Qed.

(** Once the local status is an error the rest of the list is not looked at. *)
Lemma do_transfers_stop fuel spidev :
  forall pre post acc st s acc' st',
    do_transfers E fuel spidev pre acc st = Some ((s, acc'), st') -> s <> 0 ->
    do_transfers E fuel spidev (pre ++ post) acc st = Some ((s, acc'), st').
Proof.
  induction pre as [| t pre IH]; intros post acc st s acc' st' H Hs.
  - simpl in H. apply ret_inv in H. destruct H as [H _]. inv H. contradiction.
  - simpl in *.
    destruct (is_null (tx_buf t) && is_null (rx_buf t) && negb (len t =? 0));
      [exact H |].
    unfold bind at 1. unfold bind at 1 in H.
    match type of H with
    | match ?c with _ => _ end = _ => destruct c as [[[brk acc1] st1] |]; [| discriminate]
    end.
    destruct brk; [exact H |].
    unfold bind at 1. unfold bind at 1 in H.
    match type of H with
    | match ?c with _ => _ end = _ => destruct c as [[u st2] |]; [| discriminate]
    end.
    apply IH; assumption.
Qed.

(** A transfer that comes back short ends the loop on the spot. *)
Lemma do_transfers_short fuel spidev t rest acc st count st' :
  len t <> 0 -> has_buffer t ->
  kp_spi_txrx_pio E fuel t
    (kp_spi_write_reg KP_SPI_REG_CONFIG
       (transfer_config spidev t (fst (kp_spi_read_reg E KP_SPI_REG_CONFIG st)))
       (set_word_len (transfer_word_len spidev t)
          (snd (kp_spi_read_reg E KP_SPI_REG_CONFIG st)))) = Some (count, st') ->
  count <> len t ->
  do_transfers E fuel spidev (t :: rest) acc st = Some ((- EIO, u32 (acc + count)), st').
Proof.
  intros Hlen Hbuf Hpio Hshort. simpl.
  assert (Hn : is_null (tx_buf t) && is_null (rx_buf t) = false).
  { destruct Hbuf as [Hb | Hb]; destruct (tx_buf t), (rx_buf t); simpl; congruence. }
  rewrite Hn. simpl.
  destruct (Z.eqb_spec (len t) 0); [contradiction |]. simpl.
  unfold bind at 1. unfold bind at 1, lift.
  destruct (kp_spi_read_reg E KP_SPI_REG_CONFIG st) as [reg st1]. simpl in Hpio.
  unfold bind at 1, modify. unfold bind at 1. unfold bind at 1.
  rewrite Hpio. unfold ret.
  destruct (Z.eqb_spec count (len t)); [contradiction | reflexivity].
Qed.

Lemma message_body_invalid fuel spidev m st :
  passes_validation m = false ->
  exists st',
    message_body E fuel spidev m st = Some ((- EINVAL, 0, set_result m 0), st')
    /\ (trace_of st st' [] \/ trace_of st st' [EvPrintk; EvPrintk])
    /\ ctl st' = ctl st /\ mem st' = mem st.
Proof.
  unfold passes_validation, message_body. intros H.
  destruct (transfers m) as [| t ts]; [exists st; unfold ret; auto using trace_of_refl |].
  unfold bind. rewrite validate_eq, H. simpl.
  eexists. split; [reflexivity |]. split; [right; reflexivity | auto].
Qed.

Lemma spi_en_set x : get_field spi_en (set_field spi_en 1 x) = 1.
Proof. rewrite get_set_same by (simpl; lia). reflexivity. Qed.

Lemma spi_en_clear x : get_field spi_en (set_field spi_en 0 x) = 0.
Proof. rewrite get_set_same by (simpl; lia). reflexivity. Qed.

Lemma message_body_valid fuel spidev m st res st' :
  passes_validation m = true -> Forall wf_transfer (transfers m) ->
  message_body E fuel spidev m st = Some (res, st') ->
  exists e0 reg r tw,
    reg_read e0 = Some (KP_SPI_REG_CONFIG, reg)
    /\ wait_rets tw = [(KP_SPI_REG_STATUS, KP_SPI_REG_STATUS_EOT, r)]
    /\ (forall i, writes_to i tw = []) /\ ~ In EvFinalize tw
    /\ ((r = - ETIMEDOUT /\ res = (0, 0, set_result m 0)
         /\ trace_of st st'
              (e0 :: EvWriteq KP_SPI_REG_CONFIG (set_field spi_en 1 (u32 reg))
                  :: tw ++ [EvPrintk; EvFinalize]))
        \/ (r = 0 /\ exists trd s short c,
              res = (0, s, set_result m (u32 short))
              /\ trace_of st st'
                   (e0 :: EvWriteq KP_SPI_REG_CONFIG (set_field spi_en 1 (u32 reg))
                       :: tw ++ trd
                       ++ [EvCached KP_SPI_REG_CONFIG c;
                           EvWriteq KP_SPI_REG_CONFIG (set_field spi_en 0 (u32 c));
                           EvFinalize])
              /\ Forall (fun v => get_field spi_en v = 1)
                   (writes_to KP_SPI_REG_CONFIG trd)
              /\ ~ In EvFinalize trd /\ 0 <= short
              /\ ((s = 0 /\ short = total_length (transfers m))
                  \/ (s = - EIO /\ short < total_length (transfers m)))
              /\ (all_waits_ok trd -> s = 0))).
Proof.
  unfold passes_validation, message_body. intros Hv Hwf H.
  destruct (transfers m) as [| t0 ts0] eqn:Hts; [discriminate |].
  rewrite <- Hts in *. clear Hts t0 ts0.
  mstep H v st0 Hval. rewrite validate_eq, Hv in Hval. inv Hval. simpl in H.
  mstep H reg st1 Hrd. apply lift_inv in Hrd.
  destruct (read_reg_spec _ _ _ _ _ Hrd) as (e0 & -> & He0 & _).
  mstep H u st2 Hu. apply modify_inv in Hu. subst st2.
  set (v1 := set_field spi_en 1 (u32 reg)) in *.
  assert (Hv1 : 0 <= v1 < 2 ^ 32).
  { apply set_field_range; [apply fields_ok | apply u32_range]. }
  mstep H r st3 Hw. apply wait_quiet in Hw.
  destruct Hw as (tw & Htw & Hcw & _ & Hr & Hww & Hwr & _ & _ & Hfw).
  exists e0, reg, r, tw.
  split; [exact He0 |]. split; [exact Hwr |]. split; [exact Hww |]. split; [exact Hfw |].
  rewrite (ret_neg _ Hr) in H. destruct Hr as [-> | ->]; simpl in H.
  - right. split; [reflexivity |].
    mstep H sa st4 Hdo. destruct sa as [s alen].
    assert (Hcs : cs_asserted st3).
    { unfold cs_asserted. rewrite Hcw. simpl. rewrite s64_small by lia.
      split; [assumption | apply spi_en_set]. }
    destruct (do_transfers_spec _ _ _ _ _ _ _ _ Hdo Hwf Hv Hcs ltac:(lia))
      as (trd & short & Htd & Hcs' & Hen & Hfd & -> & Hs0 & Hres & Hok).
    mstep H reg2 st5 Hrd2. apply lift_inv in Hrd2.
    destruct Hcs' as [Hrange _].
    rewrite read_reg_cached in Hrd2 by lia. inv Hrd2.
    mstep H u' st6 Hu. apply modify_inv in Hu. subst st6.
    mstep H u'' st7 Hu. apply emit_inv in Hu. subst st7.
    apply ret_inv in H. destruct H as [-> ->].
    exists trd, s, short, (u64 (conf_cache (ctl st4))).
    split; [reflexivity |].
    split; [| repeat (split; [assumption |]); assumption].
    unfold trace_of in *. simpl. rewrite Htd, Htw. simpl.
    rewrite !rev_app_distr. simpl. rewrite <- !app_assoc. reflexivity.
  - left. split; [reflexivity |].
    mstep H u' st4 Hu. apply emit_inv in Hu. subst st4.
    mstep H u'' st5 Hu. apply emit_inv in Hu. subst st5.
    apply ret_inv in H. destruct H as [-> ->].
    split; [reflexivity |].
    unfold trace_of in *. simpl. rewrite Htw. simpl.
    rewrite !rev_app_distr. simpl. rewrite <- !app_assoc. reflexivity.
Qed.

Lemma message_body_total N spidev m st :
  live_within E N ->
  exists res st', message_body E N spidev m st = Some (res, st').
Proof.
  intros Hlive. unfold message_body.
  destruct (transfers m) as [| t0 ts0] eqn:Hts; [unfold ret; eauto |].
  rewrite <- Hts. clear Hts t0 ts0.
  unfold bind at 1. rewrite validate_eq.
  destruct (forallb transfer_okb (transfers m)); simpl; [| unfold ret; eauto].
  unfold bind at 1, lift.
  destruct (kp_spi_read_reg E KP_SPI_REG_CONFIG st) as [reg st1].
  unfold bind at 1, modify.
  match goal with
  | |- context [kp_spi_wait_for_reg_bit E N ?i ?b] =>
      destruct (wait_total E N i b
                  (kp_spi_write_reg KP_SPI_REG_CONFIG (set_field spi_en 1 (u32 reg)) st1)
                  Hlive) as (r & st2 & Hw)
  end.
  rewrite (bind_some _ _ _ _ _ Hw).
  destruct (r <? 0); [unfold bind, emit, modify, ret; eauto |].
  destruct (do_transfers_total N spidev Hlive (transfers m) 0 st2) as ([s alen] & st3 & Hd).
  rewrite (bind_some _ _ _ _ _ Hd).
  unfold bind at 1, lift.
  destruct (kp_spi_read_reg E KP_SPI_REG_CONFIG st3) as [reg2 st4].
  unfold bind, emit, modify, ret. eauto.
Qed.

End Sequencer.

(** ** The bit wait: claim C6 *)

(** C6.  kp_spi_wait_for_reg_bit returns 0 or -ETIMEDOUT and nothing else,
    and leaves the driver's state alone.  It returns -ETIMEDOUT only when
    the polls end with a jiffies sample past the deadline - the first such
    sample - followed by exactly one more read of the register, which still
    shows the bit clear.  Whenever any read of the wait, the re-check after
    the deadline included, shows the bit set, the result is 0.  Whenever
    the clock is live the wait returns. *)
Theorem wait_for_reg_bit_outcome (E : platform) (N : nat) (idx bit : Z) (st : machine) :
  live_within E N ->
  let deadline := u64 (u64 (jiffies_of E (log st)) + msecs_to_jiffies E 1000) in
  exists ret st' polls,
    kp_spi_wait_for_reg_bit E N idx bit st = Some (ret, st')
    /\ trace st st' =
       EvJiffies (u64 (jiffies_of E (log st))) :: polls ++ [EvWaitRet idx bit ret]
    /\ (ret = 0 \/ ret = - ETIMEDOUT)
    /\ (ret = - ETIMEDOUT ->
        exists pre j e2 v2,
          polls = pre ++ [EvJiffies j; e2]
          /\ before_deadline deadline pre
          /\ time_after j deadline = true
          /\ reg_read e2 = Some (idx, v2) /\ Z.land v2 bit = 0)
    /\ (forall e v, In e polls -> reg_read e = Some (idx, v) ->
                    Z.land v bit <> 0 -> ret = 0)
    /\ ctl st' = ctl st /\ mem st' = mem st.
Proof.
  intros Hlive deadline.
  destruct (wait_total E N idx bit st Hlive) as (ret & st' & Hrun).
  destruct (wait_spec _ _ _ _ _ _ _ Hrun) as (polls & Ht & Hp & Hc & Hm).
  exists ret, st', polls.
  split; [exact Hrun |]. split; [apply trace_of_trace; exact Ht |].
  split; [eapply polls_ret; exact Hp |].
  split; [| split; [| split; assumption]].
  - intros Hret.
    destruct (polls_timeout _ _ _ _ _ Hp) as (pre & j & e2 & v2 & Hpolls & Hta & He2 & Hv2 & Hb & _).
    + rewrite Hret. discriminate.
    + exists pre, j, e2, v2. auto.
  - intros e v Hin Hrd Hv. eapply polls_seen; eassumption.
Qed.

(** On the boundary device the bit comes up between the deadline check
    and the re-check: the wait succeeds. *)
Lemma wait_for_reg_bit_outcome_witness :
  live_within boundary_device 4
  /\ exists ret st' polls,
       kp_spi_wait_for_reg_bit boundary_device 4 KP_SPI_REG_STATUS
         KP_SPI_REG_STATUS_EOT (boot idle_state (fun _ => 0)) = Some (ret, st')
       /\ trace (boot idle_state (fun _ => 0)) st' =
          EvJiffies 0 :: polls ++ [EvWaitRet KP_SPI_REG_STATUS KP_SPI_REG_STATUS_EOT ret]
       /\ ret = 0.
Proof.
  split; [apply scripted_live |].
  destruct (wait_for_reg_bit_outcome boundary_device 4 KP_SPI_REG_STATUS
              KP_SPI_REG_STATUS_EOT (boot idle_state (fun _ => 0))
              (scripted_live _ _))
    as (ret & st' & polls & Hrun & Htr & _).
  exists ret, st', polls. split; [exact Hrun |]. split; [exact Htr |].
  assert (Hrun' := Hrun). vm_compute in Hrun'. inv Hrun'. reflexivity.
Defined.

Example boundary_recheck_succeeds :
  option_map (fun r => (fst r, rev (log (snd r))))
    (kp_spi_wait_for_reg_bit boundary_device 4 KP_SPI_REG_STATUS
       KP_SPI_REG_STATUS_EOT (boot idle_state (fun _ => 0)))
  = Some (0, [EvJiffies 0;
              EvReadq 1 0; EvJiffies 0; EvRelax;
              EvReadq 1 0; EvJiffies 1; EvRelax;
              EvReadq 1 0; EvJiffies 2; EvRelax;
              EvReadq 1 0; EvJiffies 3; EvReadq 1 7;
              EvWaitRet 1 4 0]).
Proof. vm_compute. reflexivity. Qed.

Example stuck_wait_times_out :
  option_map (fun r => (fst r, rev (log (snd r))))
    (kp_spi_wait_for_reg_bit stuck_device 4 KP_SPI_REG_STATUS
       KP_SPI_REG_STATUS_EOT (boot idle_state (fun _ => 0)))
  = Some (- ETIMEDOUT,
          [EvJiffies 0;
           EvReadq 1 0; EvJiffies 0; EvRelax;
           EvReadq 1 0; EvJiffies 1; EvRelax;
           EvReadq 1 0; EvJiffies 2; EvRelax;
           EvReadq 1 0; EvJiffies 3; EvReadq 1 0;
           EvWaitRet 1 4 (-110)]).
Proof. vm_compute. reflexivity. Qed.

(** ** The register cache *)

(** The sentinel is in the cache only inside kp_spi_setup, between the
    allocation and the Config write that ends it, where nothing reads
    Config; a read there would go to the bus, and a second one again. *)
Lemma uncached_config_reads_hit_bus :
  let st := boot (new_controller_state kp0 new_device) (fun _ => 0) in
  let r1 := kp_spi_read_reg counting_device KP_SPI_REG_CONFIG st in
  let r2 := kp_spi_read_reg counting_device KP_SPI_REG_CONFIG (snd r1) in
  conf_cache (ctl st) = -1
  /\ fst r1 = 0 /\ fst r2 = 1
  /\ filter is_bus (trace (snd r1) (snd r2)) = [EvReadq KP_SPI_REG_CONFIG 1].
Proof. vm_compute. repeat split; reflexivity. Qed.

(** With a populated cache two successive reads of Config return the
    same value, the cached one, and neither of them accesses the bus. *)
Lemma cached_config_read_twice (E : platform) (st : machine) :
  0 <= conf_cache (ctl st) ->
  let r1 := kp_spi_read_reg E KP_SPI_REG_CONFIG st in
  let r2 := kp_spi_read_reg E KP_SPI_REG_CONFIG (snd r1) in
  fst r1 = fst r2
  /\ fst r1 = u64 (conf_cache (ctl st))
  /\ filter is_bus (trace (snd r1) (snd r2)) = []
  /\ filter is_bus (trace st (snd r2)) = []
  /\ ctl (snd r2) = ctl st.
Proof.
  intros Hc. cbv zeta.
  rewrite (read_reg_cached E st Hc). cbn [fst snd].
  rewrite (read_reg_cached E (log_event _ st) Hc). cbn [fst snd].
  repeat split.
  - rewrite (trace_of_trace _ _ [EvCached KP_SPI_REG_CONFIG (u64 (conf_cache (ctl st)))]);
      reflexivity.
  - rewrite (trace_of_trace _ _ [EvCached KP_SPI_REG_CONFIG (u64 (conf_cache (ctl st)));
                                 EvCached KP_SPI_REG_CONFIG (u64 (conf_cache (ctl st)))]);
      reflexivity.
Qed.

Lemma cached_config_read_twice_witness :
  0 <= conf_cache (ctl (boot idle_state (fun _ => 0)))
  /\ fst (kp_spi_read_reg counting_device KP_SPI_REG_CONFIG (boot idle_state (fun _ => 0)))
     = fst (kp_spi_read_reg counting_device KP_SPI_REG_CONFIG
              (snd (kp_spi_read_reg counting_device KP_SPI_REG_CONFIG
                      (boot idle_state (fun _ => 0))))).
Proof.
  split; [simpl; lia |].
  apply (cached_config_read_twice counting_device (boot idle_state (fun _ => 0))).
  simpl. lia.
Defined.

(** Every Config write of a u32 through the access layer populates the
    cache, so after kp_spi_setup or any sequencer write the cache is valid. *)
Lemma write_reg_populates_cache val st :
  0 <= val < 2 ^ 63 ->
  conf_cache (ctl (kp_spi_write_reg KP_SPI_REG_CONFIG val st)) = val.
Proof. intros H. simpl. apply s64_small. exact H. Qed.

(** ** Device setup: the first call *)

(** kp_spi_setup never assigns the transmission-enable bit (dpe); it
    assigns the transfer mode (trm).  Where the automatic variable holds
    8 on entry, the word written is 0x4078, with the bit set. *)
Lemma setup_leaves_dpe_alone :
  kp_spi_setup kp0 true 8 new_device (fun _ => 0) []
  = (0,
     {| dev_chip_select := 1; dev_bits_per_word := 8;
        controller_state :=
          Some {| base := 0; phys := 0; chip_select := 1; word_len := 8;
                  conf_cache := 0x4078 |} |},
     [EvWriteq KP_SPI_REG_CONFIG 0x4078])
  /\ get_field dpe 0x4078 = 1.
Proof. vm_compute. split; reflexivity. Qed.

(** What the first call does assign: kp_spi_setup builds the session
    state with the sentinel -1 in the cache and writes, through the access
    layer, one Config word in which SPI-enable and FIFO-enable are clear,
    the transfer mode is 0, the word-length field is the device's word
    length minus one and the chip-select field is the device's chip-select
    index. *)
Lemma setup_first_call (kpspi : kp_spi) (sc0 : Z) (spidev : spi_device)
    (m : Z -> Z) (l : list event) :
  controller_state spidev = None ->
  1 <= dev_bits_per_word spidev <= 32 ->
  0 <= dev_chip_select spidev < 16 ->
  let v := setup_config spidev sc0 in
  let fresh := new_controller_state kpspi spidev in
  kp_spi_setup kpspi true sc0 spidev m l
  = (0,
     {| dev_chip_select := dev_chip_select spidev;
        dev_bits_per_word := dev_bits_per_word spidev;
        controller_state :=
          Some (ctl (kp_spi_write_reg KP_SPI_REG_CONFIG v
                       {| ctl := fresh; mem := m; log := l |})) |},
     EvWriteq KP_SPI_REG_CONFIG v :: l)
  /\ conf_cache fresh = -1
  /\ get_field spi_en v = 0 /\ get_field ffen v = 0 /\ get_field trm v = 0
  /\ get_field wl v = dev_bits_per_word spidev - 1
  /\ get_field cs v = dev_chip_select spidev.
Proof.
  intros Hnone Hbpw Hcs v fresh.
  destruct fields_ok as (Hwl & Htrm & Hcsf & Hffen & Hen & _).
  destruct fields_disjoint
    as (D1 & D2 & D3 & D4 & D5 & D6 & D7 & D8 & D9 & D10 & D11 & D12 & D13 & D14 & D15 & D16 & D17).
  split; [unfold kp_spi_setup; rewrite Hnone; reflexivity |].
  split; [reflexivity |].
  subst v. unfold setup_config.
  split; [| split; [| split; [| split]]].
  - rewrite !get_set_cfg by assumption. apply spi_en_clear.
  - rewrite get_set_same by (simpl; lia). reflexivity.
  - rewrite get_set_cfg by assumption. rewrite get_set_same by (simpl; lia). reflexivity.
  - rewrite !get_set_cfg by assumption. rewrite get_set_same by (simpl; lia).
    simpl f_width. apply Z.mod_small. lia.
  - rewrite !get_set_cfg by assumption. rewrite get_set_same by (simpl; lia).
    simpl f_width. apply Z.mod_small. lia.
Qed.

Lemma setup_first_call_witness :
  controller_state new_device = None
  /\ get_field spi_en (setup_config new_device 8) = 0
  /\ get_field wl (setup_config new_device 8) = 7.
Proof.
  split; [reflexivity |].
  destruct (setup_first_call kp0 8 new_device (fun _ => 0) [])
    as (_ & _ & Hen & _ & _ & Hwl & _).
  - reflexivity.
  - simpl. lia.
  - simpl. lia.
  - split; [exact Hen | exact Hwl].
Defined.

(** ** Validation: claim C2 *)

Lemma transfer_okb_false t : transfer_okb t = false <-> invalid_transfer t.
Proof.
  unfold transfer_okb, bad_speed_or_buffers, below_min_speed, invalid_transfer,
    KP_SPI_CLK.
  change (Z.shiftr 48000000 15) with 1464.
  destruct (Z.ltb_spec 48000000 (speed_hz t));
    destruct (Z.eqb_spec (speed_hz t) 0);
    destruct (Z.ltb_spec (speed_hz t) 1464);
    destruct (Z.eqb_spec (len t) 0);
    destruct (tx_buf t), (rx_buf t); simpl;
    (split; [intros Hx; try discriminate;
               first [left; lia | right; left; lia | right; right; auto] |
             intros [Hx | [[Hx1 Hx2] | [Hx1 [Hx2 Hx3]]]];
               try reflexivity; try lia; try discriminate]).
Qed.

Lemma passes_validation_false m : passes_validation m = false <-> invalid_message m.
Proof.
  unfold passes_validation, invalid_message.
  assert (Hf : forall ts, forallb transfer_okb ts = false <-> Exists invalid_transfer ts).
  { induction ts as [| t ts IH]; simpl.
    - split; [discriminate | intros H; inversion H].
    - rewrite Bool.andb_false_iff, Exists_cons, IH, transfer_okb_false. reflexivity. }
  destruct (transfers m) as [| t ts].
  - split; [auto | reflexivity].
  - rewrite Hf. split; [auto | intros [H | H]; [discriminate | exact H]].
Qed.

Lemma passes_validation_true m : passes_validation m = true <-> ~ invalid_message m.
Proof.
  rewrite <- passes_validation_false. destruct (passes_validation m); split; congruence.
Qed.

Lemma message_body_ret E fuel spidev m st r s m' st' :
  passes_validation m = true ->
  message_body E fuel spidev m st = Some ((r, s, m'), st') ->
  r = 0 /\ status m' = 0 /\ transfers m' = transfers m.
Proof.
  unfold passes_validation, message_body. intros Hv H.
  destruct (transfers m) as [| t0 ts0] eqn:Hts; [discriminate |].
  rewrite <- Hts in *. clear Hts t0 ts0.
  mstep H v st0 Hval. rewrite validate_eq, Hv in Hval. inv Hval. simpl in H.
  mstep H reg st1 Hrd. mstep H u st2 Hu. mstep H r0 st3 Hw.
  destruct (r0 <? 0).
  - mstep H u1 st4 Hu1. mstep H u2 st5 Hu2. apply ret_inv in H.
    destruct H as [H _]. inv H. auto.
  - mstep H sa st4 Hdo. destruct sa as [s0 alen].
    mstep H reg2 st5 Hrd2. mstep H u1 st6 Hu1. mstep H u2 st7 Hu2.
    apply ret_inv in H. destruct H as [H _]. inv H. auto.
Qed.

Lemma transfer_one_message_inv E fuel spidev m st r m' st' :
  kp_spi_transfer_one_message E fuel spidev m st = Some ((r, m'), st') ->
  exists s, message_body E fuel spidev m st = Some ((r, s, m'), st').
Proof.
  unfold kp_spi_transfer_one_message. intros H.
  mstep H res st1 Hb. destruct res as [[r0 s0] m0].
  apply ret_inv in H. destruct H as [H ->]. inv H. eauto.
Qed.

Lemma transfer_one_message_of_body E fuel spidev m st r s m' st' :
  message_body E fuel spidev m st = Some ((r, s, m'), st') ->
  kp_spi_transfer_one_message E fuel spidev m st = Some ((r, m'), st').
Proof.
  intros H. unfold kp_spi_transfer_one_message.
  rewrite (bind_some _ _ _ _ _ H). reflexivity.
Qed.

(** The bound of the claim and the bound of the code differ at one speed:
    1464 Hz lies below 48,000,000/32768 Hz and is not below 1464 Hz. *)
Lemma claimed_invalid_iff t :
  claimed_invalid_transfer t <-> invalid_transfer t \/ speed_hz t = 1464.
Proof.
  unfold claimed_invalid_transfer, invalid_transfer. split.
  - intros [H | [[H1 H2] | H]]; [auto | | auto].
    destruct (Z.eq_dec (speed_hz t) 1464); [auto | left; right; left; lia].
  - intros [[H | [[H1 H2] | H]] | H]; [auto | right; left; lia | auto |].
    right. left. lia.
Qed.

(** C2, as stated, fails at 1464 Hz: the speed is non-zero and below
    48,000,000/32768 = 1464.84... Hz, so the claim has the message
    rejected; the code compares with KP_SPI_CLK >> 15 = 1464, accepts it
    and carries it out, writing Config and TX-Data and returning 0. *)
Lemma accepts_1464_hz :
  claimed_invalid_message slow_message
  /\ exists m' st',
       kp_spi_transfer_one_message (ready_device []) 4 board_device slow_message
         (boot idle_state (fun a => a))
       = Some ((0, m'), st')
       /\ 0 <> - EINVAL
       /\ actual_length m' = 2
       /\ writes_to KP_SPI_REG_TXDATA (trace (boot idle_state (fun a => a)) st')
          = [100; 101].
Proof.
  split.
  - right. apply Exists_cons_hd. right. left. simpl. lia.
  - eexists. eexists. split; [vm_compute; reflexivity |].
    split; [discriminate |]. split; vm_compute; reflexivity.
Qed.

(** C2, amended.  kp_spi_transfer_one_message returns -EINVAL exactly
    for the messages that have no transfer, or a transfer with a speed
    above 48,000,000 Hz, with a non-zero speed below 1464 Hz (the integer
    part of 48,000,000/32768), or with a non-zero length and neither
    buffer.  Such a message is rejected whatever the fuel, before any bus
    access: the run consists of at most two diagnostics, no register is
    read or written, and the session state and memory are untouched.
    Every other message is carried out and returns 0 once the clock is
    live. *)
Theorem rejects_exactly_invalid_messages (E : platform) (fuel : nat)
    (spidev : spi_device) (m : spi_message) (st : machine) :
  (invalid_message m ->
     exists st',
       kp_spi_transfer_one_message E fuel spidev m st
       = Some ((- EINVAL, set_result m 0), st')
       /\ filter is_bus (trace st st') = []
       /\ ctl st' = ctl st /\ mem st' = mem st)
  /\ (forall r m' st',
        kp_spi_transfer_one_message E fuel spidev m st = Some ((r, m'), st') ->
        (r = - EINVAL <-> invalid_message m))
  /\ (~ invalid_message m -> live_within E fuel ->
      exists m' st',
        kp_spi_transfer_one_message E fuel spidev m st = Some ((0, m'), st')).
Proof.
  split; [| split].
  - intros Hinv. apply passes_validation_false in Hinv.
    destruct (message_body_invalid E fuel spidev m st Hinv) as (st' & Hb & Ht & Hc & Hm).
    exists st'. split; [eapply transfer_one_message_of_body; exact Hb |].
    split; [| split; assumption].
    destruct Ht as [Ht | Ht]; rewrite (trace_of_trace _ _ _ Ht); reflexivity.
  - intros r m' st' H.
    destruct (transfer_one_message_inv _ _ _ _ _ _ _ _ H) as (s & Hb).
    destruct (passes_validation m) eqn:Hv.
    + destruct (message_body_ret _ _ _ _ _ _ _ _ _ Hv Hb) as (-> & _).
      apply passes_validation_true in Hv. split; [discriminate | contradiction].
    + destruct (message_body_invalid E fuel spidev m st Hv) as (st1 & Hb1 & _).
      rewrite Hb1 in Hb. inv Hb. apply passes_validation_false in Hv.
      split; auto.
  - intros Hok Hlive. apply passes_validation_true in Hok.
    destruct (message_body_total E fuel spidev m st Hlive) as ([[r s] m'] & st' & Hb).
    destruct (message_body_ret _ _ _ _ _ _ _ _ _ Hok Hb) as (-> & _).
    exists m', st'. eapply transfer_one_message_of_body. exact Hb.
Qed.

(** A transfer asking for 50 MHz: rejected, nothing on the bus. *)
Lemma rejects_exactly_invalid_messages_witness :
  invalid_message
    (msg [xfer (Some 1) None 4;
          {| tx_buf := Some 1; rx_buf := None; len := 4; bits_per_word := 0;
             delay_usecs := 0; speed_hz := 50000000 |}])
  /\ exists st',
       kp_spi_transfer_one_message (ready_device []) 0 board_device
         (msg [xfer (Some 1) None 4;
               {| tx_buf := Some 1; rx_buf := None; len := 4; bits_per_word := 0;
                  delay_usecs := 0; speed_hz := 50000000 |}])
         (boot idle_state (fun a => a))
       = Some ((- EINVAL,
                msg [xfer (Some 1) None 4;
                     {| tx_buf := Some 1; rx_buf := None; len := 4; bits_per_word := 0;
                        delay_usecs := 0; speed_hz := 50000000 |}]), st')
       /\ filter is_bus (trace (boot idle_state (fun a => a)) st') = [].
Proof.
  assert (Hinv : invalid_message
                   (msg [xfer (Some 1) None 4;
                         {| tx_buf := Some 1; rx_buf := None; len := 4;
                            bits_per_word := 0; delay_usecs := 0;
                            speed_hz := 50000000 |}])).
  { right. apply Exists_cons_tl. apply Exists_cons_hd. left. simpl. lia. }
  split; [exact Hinv |].
  destruct (rejects_exactly_invalid_messages (ready_device []) 0 board_device
              (msg [xfer (Some 1) None 4;
                    {| tx_buf := Some 1; rx_buf := None; len := 4; bits_per_word := 0;
                       delay_usecs := 0; speed_hz := 50000000 |}])
              (boot idle_state (fun a => a))) as (Hrej & _).
  destruct (Hrej Hinv) as (st' & Hrun & Hbus & _).
  exists st'. split; [exact Hrun | exact Hbus].
Defined.

(** ** A device that is always ready *)

Section Ready.

Variable E : platform.
Hypothesis ready : status_always E 7.

Lemma wait_ready fuel bit st :
  In bit [KP_SPI_REG_STATUS_RXS; KP_SPI_REG_STATUS_TXS; KP_SPI_REG_STATUS_EOT] ->
  exists st' t,
    kp_spi_wait_for_reg_bit E (S fuel) KP_SPI_REG_STATUS bit st = Some (0, st')
    /\ trace_of st st' t /\ all_waits_ok t.
Proof.
  intros Hbit. unfold kp_spi_wait_for_reg_bit. rewrite bind_lift.
  unfold jiffies at 1 2. cbn [fst snd]. cbn [wait_loop].
  unfold bind at 1. rewrite bind_lift, read_reg_bus by (left; discriminate).
  cbn [fst snd]. cbn [log log_event]. rewrite ready.
  assert (Hnz : (Z.land 7 bit =? 0) = false).
  { simpl in Hbit. destruct Hbit as [<- | [<- | [<- | []]]]; reflexivity. }
  rewrite Hnz. cbn [ret]. rewrite bind_emit. unfold ret.
  eexists. eexists. split; [reflexivity |]. split.
  - unfold trace_of. cbn [log log_event].
    instantiate (1 := [EvJiffies (u64 (jiffies_of E (log st)));
                       EvReadq KP_SPI_REG_STATUS 7;
                       EvWaitRet KP_SPI_REG_STATUS bit 0]).
    reflexivity.
  - repeat constructor.
Qed.

Lemma tx_loop_ready fuel :
  forall n tx p st,
  exists p' st' t,
    tx_loop E (S fuel) n tx p st = Some ((p', false), st')
    /\ trace_of st st' t /\ all_waits_ok t.
Proof.
  induction n as [| n IH]; intros tx p st.
  - exists p, st, []. repeat split. constructor.
  - cbn [tx_loop]. rewrite bind_some with (a := load8 st tx) (st1 := st) by reflexivity.
    destruct (wait_ready fuel KP_SPI_REG_STATUS_TXS st) as (st1 & t1 & Hw & Ht1 & Hok1);
      [simpl; auto |].
    rewrite (bind_some _ _ _ _ _ Hw). cbn [Z.ltb Z.compare]. rewrite bind_modify.
    destruct (IH (tx + 1) (s32 (p + 1))
                (kp_spi_write_reg KP_SPI_REG_TXDATA (char_to_u64 E (load8 st tx)) st1))
      as (p' & st' & t & Hrun & Ht & Hok).
    exists p', st', (t1 ++ EvWriteq KP_SPI_REG_TXDATA (char_to_u64 E (load8 st tx)) :: t).
    split; [exact Hrun |]. split.
    + eapply trace_of_trans; [exact Ht1 |].
      rewrite write_reg_data in Ht by discriminate.
      apply (trace_of_trans _ _ _ [_] t (trace_of_log_event _ _) Ht).
    + apply all_waits_ok_app. split; [exact Hok1 | exact Hok].
Qed.

Lemma rx_loop_ready fuel :
  forall n rx p st,
  exists p' st' t,
    rx_loop E (S fuel) n rx p st = Some ((p', false), st')
    /\ trace_of st st' t /\ all_waits_ok t.
Proof.
  induction n as [| n IH]; intros rx p st.
  - exists p, st, []. repeat split. constructor.
  - cbn [rx_loop]. rewrite bind_modify, write_reg_data by discriminate.
    destruct (wait_ready fuel KP_SPI_REG_STATUS_RXS
                (log_event (EvWriteq KP_SPI_REG_TXDATA 0) st))
      as (st1 & t1 & Hw & Ht1 & Hok1); [simpl; auto |].
    rewrite (bind_some _ _ _ _ _ Hw). cbn [Z.ltb Z.compare].
    rewrite bind_lift, read_reg_bus by (left; discriminate). cbn [fst snd].
    rewrite bind_modify.
    match goal with
    | |- exists _ _ _, rx_loop _ _ _ _ _ ?s = _ /\ _ =>
        destruct (IH (rx + 1) (s32 (p + 1)) s) as (p' & st' & t & Hrun & Ht & Hok)
    end.
    exists p', st',
      (EvWriteq KP_SPI_REG_TXDATA 0
       :: t1 ++ EvReadq KP_SPI_REG_RXDATA (u64 (readq_of E (log st1) KP_SPI_REG_RXDATA)) :: t).
    split; [exact Hrun |]. split.
    + apply (trace_of_trans _ _ _ [_] _ (trace_of_log_event _ _)).
      eapply trace_of_trans; [exact Ht1 |].
      apply (trace_of_trans _ _ _ [_] t (trace_of_log_event _ _)).
      exact Ht.
    + change (all_waits_ok
                (t1 ++ EvReadq KP_SPI_REG_RXDATA (u64 (readq_of E (log st1) KP_SPI_REG_RXDATA)) :: t)).
      apply all_waits_ok_app. split; [exact Hok1 | exact Hok].
Qed.

Lemma pio_ready fuel t st :
  wf_transfer t -> has_buffer t ->
  exists st' tr,
    kp_spi_txrx_pio E (S fuel) t st = Some (len t, st')
    /\ trace_of st st' tr /\ all_waits_ok tr.
Proof.
  intros Hwf Hbuf.
  assert (H : exists count st' tr,
             kp_spi_txrx_pio E (S fuel) t st = Some (count, st')
             /\ trace_of st st' tr /\ all_waits_ok tr).
  { unfold kp_spi_txrx_pio.
    assert (Hl : exists p' st1 t1,
               match tx_buf t, rx_buf t with
               | Some tx, _ => tx_loop E (S fuel) (Z.to_nat (len t)) tx 0
               | None, Some rx => rx_loop E (S fuel) (Z.to_nat (len t)) rx 0
               | None, None => ret (0, false)
               end st = Some ((p', false), st1)
               /\ trace_of st st1 t1 /\ all_waits_ok t1).
    { destruct (tx_buf t); [apply tx_loop_ready |].
      destruct (rx_buf t); [apply rx_loop_ready |].
      exists 0, st, []. repeat split. constructor. }
    destruct Hl as (p' & st1 & t1 & Hl & Ht1 & Hok1).
    rewrite (bind_some _ _ _ _ _ Hl).
    destruct (wait_ready fuel KP_SPI_REG_STATUS_EOT st1) as (st2 & t2 & Hw & Ht2 & Hok2);
      [simpl; auto |].
    rewrite (bind_some _ _ _ _ _ Hw). unfold ret.
    exists (u32 p'), st2, (t1 ++ t2).
    split; [reflexivity |]. split; [eapply trace_of_trans; eassumption |].
    apply all_waits_ok_app. split; assumption. }
  destruct H as (count & st' & tr & Hrun & Htr & Hok).
  rewrite (pio_all_ok _ _ _ _ _ _ _ Hrun Hwf Htr Hok Hbuf) in Hrun. eauto.
Qed.

Lemma do_transfers_ready fuel spidev :
  forall ts acc st,
    Forall wf_transfer ts -> forallb transfer_okb ts = true -> 0 <= acc < 2 ^ 32 ->
    exists st' tr,
      do_transfers E (S fuel) spidev ts acc st
      = Some ((0, u32 (acc + total_length ts)), st')
      /\ trace_of st st' tr /\ all_waits_ok tr.
Proof.
  induction ts as [| t ts IH]; intros acc st Hwf Hok Hacc.
  - exists st, []. simpl. rewrite Z.add_0_r, u32_small by assumption.
    repeat split. constructor.
  - inversion Hwf as [| ? ? Hwft Hwfs]; subst.
    simpl in Hok. apply andb_prop in Hok. destruct Hok as [Hokt Hoks].
    destruct (transfer_okb_buffers _ Hokt) as [Hnull Hbuf].
    cbn [do_transfers]. rewrite Hnull.
    assert (Hb : exists st1 t1,
               (if negb (len t =? 0)
                then
                  let* reg := lift (kp_spi_read_reg E KP_SPI_REG_CONFIG) in
                  modify (set_word_len (transfer_word_len spidev t));;
                  modify (kp_spi_write_reg KP_SPI_REG_CONFIG (transfer_config spidev t reg));;
                  (let* count := kp_spi_txrx_pio E (S fuel) t in
                   ret (negb (count =? len t), u32 (acc + count)))
                else ret (false, acc)) st = Some ((false, u32 (acc + len t)), st1)
               /\ trace_of st st1 t1 /\ all_waits_ok t1).
    { destruct (Z.eqb_spec (len t) 0) as [Hz | Hnz]; cbn [negb].
      - exists st, []. rewrite Hz, Z.add_0_r, u32_small by assumption.
        repeat split. constructor.
      - rewrite bind_lift, !bind_modify.
        destruct (kp_spi_read_reg E KP_SPI_REG_CONFIG st) as [reg st0] eqn:Hrd.
        destruct (read_reg_spec _ _ _ _ _ Hrd) as (e0 & -> & He0 & _).
        cbn [fst snd].
        match goal with
        | |- exists _ _, bind _ _ ?s = _ /\ _ =>
            destruct (pio_ready fuel t s Hwft (Hbuf Hnz)) as (st2 & tp & Hp & Htp & Hokp)
        end.
        rewrite (bind_some _ _ _ _ _ Hp). rewrite Z.eqb_refl. cbn [negb]. unfold ret.
        exists st2,
          (e0 :: EvWriteq KP_SPI_REG_CONFIG (transfer_config spidev t reg) :: tp).
        split; [reflexivity |]. split.
        + unfold trace_of in *. rewrite Htp. simpl. rewrite <- !app_assoc. reflexivity.
        + unfold all_waits_ok in *.
          destruct e0; simpl in He0; try discriminate; simpl; exact Hokp. }
    destruct Hb as (st1 & t1 & Hb & Ht1 & Hok1).
    rewrite (bind_some _ _ _ _ _ Hb).
    assert (Hd : exists st2 td,
               (if negb (delay_usecs t =? 0)
                then emit (EvUdelay (delay_usecs t)) else ret tt) st1 = Some (tt, st2)
               /\ trace_of st1 st2 td /\ all_waits_ok td).
    { destruct (negb (delay_usecs t =? 0)).
      - exists (log_event (EvUdelay (delay_usecs t)) st1), [EvUdelay (delay_usecs t)].
        repeat split. constructor.
      - exists st1, []. repeat split. constructor. }
    destruct Hd as (st2 & td & Hd & Htd & Hokd).
    rewrite (bind_some _ _ _ _ _ Hd).
    destruct (IH (u32 (acc + len t)) st2 Hwfs Hoks (u32_range _))
      as (st' & tr & Hrun & Htr & Hokr).
    exists st', (t1 ++ td ++ tr).
    split; [| split].
    + rewrite Hrun. rewrite u32_add_l. simpl total_length.
      rewrite Z.add_assoc. reflexivity.
    + eapply trace_of_trans; [exact Ht1 | eapply trace_of_trans; eassumption].
    + apply all_waits_ok_app. split; [assumption |].
      apply all_waits_ok_app. split; assumption.
Qed.

Lemma message_ready fuel spidev m st :
  passes_validation m = true -> Forall wf_transfer (transfers m) ->
  exists st' tr,
    kp_spi_transfer_one_message E (S fuel) spidev m st
    = Some ((0, set_result m (u32 (total_length (transfers m)))), st')
    /\ trace_of st st' tr /\ all_waits_ok tr.
Proof.
  intros Hv Hwf. unfold kp_spi_transfer_one_message, message_body.
  unfold passes_validation in Hv.
  destruct (transfers m) as [| t0 ts0] eqn:Hts; [discriminate |].
  rewrite <- Hts in *. clear Hts t0 ts0.
  unfold bind at 1. unfold bind at 1. rewrite validate_eq, Hv. cbn [Z.ltb Z.compare].
  rewrite bind_lift, bind_modify.
  destruct (kp_spi_read_reg E KP_SPI_REG_CONFIG st) as [reg st0] eqn:Hrd.
  destruct (read_reg_spec _ _ _ _ _ Hrd) as (e0 & -> & He0 & _).
  cbn [fst snd]. rewrite write_reg_config.
  match goal with
  | |- context [bind (kp_spi_wait_for_reg_bit _ _ _ _) _ ?s] =>
      destruct (wait_ready fuel KP_SPI_REG_STATUS_EOT s) as (st1 & t1 & Hw & Ht1 & Hok1);
        [simpl; auto |]
  end.
  rewrite (bind_some _ _ _ _ _ Hw). cbn [Z.ltb Z.compare].
  destruct (do_transfers_ready fuel spidev (transfers m) 0 st1 Hwf Hv ltac:(lia))
    as (st2 & t2 & Hd & Ht2 & Hok2).
  rewrite (bind_some _ _ _ _ _ Hd).
  rewrite bind_lift, bind_modify, bind_emit.
  destruct (kp_spi_read_reg E KP_SPI_REG_CONFIG st2) as [reg2 st3] eqn:Hrd2.
  destruct (read_reg_spec _ _ _ _ _ Hrd2) as (e2 & -> & He2 & _).
  cbn [fst snd]. unfold ret. rewrite Z.add_0_l.
  eexists. eexists. split; [reflexivity |].
  rewrite write_reg_config.
  assert (Hro : forall e i v, reg_read e = Some (i, v) -> wait_rets [e] = []).
  { intros e i v H. destruct e; simpl in *; try discriminate; reflexivity. }
  split.
  - instantiate (1 := e0 :: EvWriteq KP_SPI_REG_CONFIG (set_field spi_en 1 (u32 reg))
                         :: t1 ++ t2
                         ++ [e2; EvWriteq KP_SPI_REG_CONFIG (set_field spi_en 0 (u32 reg2));
                             EvFinalize]).
    unfold trace_of in *. cbn [log log_event set_conf_cache]. rewrite Ht2, Ht1.
    cbn [log log_event set_conf_cache]. simpl.
    rewrite !rev_app_distr. simpl. rewrite <- !app_assoc. reflexivity.
  - change (all_waits_ok ([e0] ++ [EvWriteq KP_SPI_REG_CONFIG (set_field spi_en 1 (u32 reg))]
                          ++ t1 ++ t2 ++ [e2] ++
                          [EvWriteq KP_SPI_REG_CONFIG (set_field spi_en 0 (u32 reg2));
                           EvFinalize])).
    rewrite !all_waits_ok_app. unfold all_waits_ok at 1 2 5 6.
    rewrite (Hro _ _ _ He0), (Hro _ _ _ He2). simpl.
    repeat split; try assumption; constructor.
Qed.

End Ready.

Lemma ready_device_ready rxdata : status_always (ready_device rxdata) 7.
Proof. intros l. reflexivity. Qed.

(** ** The sequencer: claims C1, C3 and C4 *)

Lemma wait_rets_read e i v rest :
  reg_read e = Some (i, v) -> wait_rets (e :: rest) = wait_rets rest.
Proof. destruct e; simpl; intros H; try discriminate; reflexivity. Qed.

Lemma writes_to_read idx e i v rest :
  reg_read e = Some (i, v) -> writes_to idx (e :: rest) = writes_to idx rest.
Proof. destruct e; simpl; intros H; try discriminate; reflexivity. Qed.




(** When the up-front wait times out the function leaves through [out],
    which lies behind the de-assertion: Config has been written once, with
    SPI-enable set, and the message is finalized with chip select still
    asserted. *)
Lemma eot_timeout_skips_deassert :
  exists m' st',
    kp_spi_transfer_one_message stuck_device 4 board_device
      (msg [xfer (Some 100) None 2]) (boot idle_state (fun a => a))
    = Some ((0, m'), st')
    /\ map (get_field spi_en)
         (writes_to KP_SPI_REG_CONFIG (trace (boot idle_state (fun a => a)) st'))
       = [1]
    /\ get_field spi_en (conf_cache (ctl st')) = 1
    /\ last (trace (boot idle_state (fun a => a)) st') EvRelax = EvFinalize
    /\ actual_length m' = 0.
Proof.
  eexists. eexists. split; [vm_compute; reflexivity |].
  repeat split; vm_compute; reflexivity.
Qed.

(** C3, as stated, fails: [actual_length] is an unsigned 32-bit counter.
    Three transfers of 2^31 - 1, 2^31 - 1 and 2 bytes, all carried out
    without a timeout, leave 0 in it, while the lengths add up to 2^32. *)
Lemma actual_length_wraps :
  exists m' st',
    kp_spi_transfer_one_message (ready_device []) 1 board_device big_message
      (boot idle_state (fun _ => 0))
    = Some ((0, m'), st')
    /\ passes_validation big_message = true
    /\ all_waits_ok (trace (boot idle_state (fun _ => 0)) st')
    /\ actual_length m' = 0
    /\ total_length (transfers big_message) = 2 ^ 32.
Proof.
  assert (Hwf : Forall wf_transfer (transfers big_message)).
  { unfold big_message, msg, transfers, xfer, wf_transfer.
    repeat constructor; cbn [len]; lia. }
  destruct (message_ready (ready_device []) (ready_device_ready []) 0 board_device
              big_message (boot idle_state (fun _ => 0)) eq_refl Hwf)
    as (st' & tr & Hrun & Htr & Hok).
  exists (set_result big_message (u32 (total_length (transfers big_message)))), st'.
  split; [exact Hrun |]. split; [reflexivity |].
  split; [rewrite (trace_of_trace _ _ _ Htr); exact Hok |].
  split; reflexivity.
Qed.

(** C3, amended.  A message that passes validation is carried out and
    returns 0; if the up-front wait and every wait of the byte transfer
    primitive succeed, its [actual_length] is the sum of the lengths of
    its transfers modulo 2^32 - the sum itself whenever that is below
    2^32. *)
Theorem actual_length_sum_mod (E : platform) (N : nat) (spidev : spi_device)
    (m : spi_message) (st : machine) :
  live_within E N -> passes_validation m = true ->
  Forall wf_transfer (transfers m) ->
  exists m' st',
    kp_spi_transfer_one_message E N spidev m st = Some ((0, m'), st')
    /\ (all_waits_ok (trace st st') ->
        actual_length m' = u32 (total_length (transfers m))
        /\ (total_length (transfers m) < 2 ^ 32 ->
            actual_length m' = total_length (transfers m))).
Proof.
  intros Hlive Hv Hwf.
  destruct (message_body_total E N spidev m st Hlive) as ([[r s] m'] & st' & Hb).
  destruct (message_body_ret _ _ _ _ _ _ _ _ _ Hv Hb) as (-> & _).
  exists m', st'. split; [eapply transfer_one_message_of_body; exact Hb |].
  destruct (message_body_valid _ _ _ _ _ _ _ Hv Hwf Hb)
    as (e0 & reg & r & tw & He0 & Hwr & Hww & Hfw & Hcase).
  assert (Happ : forall a b, all_waits_ok (e0 :: a :: tw ++ b) ->
                             all_waits_ok tw /\ all_waits_ok b).
  { intros a b H. change (all_waits_ok ([e0; a] ++ tw ++ b)) in H.
    apply all_waits_ok_app in H. destruct H as [_ H].
    apply all_waits_ok_app in H. exact H. }
  destruct Hcase as [(-> & _ & Ht) | (-> & trd & s' & short & c & Hres & Ht & _ & _ & _ & Hs & Hok)];
    rewrite (trace_of_trace _ _ _ Ht); intros Hall; apply Happ in Hall;
    destruct Hall as [Hall1 Hall2].
  - unfold all_waits_ok in Hall1. rewrite Hwr in Hall1. inv Hall1. discriminate.
  - apply all_waits_ok_app in Hall2. destruct Hall2 as [Hall2 _].
    specialize (Hok Hall2).
    destruct Hs as [[_ ->] | [Hs _]]; [| rewrite Hok in Hs; discriminate].
    inv Hres. simpl. split; [reflexivity |].
    intros Hlt. apply u32_small. split; [apply total_length_nonneg; assumption | lia].
Qed.

Lemma actual_length_sum_mod_witness :
  live_within (ready_device [0xAA; 0xBB; 0xCC]) 4
  /\ passes_validation (msg [xfer None (Some 100) 3]) = true
  /\ Forall wf_transfer (transfers (msg [xfer None (Some 100) 3]))
  /\ exists m' st',
       kp_spi_transfer_one_message (ready_device [0xAA; 0xBB; 0xCC]) 4 board_device
         (msg [xfer None (Some 100) 3]) (boot idle_state (fun _ => 0))
       = Some ((0, m'), st')
       /\ all_waits_ok (trace (boot idle_state (fun _ => 0)) st')
       /\ actual_length m' = 3.
Proof.
  assert (Hwf : Forall wf_transfer (transfers (msg [xfer None (Some 100) 3]))).
  { repeat constructor; simpl; lia. }
  split; [apply scripted_live |]. split; [reflexivity |]. split; [exact Hwf |].
  destruct (actual_length_sum_mod (ready_device [0xAA; 0xBB; 0xCC]) 4 board_device
              (msg [xfer None (Some 100) 3]) (boot idle_state (fun _ => 0))
              (scripted_live _ _) eq_refl Hwf) as (m' & st' & Hrun & Hlen).
  assert (Hrun' := Hrun). vm_compute in Hrun'. inv Hrun'.
  match type of Hlen with
  | ?P -> _ => assert (Hok : P) by (vm_compute; repeat constructor)
  end.
  destruct (Hlen Hok) as [_ Hsum].
  do 2 eexists. split; [exact Hrun |]. split; [exact Hok |].
  apply Hsum. vm_compute. reflexivity.
Defined.

(** C4.  Once validation has passed, kp_spi_transfer_one_message returns
    0 and leaves 0 in the status of the message, whatever times out.  The
    local status ends as 0 or -EIO and is dropped; when it is -EIO,
    [actual_length] is below the sum of the requested lengths.  A transfer
    for which the byte transfer primitive returns a count other than its
    length sets the local status to -EIO and ends the loop in the state the
    primitive left, and a loop that ended with an error status ends the
    same way whatever transfers follow. *)
Theorem short_transfer_is_absorbed (E : platform) (N : nat) (spidev : spi_device)
    (m : spi_message) (st : machine) :
  live_within E N -> passes_validation m = true ->
  Forall wf_transfer (transfers m) ->
  (exists s m' st',
      message_body E N spidev m st = Some ((0, s, m'), st')
      /\ kp_spi_transfer_one_message E N spidev m st = Some ((0, m'), st')
      /\ status m' = 0
      /\ (s = 0 \/ s = - EIO)
      /\ (s = - EIO -> 0 <= actual_length m' < total_length (transfers m)))
  /\ (forall t rest acc st0 count st1,
        len t <> 0 -> has_buffer t ->
        kp_spi_txrx_pio E N t
          (kp_spi_write_reg KP_SPI_REG_CONFIG
             (transfer_config spidev t (fst (kp_spi_read_reg E KP_SPI_REG_CONFIG st0)))
             (set_word_len (transfer_word_len spidev t)
                (snd (kp_spi_read_reg E KP_SPI_REG_CONFIG st0)))) = Some (count, st1) ->
        count <> len t ->
        do_transfers E N spidev (t :: rest) acc st0
        = Some ((- EIO, u32 (acc + count)), st1))
  /\ (forall pre post acc st0 s a st1,
        do_transfers E N spidev pre acc st0 = Some ((s, a), st1) -> s <> 0 ->
        do_transfers E N spidev (pre ++ post) acc st0 = Some ((s, a), st1)).
Proof.
  intros Hlive Hv Hwf. split; [| split].
  - destruct (message_body_total E N spidev m st Hlive) as ([[r s] m'] & st' & Hb).
    destruct (message_body_ret _ _ _ _ _ _ _ _ _ Hv Hb) as (-> & Hst & _).
    exists s, m', st'. split; [exact Hb |].
    split; [eapply transfer_one_message_of_body; exact Hb |].
    split; [exact Hst |].
    destruct (message_body_valid _ _ _ _ _ _ _ Hv Hwf Hb)
      as (e0 & reg & r & tw & _ & _ & _ & _ & Hcase).
    destruct Hcase as [(_ & Hres & _) | (_ & trd & s' & short & c & Hres & _ & _ & _ & H0 & Hs & _)];
      inv Hres.
    + split; [left; reflexivity | discriminate].
    + destruct Hs as [[-> _] | [-> Hlt]].
      * split; [left; reflexivity | discriminate].
      * split; [right; reflexivity |]. intros _. simpl.
        pose proof (u32_range short). pose proof (u32_le short H0). lia.
  - intros t rest acc st0 count st1. apply do_transfers_short.
  - intros pre post acc st0 s a st1. apply do_transfers_stop.
Qed.

Lemma short_transfer_is_absorbed_witness :
  live_within eot_only_device 4
  /\ passes_validation (msg [xfer (Some 200) None 2; xfer None (Some 100) 3]) = true
  /\ exists s m' st',
       message_body eot_only_device 4 board_device
         (msg [xfer (Some 200) None 2; xfer None (Some 100) 3])
         (boot idle_state (fun _ => 0)) = Some ((0, s, m'), st')
       /\ status m' = 0 /\ s = - EIO /\ actual_length m' = 0.
Proof.
  assert (Hwf : Forall wf_transfer
                  (transfers (msg [xfer (Some 200) None 2; xfer None (Some 100) 3]))).
  { repeat constructor; simpl; lia. }
  split; [apply scripted_live |]. split; [reflexivity |].
  destruct (short_transfer_is_absorbed eot_only_device 4 board_device
              (msg [xfer (Some 200) None 2; xfer None (Some 100) 3])
              (boot idle_state (fun _ => 0)) (scripted_live _ _) eq_refl Hwf)
    as ((s & m' & st' & Hb & _ & Hst & _) & _).
  exists s, m', st'. split; [exact Hb |]. split; [exact Hst |].
  assert (Hb' := Hb). vm_compute in Hb'. inv Hb'. split; reflexivity.
Defined.

(** The first transfer times out on its first byte: the loop stops, the
    receive transfer is never started, chip select is released. *)
Example short_transfer_stops_message :
  option_map (fun r => (fst r, filter is_bus (rev (log (snd r)))))
    (message_body eot_only_device 4 board_device
       (msg [xfer (Some 200) None 2; xfer None (Some 100) 3])
       (boot idle_state (fun _ => 0)))
  = Some ((0, - EIO, msg [xfer (Some 200) None 2; xfer None (Some 100) 3]),
          [EvWriteq 0 0x4004070; EvReadq 1 4;
           EvWriteq 0 0x4006070;
           EvReadq 1 4; EvReadq 1 4; EvReadq 1 4; EvReadq 1 4; EvReadq 1 4;
           EvWriteq 0 0x6070]).
Proof. vm_compute. reflexivity. Qed.

(** One send transfer of the bytes 1, 2, 3, 4 at 1 MHz: chip select is
    asserted, the transfer mode is TX-only, the four bytes go to TX-Data in
    order, chip select is released. *)
Example send_message_scenario :
  option_map (fun r => (fst r, filter is_write_event (rev (log (snd r)))))
    (kp_spi_transfer_one_message (ready_device []) 4 board_device
       (msg [xfer (Some 1) None 4]) (boot idle_state (fun a => a)))
  = Some ((0, {| transfers := [xfer (Some 1) None 4]; actual_length := 4; status := 0 |}),
          [EvWriteq 0 0x4004070; EvWriteq 0 0x4006070;
           EvWriteq 3 1; EvWriteq 3 2; EvWriteq 3 3; EvWriteq 3 4;
           EvWriteq 0 0x6070]).
Proof. vm_compute. reflexivity. Qed.

(** ** The byte transfer primitive: claims C9 and C10 *)

Lemma writes_to_data tr :
  writes_to KP_SPI_REG_TXDATA (filter is_data tr) = writes_to KP_SPI_REG_TXDATA tr.
Proof.
  induction tr as [| e tr IH]; [reflexivity |].
  destruct e; simpl; try exact IH.
  - destruct (Z.eqb_spec idx KP_SPI_REG_RXDATA); simpl; exact IH.
  - destruct (Z.eqb_spec idx KP_SPI_REG_TXDATA); simpl.
    + subst idx. simpl. rewrite IH. reflexivity.
    + destruct (Z.eqb_spec idx KP_SPI_REG_TXDATA); [contradiction | exact IH].
Qed.

Lemma reads_of_data tr :
  reads_of KP_SPI_REG_RXDATA (filter is_data tr) = reads_of KP_SPI_REG_RXDATA tr.
Proof.
  induction tr as [| e tr IH]; [reflexivity |].
  destruct e; simpl; try exact IH.
  - destruct (Z.eqb_spec idx KP_SPI_REG_RXDATA); simpl.
    + subst idx. simpl. rewrite IH. reflexivity.
    + destruct (Z.eqb_spec idx KP_SPI_REG_RXDATA); [contradiction | exact IH].
  - destruct (Z.eqb_spec idx KP_SPI_REG_TXDATA); simpl; [| exact IH].
    subst idx. simpl. exact IH.
Qed.

Lemma clocked_reads vs tail :
  writes_to KP_SPI_REG_TXDATA
    (flat_map (fun v => [EvWriteq KP_SPI_REG_TXDATA 0; EvReadq KP_SPI_REG_RXDATA v]) vs
     ++ tail)
  = repeat 0 (length vs) ++ writes_to KP_SPI_REG_TXDATA tail
  /\ reads_of KP_SPI_REG_RXDATA
       (flat_map (fun v => [EvWriteq KP_SPI_REG_TXDATA 0; EvReadq KP_SPI_REG_RXDATA v]) vs
        ++ tail)
     = vs ++ reads_of KP_SPI_REG_RXDATA tail.
Proof.
  induction vs as [| v vs [IHw IHr]]; simpl; [split; reflexivity |].
  rewrite IHw, IHr. split; reflexivity.
Qed.

Section PioDirections.

Variable E : platform.

Lemma pio_tx_spec fuel t tx st count st' :
  tx_buf t = Some tx -> wf_transfer t ->
  kp_spi_txrx_pio E fuel t st = Some (count, st') ->
  exists tr k out r,
    trace_of st st' tr /\ count = Z.of_nat k
    /\ ctl st' = ctl st /\ mem st' = mem st
    /\ writes_to KP_SPI_REG_TXDATA tr =
       map (fun i => char_to_u64 E (load8 st (tx + Z.of_nat i))) (seq 0 k)
    /\ (forall i, i <> KP_SPI_REG_STATUS -> reads_of i tr = [])
    /\ wait_rets tr =
       repeat (KP_SPI_REG_STATUS, KP_SPI_REG_STATUS_TXS, 0) k
       ++ (if out : bool
           then [(KP_SPI_REG_STATUS, KP_SPI_REG_STATUS_TXS, - ETIMEDOUT)]
           else [(KP_SPI_REG_STATUS, KP_SPI_REG_STATUS_EOT, r)])
    /\ (if out then Z.of_nat k < len t else Z.of_nat k = len t).
Proof.
  unfold kp_spi_txrx_pio, wf_transfer. intros Htx Hwf H. rewrite Htx in H.
  mstep H po st1 Hloop. destruct po as [p' out].
  apply tx_loop_spec in Hloop.
  destruct Hloop as (t1 & k & Ht & Hc & Hm & Hk & Hp & Hw & _ & Hrd & _ & Hwt & Hout).
  assert (Hcount : u32 p' = Z.of_nat k).
  { rewrite Hp. apply u32_small. lia. }
  destruct out.
  - apply ret_inv in H. destruct H as [-> ->].
    exists t1, k, true, 0. repeat (split; [assumption |]). lia.
  - mstep H r st2 Hwait. apply ret_inv in H. destruct H as [-> ->].
    apply wait_quiet in Hwait.
    destruct Hwait as (tw & Htw & Hcw & Hmw & _ & Hww & Hwr & Hrdw & _ & _).
    exists (t1 ++ tw), k, false, r.
    split; [eapply trace_of_trans; eassumption |].
    split; [assumption |]. split; [congruence |]. split; [congruence |].
    split; [rewrite writes_to_app, Hww, app_nil_r; exact Hw |].
    split; [intros i Hi; rewrite reads_of_app, Hrd, Hrdw by assumption; reflexivity |].
    split; [rewrite wait_rets_app, Hwt, Hwr, app_nil_r; reflexivity |].
    lia.
Qed.

Lemma pio_rx_spec fuel t rx st count st' :
  tx_buf t = None -> rx_buf t = Some rx -> wf_transfer t ->
  kp_spi_txrx_pio E fuel t st = Some (count, st') ->
  exists tr vs out r,
    trace_of st st' tr /\ count = Z.of_nat (length vs)
    /\ ctl st' = ctl st
    /\ filter is_data tr =
       flat_map (fun v => [EvWriteq KP_SPI_REG_TXDATA 0; EvReadq KP_SPI_REG_RXDATA v]) vs
       ++ (if out : bool then [EvWriteq KP_SPI_REG_TXDATA 0] else [])
    /\ (forall a, mem st' a =
                  if (rx <=? a) && (a <? rx + count)
                  then u8 (nth (Z.to_nat (a - rx)) vs 0) else mem st a)
    /\ wait_rets tr =
       repeat (KP_SPI_REG_STATUS, KP_SPI_REG_STATUS_RXS, 0) (length vs)
       ++ (if out
           then [(KP_SPI_REG_STATUS, KP_SPI_REG_STATUS_RXS, - ETIMEDOUT)]
           else [(KP_SPI_REG_STATUS, KP_SPI_REG_STATUS_EOT, r)])
    /\ (if out then count < len t else count = len t).
Proof.
  unfold kp_spi_txrx_pio, wf_transfer. intros Htx Hrx Hwf H. rewrite Htx, Hrx in H.
  mstep H po st1 Hloop. destruct po as [p' out].
  apply rx_loop_spec in Hloop.
  destruct Hloop as (t1 & vs & Ht & Hc & Hk & Hp & Hd & Hmem & _ & _ & Hwt & Hout).
  assert (Hcount : u32 p' = Z.of_nat (length vs)).
  { rewrite Hp. apply u32_small. lia. }
  destruct out.
  - apply ret_inv in H. destruct H as [-> ->].
    exists t1, vs, true, 0. rewrite Hcount.
    split; [assumption |]. split; [reflexivity |].
    repeat (split; [assumption |]). lia.
  - mstep H r st2 Hwait. apply ret_inv in H. destruct H as [-> ->].
    apply wait_quiet in Hwait.
    destruct Hwait as (tw & Htw & Hcw & Hmw & _ & _ & Hwr & _ & Hnd & _).
    exists (t1 ++ tw), vs, false, r. rewrite Hcount.
    split; [eapply trace_of_trans; eassumption |].
    split; [reflexivity |]. split; [congruence |].
    split; [rewrite filter_app, Hd, Hnd by discriminate; rewrite !app_nil_r; reflexivity |].
    split; [intros a; rewrite Hmw; apply Hmem |].
    split; [rewrite wait_rets_app, Hwt, Hwr, app_nil_r; reflexivity |].
    lia.
Qed.

(** *** The primitive does not look at the session state *)

Lemma bind_retarget {A B} c (c1 : M A) (k : A -> M B) st :
  c1 (with_ctl c st) = retarget c (c1 st) ->
  (forall a s, k a (with_ctl c s) = retarget c (k a s)) ->
  bind c1 k (with_ctl c st) = retarget c (bind c1 k st).
Proof.
  intros H1 H2. unfold bind. rewrite H1.
  destruct (c1 st) as [[a s] |]; simpl; [apply H2 | reflexivity].
Qed.

Lemma read_reg_retarget c idx st :
  idx <> KP_SPI_REG_CONFIG ->
  lift (kp_spi_read_reg E idx) (with_ctl c st)
  = retarget c (lift (kp_spi_read_reg E idx) st).
Proof.
  intros H. unfold lift. rewrite !read_reg_bus by (left; exact H). reflexivity.
Qed.

Lemma wait_loop_retarget c fuel idx bit timeout :
  idx <> KP_SPI_REG_CONFIG ->
  forall st,
    wait_loop E fuel idx bit timeout (with_ctl c st)
    = retarget c (wait_loop E fuel idx bit timeout st).
Proof.
  intros Hi. induction fuel as [| fuel IH]; intros st; [reflexivity |].
  cbn [wait_loop]. apply bind_retarget; [apply read_reg_retarget; exact Hi |].
  intros v s. destruct (Z.land v bit =? 0); [| reflexivity].
  apply bind_retarget; [reflexivity |].
  intros j s1. destruct (time_after j timeout).
  - apply bind_retarget; [apply read_reg_retarget; exact Hi |].
    intros v2 s2. destruct (Z.land v2 bit =? 0); reflexivity.
  - apply bind_retarget; [reflexivity |]. intros _ s2. apply IH.
Qed.

Lemma wait_retarget c fuel idx bit st :
  idx <> KP_SPI_REG_CONFIG ->
  kp_spi_wait_for_reg_bit E fuel idx bit (with_ctl c st)
  = retarget c (kp_spi_wait_for_reg_bit E fuel idx bit st).
Proof.
  intros Hi. unfold kp_spi_wait_for_reg_bit.
  apply bind_retarget; [reflexivity |]. intros j0 s.
  apply bind_retarget; [apply wait_loop_retarget; exact Hi |]. intros r s1.
  apply bind_retarget; reflexivity.
Qed.

Lemma tx_loop_retarget c fuel :
  forall n tx p st,
    tx_loop E fuel n tx p (with_ctl c st) = retarget c (tx_loop E fuel n tx p st).
Proof.
  induction n as [| n IH]; intros tx p st; [reflexivity |].
  cbn [tx_loop]. apply bind_retarget; [reflexivity |]. intros val s.
  apply bind_retarget; [apply wait_retarget; discriminate |]. intros r s1.
  destruct (r <? 0); [reflexivity |].
  apply bind_retarget; [reflexivity |]. intros _ s2. apply IH.
Qed.

Lemma rx_loop_retarget c fuel :
  forall n rx p st,
    rx_loop E fuel n rx p (with_ctl c st) = retarget c (rx_loop E fuel n rx p st).
Proof.
  induction n as [| n IH]; intros rx p st; [reflexivity |].
  cbn [rx_loop]. apply bind_retarget; [reflexivity |]. intros _ s.
  apply bind_retarget; [apply wait_retarget; discriminate |]. intros r s1.
  destruct (r <? 0); [reflexivity |].
  apply bind_retarget; [apply read_reg_retarget; discriminate |]. intros test s2.
  apply bind_retarget; [reflexivity |]. intros _ s3. apply IH.
Qed.

Lemma pio_retarget c fuel t st :
  kp_spi_txrx_pio E fuel t (with_ctl c st) = retarget c (kp_spi_txrx_pio E fuel t st).
Proof.
  unfold kp_spi_txrx_pio. apply bind_retarget.
  - destruct (tx_buf t); [apply tx_loop_retarget |].
    destruct (rx_buf t); [apply rx_loop_retarget | reflexivity].
  - intros [p' out] s. destruct out; [reflexivity |].
    apply bind_retarget; [apply wait_retarget; discriminate | reflexivity].
Qed.

End PioDirections.

(** On plain-char-is-signed targets a byte of 0x80 or more reaches the
    TX-Data register sign-extended to 64 bits. *)
Example send_four_bytes :
  option_map (fun r => (fst r, writes_to KP_SPI_REG_TXDATA (rev (log (snd r)))))
    (kp_spi_txrx_pio (ready_device []) 4 (xfer (Some 1) None 4)
       (boot idle_state (fun a => a)))
  = Some (4, [1; 2; 3; 4]).
Proof. vm_compute. reflexivity. Qed.

(** C9.  A receive-only transfer of n units runs to its end; if every
    wait succeeds, the traffic on the data registers is n times a write of
    zero to TX-Data followed by a read of RX-Data - n zero writes in all -
    the count is n, and the bytes read are in the receive buffer in order
    (the low byte of each value), the rest of memory being unchanged. *)
Theorem rx_only_clocks_and_stores (E : platform) (N : nat) (t : spi_transfer)
    (rx : Z) (st : machine) :
  live_within E N -> wf_transfer t ->
  tx_buf t = None -> rx_buf t = Some rx ->
  exists count st',
    kp_spi_txrx_pio E N t st = Some (count, st')
    /\ (all_waits_ok (trace st st') ->
        exists vs,
          Z.of_nat (length vs) = len t /\ count = len t
          /\ filter is_data (trace st st') =
             flat_map (fun v => [EvWriteq KP_SPI_REG_TXDATA 0;
                                 EvReadq KP_SPI_REG_RXDATA v]) vs
          /\ writes_to KP_SPI_REG_TXDATA (trace st st') = repeat 0 (length vs)
          /\ reads_of KP_SPI_REG_RXDATA (trace st st') = vs
          /\ (forall i, (i < length vs)%nat ->
                        mem st' (rx + Z.of_nat i) = u8 (nth i vs 0))
          /\ (forall a, a < rx \/ rx + len t <= a -> mem st' a = mem st a)).
Proof.
  intros Hlive Hwf Htx Hrx.
  destruct (pio_total E N t st Hlive) as (count & st' & Hrun).
  exists count, st'. split; [exact Hrun |].
  destruct (pio_rx_spec E N t rx st count st' Htx Hrx Hwf Hrun)
    as (tr & vs & out & r & Ht & Hc & _ & Hd & Hm & Hwt & Hout).
  rewrite (trace_of_trace _ _ _ Ht). intros Hok.
  assert (out = false).
  { destruct out; [| reflexivity]. unfold all_waits_ok in Hok. rewrite Hwt in Hok.
    apply Forall_app in Hok. destruct Hok as [_ Hok]. inv Hok. discriminate. }
  subst out. rewrite app_nil_r in Hd.
  destruct (clocked_reads vs []) as [Hcw Hcr]. rewrite !app_nil_r in Hcw, Hcr.
  exists vs. split; [lia |]. split; [exact Hout |]. split; [exact Hd |].
  split; [rewrite <- writes_to_data, Hd; exact Hcw |].
  split; [rewrite <- reads_of_data, Hd; exact Hcr |].
  split.
  - intros i Hi. rewrite Hm.
    destruct (Z.leb_spec rx (rx + Z.of_nat i)); [| lia].
    destruct (Z.ltb_spec (rx + Z.of_nat i) (rx + count)); [| lia].
    simpl. replace (Z.to_nat (rx + Z.of_nat i - rx)) with i by lia. reflexivity.
  - intros a Ha. rewrite Hm.
    destruct (Z.leb_spec rx a); destruct (Z.ltb_spec a (rx + count)); simpl;
      try reflexivity; lia.
Qed.

(** Three bytes requested, the hardware delivers 0xAA, 0xBB, 0xCC: the
    buffer holds them in order after three zero writes to TX-Data. *)
Lemma rx_only_clocks_and_stores_witness :
  live_within (ready_device [0xAA; 0xBB; 0xCC]) 4
  /\ wf_transfer (xfer None (Some 100) 3)
  /\ exists count st',
       kp_spi_txrx_pio (ready_device [0xAA; 0xBB; 0xCC]) 4 (xfer None (Some 100) 3)
         (boot idle_state (fun _ => 0)) = Some (count, st')
       /\ all_waits_ok (trace (boot idle_state (fun _ => 0)) st')
       /\ count = 3
       /\ map (mem st') [100; 101; 102] = [0xAA; 0xBB; 0xCC]
       /\ writes_to KP_SPI_REG_TXDATA (trace (boot idle_state (fun _ => 0)) st')
          = [0; 0; 0].
Proof.
  assert (Hwf : wf_transfer (xfer None (Some 100) 3)) by (unfold wf_transfer; simpl; lia).
  split; [apply scripted_live |]. split; [exact Hwf |].
  destruct (rx_only_clocks_and_stores (ready_device [0xAA; 0xBB; 0xCC]) 4
              (xfer None (Some 100) 3) 100 (boot idle_state (fun _ => 0))
              (scripted_live _ _) Hwf eq_refl eq_refl)
    as (count & st' & Hrun & Himp).
  assert (Hrun' := Hrun). vm_compute in Hrun'. inv Hrun'.
  match type of Himp with
  | ?P -> _ => assert (Hok : P) by (vm_compute; repeat constructor)
  end.
  destruct (Himp Hok) as (vs & _ & Hcount & _ & Hwr & Hrd & _).
  do 2 eexists. split; [exact Hrun |]. split; [exact Hok |].
  split; [exact Hcount |]. split; vm_compute; reflexivity.
Defined.



(** * Further properties of the engine *)

(** ** union kp_spi_config *)

Lemma config_fields_ok f : In f config_fields -> field_ok f.
Proof.
  unfold config_fields. simpl. intros H.
  repeat (destruct H as [<- | H]; [unfold field_ok; simpl; lia |]).
  contradiction.
Qed.

Lemma config_fields_disjoint f g :
  In f config_fields -> In g config_fields -> f <> g -> disjoint_fields f g.
Proof.
  unfold config_fields. simpl. intros Hf Hg Hne.
  repeat (destruct Hf as [<- | Hf]);
    try contradiction;
    repeat (destruct Hg as [<- | Hg]);
    try contradiction;
    first [exfalso; apply Hne; reflexivity | unfold disjoint_fields; simpl; lia].
Qed.

(** Assigning a named field of the Config word and reading it back gives
    the value truncated to the width of the field; every other named field
    reads as before, and the word stays a u32. *)
Theorem config_field_round_trip (f g : bitfield) (v r : Z) :
  In f config_fields -> In g config_fields -> 0 <= r < 2 ^ 32 ->
  get_field f (set_field f v r) = v mod 2 ^ f_width f
  /\ (g <> f -> get_field g (set_field f v r) = get_field g r)
  /\ 0 <= set_field f v r < 2 ^ 32.
Proof.
  intros Hf Hg Hr. pose proof (config_fields_ok f Hf) as Hokf.
  pose proof (config_fields_ok g Hg) as Hokg.
  split; [| split].
  - destruct Hokf as (? & ? & _). apply get_set_same; assumption.
  - intros Hne. apply get_set_cfg; try assumption.
    apply config_fields_disjoint; assumption.
  - apply set_field_range; assumption.
Qed.

Lemma config_field_round_trip_witness :
  In wl config_fields /\ In trm config_fields
  /\ get_field wl (set_field wl 39 0x4004070) = 7
  /\ get_field trm (set_field wl 39 0x4004070) = get_field trm 0x4004070.
Proof.
  assert (Hwl : In wl config_fields) by (simpl; tauto).
  assert (Htrm : In trm config_fields) by (simpl; tauto).
  split; [exact Hwl |]. split; [exact Htrm |].
  destruct (config_field_round_trip wl trm 39 0x4004070 Hwl Htrm) as (H1 & H2 & _).
  - lia.
  - split; [exact H1 | apply H2; discriminate].
Defined.

Lemma keeps_field f (Hf : In f config_fields) g v r :
  In g config_fields -> f <> g -> get_field f (set_field g v r) = get_field f r.
Proof.
  intros Hg Hne. apply get_set_cfg; try (apply config_fields_ok; assumption).
  apply config_fields_disjoint; assumption.
Qed.

Ltac in_fields := unfold config_fields; simpl; tauto.

(** The Config word written before a transfer: the transfer mode follows
    the buffers (TX-only when there is a send buffer, RX-only when there
    is only a receive buffer), the word-length field is the word length in
    force minus one and the chip-select field the device's index, both
    truncated to their widths; clock phase and polarity, chip-select
    polarity, transmission enable, word count, FIFO-enable and SPI-enable
    are those of the word read back. *)
Theorem transfer_config_fields (spidev : spi_device) (t : spi_transfer) (reg : Z) :
  let v := transfer_config spidev t reg in
  get_field trm v =
    (if negb (is_null (tx_buf t)) then KP_SPI_REG_CONFIG_TRM_TX
     else if negb (is_null (rx_buf t)) then KP_SPI_REG_CONFIG_TRM_RX
     else get_field trm (u32 reg))
  /\ get_field wl v = (transfer_word_len spidev t - 1) mod 32
  /\ get_field cs v = dev_chip_select spidev mod 16
  /\ get_field pha v = get_field pha (u32 reg)
  /\ get_field pol v = get_field pol (u32 reg)
  /\ get_field epol v = get_field epol (u32 reg)
  /\ get_field dpe v = get_field dpe (u32 reg)
  /\ get_field wcnt v = get_field wcnt (u32 reg)
  /\ get_field ffen v = get_field ffen (u32 reg)
  /\ get_field spi_en v = get_field spi_en (u32 reg)
  /\ 0 <= v < 2 ^ 32.
Proof.
  intros v. subst v. unfold transfer_config, transfer_word_len.
  set (w := (if negb (bits_per_word t =? 0) then bits_per_word t
             else dev_bits_per_word spidev) - 1).
  assert (Hother : forall f, In f config_fields -> f <> trm -> f <> wl -> f <> cs ->
            forall x,
            get_field f (set_field cs (dev_chip_select spidev)
                           (set_field wl w
                              (if negb (is_null (tx_buf t))
                               then set_field trm KP_SPI_REG_CONFIG_TRM_TX x
                               else if negb (is_null (rx_buf t))
                                    then set_field trm KP_SPI_REG_CONFIG_TRM_RX x
                                    else x)))
            = get_field f x).
  { intros f Hf H1 H2 H3 x.
    rewrite !(keeps_field f Hf) by (assumption || in_fields).
    destruct (negb (is_null (tx_buf t))); [| destruct (negb (is_null (rx_buf t)))];
      try reflexivity; apply (keeps_field f Hf); assumption || in_fields. }
  split; [| split; [| split]].
  - rewrite !(keeps_field trm) by (discriminate || in_fields).
    destruct (negb (is_null (tx_buf t))); [| destruct (negb (is_null (rx_buf t)))];
      try reflexivity; rewrite get_set_same by (simpl; lia); reflexivity.
  - rewrite (keeps_field wl) by (discriminate || in_fields).
    apply get_set_same; simpl; lia.
  - apply get_set_same; simpl; lia.
  - repeat (split; [apply Hother; (discriminate || in_fields) |]).
    apply transfer_config_keeps.
Qed.

(** ** kp_spi_setup *)

(** The Config word kp_spi_setup writes, whatever the device descriptor:
    the word length minus one and the chip-select index are truncated to
    5 and 4 bits, SPI-enable, transfer mode and FIFO-enable are 0, and the
    five fields that are never assigned hold the bits the automatic
    variable had on entry. *)
Theorem setup_config_fields (spidev : spi_device) (sc0 : Z) :
  let v := setup_config spidev sc0 in
  get_field wl v = (dev_bits_per_word spidev - 1) mod 32
  /\ get_field cs v = dev_chip_select spidev mod 16
  /\ get_field spi_en v = 0 /\ get_field trm v = 0 /\ get_field ffen v = 0
  /\ get_field pha v = get_field pha (u32 sc0)
  /\ get_field pol v = get_field pol (u32 sc0)
  /\ get_field epol v = get_field epol (u32 sc0)
  /\ get_field dpe v = get_field dpe (u32 sc0)
  /\ get_field wcnt v = get_field wcnt (u32 sc0)
  /\ 0 <= v < 2 ^ 32.
Proof.
  intros v. subst v. unfold setup_config.
  assert (Hother : forall f, In f config_fields ->
            f <> wl -> f <> cs -> f <> spi_en -> f <> trm -> f <> ffen ->
            forall a b x,
            get_field f (set_field ffen 0 (set_field trm 0 (set_field spi_en 0
                           (set_field cs a (set_field wl b x)))))
            = get_field f x).
  { intros f Hf H1 H2 H3 H4 H5 a b x.
    rewrite !(keeps_field f Hf) by (assumption || in_fields). reflexivity. }
  split; [| split; [| split; [| split; [| split]]]].
  - rewrite !(keeps_field wl) by (discriminate || in_fields).
    apply get_set_same; simpl; lia.
  - rewrite !(keeps_field cs) by (discriminate || in_fields).
    apply get_set_same; simpl; lia.
  - rewrite !(keeps_field spi_en) by (discriminate || in_fields). apply spi_en_clear.
  - rewrite !(keeps_field trm) by (discriminate || in_fields).
    rewrite get_set_same by (simpl; lia). reflexivity.
  - rewrite get_set_same by (simpl; lia). reflexivity.
  - repeat (split; [apply Hother; (discriminate || in_fields) |]).
    repeat (apply set_field_range; [apply config_fields_ok; in_fields |]).
    apply u32_range.
Qed.

(** ** The register access layer *)

(** A Config word below 2^63 written through the access layer is what
    the next Config read returns, from the cache and without a bus access,
    also when another register is written in between. *)
Theorem config_write_read_round_trip (E : platform) (val idx' val' : Z) (st : machine) :
  0 <= val < 2 ^ 63 -> idx' <> KP_SPI_REG_CONFIG ->
  let st1 := kp_spi_write_reg KP_SPI_REG_CONFIG val st in
  let st2 := kp_spi_write_reg idx' val' st1 in
  kp_spi_read_reg E KP_SPI_REG_CONFIG st1
  = (val, log_event (EvCached KP_SPI_REG_CONFIG val) st1)
  /\ kp_spi_read_reg E KP_SPI_REG_CONFIG st2
     = (val, log_event (EvCached KP_SPI_REG_CONFIG val) st2)
  /\ trace st (snd (kp_spi_read_reg E KP_SPI_REG_CONFIG st2))
     = [EvWriteq KP_SPI_REG_CONFIG val; EvWriteq idx' val';
        EvCached KP_SPI_REG_CONFIG val].
Proof.
  intros Hv Hi st1 st2.
  assert (Hc1 : conf_cache (ctl st1) = val) by (apply s64_small; exact Hv).
  assert (Hc2 : conf_cache (ctl st2) = val).
  { subst st2. rewrite write_reg_data by exact Hi. exact Hc1. }
  assert (Hr1 : kp_spi_read_reg E KP_SPI_REG_CONFIG st1
                = (val, log_event (EvCached KP_SPI_REG_CONFIG val) st1)).
  { rewrite read_reg_cached by (rewrite Hc1; lia).
    rewrite Hc1, u64_small by lia. reflexivity. }
  assert (Hr2 : kp_spi_read_reg E KP_SPI_REG_CONFIG st2
                = (val, log_event (EvCached KP_SPI_REG_CONFIG val) st2)).
  { rewrite read_reg_cached by (rewrite Hc2; lia).
    rewrite Hc2, u64_small by lia. reflexivity. }
  split; [exact Hr1 |]. split; [exact Hr2 |].
  rewrite Hr2. cbn [snd]. apply trace_of_trace.
  subst st2. rewrite write_reg_data by exact Hi. reflexivity.
Qed.

Lemma config_write_read_round_trip_witness :
  0 <= 0x4004070 < 2 ^ 63
  /\ fst (kp_spi_read_reg counting_device KP_SPI_REG_CONFIG
            (kp_spi_write_reg KP_SPI_REG_TXDATA 0xAB
               (kp_spi_write_reg KP_SPI_REG_CONFIG 0x4004070
                  (boot (new_controller_state kp0 new_device) (fun _ => 0)))))
     = 0x4004070.
Proof.
  split; [lia |].
  destruct (config_write_read_round_trip counting_device 0x4004070 KP_SPI_REG_TXDATA 0xAB
              (boot (new_controller_state kp0 new_device) (fun _ => 0)))
    as (_ & H & _).
  - lia.
  - discriminate.
  - rewrite H. reflexivity.
Defined.

(** The cache is a signed 64-bit copy of the unsigned value written: a
    Config word with bit 63 set leaves a negative number in it, which
    reads as "nothing cached", so the next Config read goes to the bus. *)
Theorem config_write_top_bit_disables_cache (E : platform) (val : Z) (st : machine) :
  2 ^ 63 <= val < 2 ^ 64 ->
  let st1 := kp_spi_write_reg KP_SPI_REG_CONFIG val st in
  conf_cache (ctl st1) = val - 2 ^ 64
  /\ kp_spi_read_reg E KP_SPI_REG_CONFIG st1 = readq E KP_SPI_REG_CONFIG st1.
Proof.
  intros Hv st1.
  assert (Hc : conf_cache (ctl st1) = val - 2 ^ 64).
  { subst st1. simpl. unfold s64. rewrite u64_small by lia.
    destruct (Z.ltb_spec val (2 ^ 63)); [lia | reflexivity]. }
  split; [exact Hc |].
  rewrite read_reg_bus by (right; rewrite Hc; lia). reflexivity.
Qed.

Lemma config_write_top_bit_disables_cache_witness :
  2 ^ 63 <= 2 ^ 63 < 2 ^ 64
  /\ kp_spi_read_reg counting_device KP_SPI_REG_CONFIG
       (kp_spi_write_reg KP_SPI_REG_CONFIG (2 ^ 63) (boot idle_state (fun _ => 0)))
     = (1, log_event (EvReadq KP_SPI_REG_CONFIG 1)
             (kp_spi_write_reg KP_SPI_REG_CONFIG (2 ^ 63) (boot idle_state (fun _ => 0)))).
Proof.
  split; [lia |].
  destruct (config_write_top_bit_disables_cache counting_device (2 ^ 63)
              (boot idle_state (fun _ => 0))) as (_ & H).
  - lia.
  - rewrite H. reflexivity.
Defined.

(** ** kp_spi_wait_for_reg_bit *)

Lemma polls_zero_mask idx timeout polls r :
  wait_polls idx 0 timeout polls r -> r = - ETIMEDOUT.
Proof.
  induction 1.
  - exfalso. apply H0. apply Z.land_0_r.
  - rewrite Z.land_0_r. reflexivity.
  - assumption.
Qed.

Lemma polls_counts idx bit timeout polls r :
  wait_polls idx bit timeout polls r ->
  length (filter is_reg_read polls) = S (count_relax polls)
  \/ length (filter is_reg_read polls) = S (S (count_relax polls)).
Proof.
  assert (Hrd : forall e v, reg_read e = Some (idx, v) ->
                            is_reg_read e = true /\ is_relax e = false).
  { intros e v H. unfold is_reg_read. rewrite H. destruct e; try discriminate; auto. }
  unfold count_relax. induction 1; simpl.
  - destruct (Hrd _ _ H) as [-> ->]. left. reflexivity.
  - destruct (Hrd _ _ H) as [-> ->]. destruct (Hrd _ _ H2) as [-> ->].
    right. reflexivity.
  - destruct (Hrd _ _ H) as [-> ->]. simpl. destruct IHwait_polls as [-> | ->]; auto.
Qed.

(** When the first read already shows the bit, the wait returns 0 after
    that one read: one sample of jiffies, no yield, no second read,
    whatever the fuel and the clock. *)
Theorem wait_succeeds_at_once (E : platform) (fuel : nat) (idx bit : Z) (st : machine) :
  let st0 := snd (jiffies E st) in
  Z.land (fst (kp_spi_read_reg E idx st0)) bit <> 0 ->
  exists st',
    kp_spi_wait_for_reg_bit E (S fuel) idx bit st = Some (0, st')
    /\ exists e,
         reg_read e = Some (idx, fst (kp_spi_read_reg E idx st0))
         /\ trace st st' =
            [EvJiffies (u64 (jiffies_of E (log st))); e; EvWaitRet idx bit 0].
Proof.
  intros st0 Hbit. unfold kp_spi_wait_for_reg_bit.
  rewrite bind_lift. fold st0. cbn [wait_loop]. unfold bind at 1.
  rewrite bind_lift.
  destruct (kp_spi_read_reg E idx st0) as [v st1] eqn:Hrd. cbn [fst snd] in *.
  destruct (read_reg_spec _ _ _ _ _ Hrd) as (e & -> & He & _).
  destruct (Z.eqb_spec (Z.land v bit) 0) as [Hz | _]; [contradiction |].
  unfold ret. rewrite bind_emit.
  eexists. split; [reflexivity |]. exists e. split; [exact He |].
  apply trace_of_trace. reflexivity.
Qed.

Lemma wait_succeeds_at_once_witness :
  Z.land (fst (kp_spi_read_reg (ready_device []) KP_SPI_REG_STATUS
                 (snd (jiffies (ready_device []) (boot idle_state (fun _ => 0))))))
    KP_SPI_REG_STATUS_TXS <> 0
  /\ exists st',
       kp_spi_wait_for_reg_bit (ready_device []) 1 KP_SPI_REG_STATUS
         KP_SPI_REG_STATUS_TXS (boot idle_state (fun _ => 0)) = Some (0, st').
Proof.
  assert (H : Z.land (fst (kp_spi_read_reg (ready_device []) KP_SPI_REG_STATUS
                 (snd (jiffies (ready_device []) (boot idle_state (fun _ => 0))))))
                KP_SPI_REG_STATUS_TXS <> 0) by (vm_compute; discriminate).
  split; [exact H |].
  destruct (wait_succeeds_at_once (ready_device []) 0 KP_SPI_REG_STATUS
              KP_SPI_REG_STATUS_TXS (boot idle_state (fun _ => 0)) H) as (st' & Hrun & _).
  exists st'. exact Hrun.
Defined.

(** A wait for the empty mask cannot succeed: it polls until the deadline
    has passed and returns -ETIMEDOUT. *)
Theorem wait_for_no_bit_times_out (E : platform) (N : nat) (idx : Z) (st : machine) :
  live_within E N ->
  exists st', kp_spi_wait_for_reg_bit E N idx 0 st = Some (- ETIMEDOUT, st').
Proof.
  intros Hlive. destruct (wait_total E N idx 0 st Hlive) as (r & st' & Hrun).
  destruct (wait_spec _ _ _ _ _ _ _ Hrun) as (polls & _ & Hp & _).
  apply polls_zero_mask in Hp. subst r. eauto.
Qed.

Lemma wait_for_no_bit_times_out_witness :
  live_within (ready_device []) 4
  /\ exists st',
       kp_spi_wait_for_reg_bit (ready_device []) 4 KP_SPI_REG_STATUS 0
         (boot idle_state (fun _ => 0)) = Some (- ETIMEDOUT, st').
Proof.
  split; [apply scripted_live |].
  apply (wait_for_no_bit_times_out (ready_device []) 4 KP_SPI_REG_STATUS
           (boot idle_state (fun _ => 0)) (scripted_live _ _)).
Defined.

(** A wait writes no register and reads none but the one it waits on; it
    leaves the session state and memory alone; and it yields the processor
    once between any two polls: the register is read once more than
    cpu_relax is called, or twice more when the wait ends with the
    re-check after the deadline. *)
Theorem wait_only_polls (E : platform) (fuel : nat) (idx bit : Z)
    (st : machine) (r : Z) (st' : machine) :
  kp_spi_wait_for_reg_bit E fuel idx bit st = Some (r, st') ->
  (forall i, writes_to i (trace st st') = [])
  /\ (forall i, i <> idx -> reads_of i (trace st st') = [])
  /\ (length (filter is_reg_read (trace st st')) = S (count_relax (trace st st'))
      \/ length (filter is_reg_read (trace st st')) = S (S (count_relax (trace st st'))))
  /\ ctl st' = ctl st /\ mem st' = mem st.
Proof.
  intros Hrun.
  destruct (wait_quiet _ _ _ _ _ _ _ Hrun) as (t & Ht & Hc & Hm & _ & Hw & _ & Hrd & _).
  destruct (wait_spec _ _ _ _ _ _ _ Hrun) as (polls & Ht' & Hp & _).
  rewrite (trace_of_trace _ _ _ Ht).
  split; [exact Hw |]. split; [exact Hrd |]. split; [| split; assumption].
  rewrite <- (trace_of_trace _ _ _ Ht), (trace_of_trace _ _ _ Ht').
  unfold count_relax. simpl. rewrite !filter_app, !length_app. simpl.
  rewrite !Nat.add_0_r. apply (polls_counts _ _ _ _ _ Hp).
Qed.

Lemma wait_only_polls_witness :
  exists r st',
    kp_spi_wait_for_reg_bit stuck_device 4 KP_SPI_REG_STATUS KP_SPI_REG_STATUS_EOT
      (boot idle_state (fun _ => 0)) = Some (r, st')
    /\ (forall i, writes_to i (trace (boot idle_state (fun _ => 0)) st') = []).
Proof.
  destruct (wait_total stuck_device 4 KP_SPI_REG_STATUS KP_SPI_REG_STATUS_EOT
              (boot idle_state (fun _ => 0)) (scripted_live _ _)) as (r & st' & Hrun).
  exists r, st'. split; [exact Hrun |].
  apply (wait_only_polls stuck_device 4 KP_SPI_REG_STATUS KP_SPI_REG_STATUS_EOT
           (boot idle_state (fun _ => 0)) r st' Hrun).
Defined.

(** ** What a run touches *)

Lemma preserves_refl keep whole st : preserves keep whole st st.
Proof. unfold preserves. destruct whole; auto. Qed.

Lemma preserves_trans keep whole st1 st2 st3 :
  preserves keep whole st1 st2 -> preserves keep whole st2 st3 ->
  preserves keep whole st1 st3.
Proof.
  unfold preserves. intros [H1 M1] [H2 M2]. split.
  - destruct whole; [congruence |].
    destruct H1 as (? & ? & ?), H2 as (? & ? & ?). repeat split; congruence.
  - intros a Ha. rewrite M2, M1 by assumption. reflexivity.
Qed.

Lemma preserves_weaken keep keep' whole whole' st st' :
  (forall a, keep' a -> keep a) -> (whole' = true -> whole = true) ->
  preserves keep whole st st' -> preserves keep' whole' st st'.
Proof.
  unfold preserves. intros Hk Hw [H M]. split; [| auto].
  destruct whole'.
  - rewrite Hw in H by reflexivity. exact H.
  - destruct whole; [rewrite H; auto | exact H].
Qed.

Lemma forallb_weaken {A} (P P' : A -> bool) l :
  (forall e, P e = true -> P' e = true) -> forallb P l = true -> forallb P' l = true.
Proof.
  intros H. rewrite !forallb_forall. auto.
Qed.

Section Confined.

Variable E : platform.
Variable I : kp_spi_controller_state -> Prop.
Variable P : event -> bool.
Variable keep : Z -> Prop.

Lemma confined_ret whole {A} (a : A) : confined I P (preserves keep whole) (ret a).
Proof.
  intros st a' st' Hi H. apply ret_inv in H. destruct H as [_ ->].
  exists []. split; [reflexivity |]. split; [reflexivity |].
  split; [apply preserves_refl | exact Hi].
Qed.

Lemma confined_bind whole {A B} (c : M A) (k : A -> M B) :
  confined I P (preserves keep whole) c ->
  (forall a, confined I P (preserves keep whole) (k a)) ->
  confined I P (preserves keep whole) (bind c k).
Proof.
  intros Hc Hk st b st' Hi H. mstep H a st1 Ha.
  destruct (Hc _ _ _ Hi Ha) as (t1 & Ht1 & Hp1 & Hr1 & Hi1).
  destruct (Hk a _ _ _ Hi1 H) as (t2 & Ht2 & Hp2 & Hr2 & Hi2).
  exists (t1 ++ t2). split; [eapply trace_of_trans; eassumption |].
  split; [rewrite forallb_app, Hp1, Hp2; reflexivity |].
  split; [eapply preserves_trans; eassumption | assumption].
Qed.

(** A step that only logs one event. *)
Lemma confined_logs whole {A} (f : machine -> A * machine) :
  (forall st, exists e, snd (f st) = log_event e st /\ P e = true) ->
  confined I P (preserves keep whole) (lift f).
Proof.
  intros Hf st a st' Hi H. apply lift_inv in H.
  destruct (Hf st) as (e & He & Hp). rewrite H in He. cbn [snd] in He. subst st'.
  exists [e]. split; [reflexivity |]. split; [simpl; rewrite Hp; reflexivity |].
  split; [| exact Hi]. unfold preserves. destruct whole; auto.
Qed.

Lemma confined_emit whole e : P e = true -> confined I P (preserves keep whole) (emit e).
Proof.
  intros Hp st a st' Hi H. apply emit_inv in H. subst st'.
  exists [e]. split; [reflexivity |]. split; [simpl; rewrite Hp; reflexivity |].
  split; [| exact Hi]. unfold preserves. destruct whole; auto.
Qed.

Lemma confined_jiffies whole :
  (forall j, P (EvJiffies j) = true) ->
  confined I P (preserves keep whole) (lift (jiffies E)).
Proof. intros Hp. apply confined_logs. intros st. eexists. split; [reflexivity | apply Hp]. Qed.

Lemma confined_read_data whole idx :
  idx <> KP_SPI_REG_CONFIG -> (forall v, P (EvReadq idx v) = true) ->
  confined I P (preserves keep whole) (lift (kp_spi_read_reg E idx)).
Proof.
  intros Hi Hp. apply confined_logs. intros st.
  rewrite read_reg_bus by (left; exact Hi). eexists. split; [reflexivity | apply Hp].
Qed.

Lemma confined_write_data whole idx val :
  idx <> KP_SPI_REG_CONFIG -> P (EvWriteq idx val) = true ->
  confined I P (preserves keep whole) (modify (kp_spi_write_reg idx val)).
Proof.
  intros Hi Hp st a st' Hinv H. apply modify_inv in H. subst st'.
  rewrite write_reg_data by exact Hi.
  exists [EvWriteq idx val]. split; [reflexivity |].
  split; [simpl; rewrite Hp; reflexivity |].
  split; [| exact Hinv]. unfold preserves. destruct whole; auto.
Qed.

Lemma confined_load whole a :
  confined I P (preserves keep whole) (fun st => Some (load8 st a, st)).
Proof.
  intros st v st' Hi H. inv H. exists []. split; [reflexivity |].
  split; [reflexivity |]. split; [apply preserves_refl | exact Hi].
Qed.

Lemma confined_store8 a v :
  ~ keep a -> confined I P (preserves keep true) (modify (store8 a v)).
Proof.
  intros Hk st u st' Hi H. apply modify_inv in H. subst st'.
  exists []. split; [reflexivity |]. split; [reflexivity |].
  split; [| exact Hi]. split; [reflexivity |].
  intros a' Ha'. simpl. destruct (Z.eqb_spec a' a); [subst; contradiction | reflexivity].
Qed.

End Confined.

Lemma confined_weaken {A} I P P' keep keep' whole whole' (c : M A) :
  (forall e, P e = true -> P' e = true) -> (forall a, keep' a -> keep a) ->
  (whole' = true -> whole = true) ->
  confined I P (preserves keep whole) c -> confined I P' (preserves keep' whole') c.
Proof.
  intros Hp Hk Hw Hc st a st' Hi H.
  destruct (Hc _ _ _ Hi H) as (t & Ht & Hf & Hr & Hi').
  exists t. split; [exact Ht |]. split; [eapply forallb_weaken; eassumption |].
  split; [eapply preserves_weaken; eassumption | exact Hi'].
Qed.

Section Footprints.

Variable E : platform.

Lemma confined_read_config P keep :
  (forall v, P (EvCached KP_SPI_REG_CONFIG v) = true) ->
  confined cached P (preserves keep false) (lift (kp_spi_read_reg E KP_SPI_REG_CONFIG)).
Proof.
  intros Hp st a st' Hi H. apply lift_inv in H.
  rewrite read_reg_cached in H by exact Hi. inv H.
  eexists [_]. split; [reflexivity |]. split; [simpl; rewrite Hp; reflexivity |].
  split; [| exact Hi]. unfold preserves. simpl. auto.
Qed.

Lemma confined_write_config P keep val :
  0 <= val < 2 ^ 63 -> P (EvWriteq KP_SPI_REG_CONFIG val) = true ->
  confined cached P (preserves keep false)
    (modify (kp_spi_write_reg KP_SPI_REG_CONFIG val)).
Proof.
  intros Hv Hp st a st' Hi H. apply modify_inv in H. subst st'.
  exists [EvWriteq KP_SPI_REG_CONFIG val]. split; [reflexivity |].
  split; [simpl; rewrite Hp; reflexivity |].
  split; [unfold preserves; simpl; auto |].
  unfold cached. simpl. rewrite s64_small by exact Hv. lia.
Qed.

Lemma confined_set_word_len P keep w :
  confined cached P (preserves keep false) (modify (set_word_len w)).
Proof.
  intros st a st' Hi H. apply modify_inv in H. subst st'.
  exists []. split; [reflexivity |]. split; [reflexivity |].
  split; [unfold preserves; simpl; auto | exact Hi].
Qed.

Lemma wait_loop_confined I fuel idx bit timeout :
  idx <> KP_SPI_REG_CONFIG ->
  confined I (wait_event idx) (preserves (fun _ => True) true)
    (wait_loop E fuel idx bit timeout).
Proof.
  intros Hi. induction fuel as [| fuel IH].
  - intros st a st' _ H. discriminate.
  - cbn [wait_loop]. apply confined_bind.
    + apply confined_read_data; [exact Hi | intros v; simpl; apply Z.eqb_refl].
    + intros v. destruct (Z.land v bit =? 0); [| apply confined_ret].
      apply confined_bind; [apply confined_jiffies; reflexivity |].
      intros j. destruct (time_after j timeout).
      * apply confined_bind.
        -- apply confined_read_data; [exact Hi | intros v2; simpl; apply Z.eqb_refl].
        -- intros v2. destruct (Z.land v2 bit =? 0); apply confined_ret.
      * apply confined_bind; [apply confined_emit; reflexivity |].
        intros _. exact IH.
Qed.

Lemma wait_confined I fuel idx bit :
  idx <> KP_SPI_REG_CONFIG ->
  confined I (wait_event idx) (preserves (fun _ => True) true)
    (kp_spi_wait_for_reg_bit E fuel idx bit).
Proof.
  intros Hi. unfold kp_spi_wait_for_reg_bit.
  apply confined_bind; [apply confined_jiffies; reflexivity |]. intros j0.
  apply confined_bind; [apply wait_loop_confined; exact Hi |]. intros r.
  apply confined_bind; [apply confined_emit; reflexivity |]. intros _.
  apply confined_ret.
Qed.

Lemma status_wait_confined I P keep whole fuel bit :
  (forall e, wait_event KP_SPI_REG_STATUS e = true -> P e = true) ->
  confined I P (preserves keep whole)
    (kp_spi_wait_for_reg_bit E fuel KP_SPI_REG_STATUS bit).
Proof.
  intros Hp. eapply confined_weaken; [exact Hp | | | apply wait_confined; discriminate].
  - intros a _. exact Logic.I.
  - reflexivity.
Qed.

Lemma wait_event_send e : wait_event KP_SPI_REG_STATUS e = true -> send_event e = true.
Proof. destruct e; simpl; auto; discriminate. Qed.

Lemma send_event_pio e : send_event e = true -> pio_event e = true.
Proof.
  destruct e; simpl; auto. intros H. rewrite H. reflexivity.
Qed.

Lemma pio_event_message e : pio_event e = true -> message_event e = true.
Proof.
  destruct e; simpl; auto; try discriminate.
  intros H. rewrite H. apply Bool.orb_true_r.
Qed.

Lemma tx_loop_confined I fuel :
  forall n tx p,
    confined I send_event (preserves (fun _ => True) true) (tx_loop E fuel n tx p).
Proof.
  induction n as [| n IH]; intros tx p; cbn [tx_loop]; [apply confined_ret |].
  apply confined_bind; [apply confined_load |]. intros val.
  apply confined_bind; [apply status_wait_confined, wait_event_send |]. intros r.
  destruct (r <? 0); [apply confined_ret |].
  apply confined_bind; [apply confined_write_data; [discriminate | reflexivity] |].
  intros _. apply IH.
Qed.

Lemma rx_loop_confined I fuel :
  forall n rx p,
    confined I pio_event
      (preserves (fun a => ~ (rx <= a < rx + Z.of_nat n)) true)
      (rx_loop E fuel n rx p).
Proof.
  induction n as [| n IH]; intros rx p; cbn [rx_loop]; [apply confined_ret |].
  apply confined_bind; [apply confined_write_data; [discriminate | reflexivity] |].
  intros _.
  apply confined_bind.
  { apply status_wait_confined. intros e He. apply send_event_pio, wait_event_send, He. }
  intros r. destruct (r <? 0); [apply confined_ret |].
  apply confined_bind.
  { apply confined_read_data; [discriminate | intros v; reflexivity]. }
  intros test.
  apply confined_bind; [apply confined_store8; intros Hk; apply Hk; lia |].
  intros _.
  eapply confined_weaken; [| | | apply IH]; [auto | | reflexivity].
  cbv beta. intros a Ha. lia.
Qed.

Lemma pio_confined I fuel t :
  confined I pio_event
    (preserves (fun a => forall rx, tx_buf t = None -> rx_buf t = Some rx ->
                                    ~ (rx <= a < rx + len t)) true)
    (kp_spi_txrx_pio E fuel t).
Proof.
  unfold kp_spi_txrx_pio. apply confined_bind.
  - destruct (tx_buf t) as [tx |]; [| destruct (rx_buf t) as [rx |]].
    + eapply confined_weaken; [apply send_event_pio | | | apply tx_loop_confined];
        [intros a _; exact Logic.I | reflexivity].
    + eapply confined_weaken; [| | | apply rx_loop_confined];
        [auto | | reflexivity].
      cbv beta. intros a Ha. specialize (Ha rx eq_refl eq_refl). lia.
    + apply confined_ret.
  - intros [p out]. destruct out; [apply confined_ret |].
    apply confined_bind; [| intros _; apply confined_ret].
    apply status_wait_confined. intros e He. apply send_event_pio, wait_event_send, He.
Qed.

Lemma pio_send_confined I fuel t tx :
  tx_buf t = Some tx ->
  confined I send_event (preserves (fun _ => True) true) (kp_spi_txrx_pio E fuel t).
Proof.
  intros Htx. unfold kp_spi_txrx_pio. rewrite Htx. apply confined_bind.
  - apply tx_loop_confined.
  - intros [p out]. destruct out; [apply confined_ret |].
    apply confined_bind; [| intros _; apply confined_ret].
    apply status_wait_confined, wait_event_send.
Qed.

Lemma validate_confined I keep ts :
  confined I message_event (preserves keep false) (validate ts).
Proof.
  induction ts as [| t ts IH]; cbn [validate]; [apply confined_ret |].
  destruct (bad_speed_or_buffers t); [| destruct (below_min_speed t)]; [| | exact IH];
    (apply confined_bind; [apply confined_emit; reflexivity | intros _]);
    (apply confined_bind; [apply confined_emit; reflexivity | intros _]);
    apply confined_ret.
Qed.

Lemma outside_rx_cons t ts a : outside_rx (t :: ts) a -> outside_rx ts a.
Proof. unfold outside_rx. intros H t' rx Hin. apply H. right. exact Hin. Qed.

Lemma do_transfers_confined fuel spidev :
  forall ts acc,
    confined cached message_event (preserves (outside_rx ts) false)
      (do_transfers E fuel spidev ts acc).
Proof.
  induction ts as [| t ts IH]; intros acc; cbn [do_transfers]; [apply confined_ret |].
  destruct (is_null (tx_buf t) && is_null (rx_buf t) && negb (len t =? 0));
    [apply confined_ret |].
  apply confined_bind.
  - destruct (negb (len t =? 0)); [| apply confined_ret].
    apply confined_bind; [apply confined_read_config; intros v; reflexivity |].
    intros reg.
    apply confined_bind; [apply confined_set_word_len |]. intros _.
    apply confined_bind.
    { apply confined_write_config; [| reflexivity].
      destruct (transfer_config_keeps spidev t reg) as [Hr _]. lia. }
    intros _.
    apply confined_bind; [| intros count; apply confined_ret].
    eapply confined_weaken; [apply pio_event_message | | | apply pio_confined].
    + intros a Ha rx Htx Hrx. apply (Ha t rx); [left; reflexivity | assumption ..].
    + discriminate.
  - intros [brk acc']. destruct brk; [apply confined_ret |].
    apply confined_bind.
    + destruct (negb (delay_usecs t =? 0)); [apply confined_emit; reflexivity |
                                              apply confined_ret].
    + intros _. eapply confined_weaken; [| | | apply IH];
        [auto | apply outside_rx_cons | auto].
Qed.

Lemma message_body_confined fuel spidev m :
  confined cached message_event (preserves (outside_rx (transfers m)) false)
    (message_body E fuel spidev m).
Proof.
  unfold message_body.
  destruct (transfers m) as [| t0 ts0] eqn:Hts; [apply confined_ret |].
  rewrite <- Hts. clear Hts t0 ts0.
  apply confined_bind; [apply validate_confined |]. intros v.
  destruct (v <? 0); [apply confined_ret |].
  apply confined_bind; [apply confined_read_config; intros x; reflexivity |].
  intros reg.
  apply confined_bind.
  { apply confined_write_config; [| reflexivity].
    pose proof (set_field_range spi_en 1 (u32 reg)
                  (config_fields_ok spi_en ltac:(in_fields)) (u32_range reg)). lia. }
  intros _.
  apply confined_bind.
  { apply status_wait_confined. intros e He.
    apply pio_event_message, send_event_pio, wait_event_send, He. }
  intros r. destruct (r <? 0).
  - apply confined_bind; [apply confined_emit; reflexivity |]. intros _.
    apply confined_bind; [apply confined_emit; reflexivity |]. intros _.
    apply confined_ret.
  - apply confined_bind; [apply do_transfers_confined |]. intros [s alen].
    apply confined_bind; [apply confined_read_config; intros x; reflexivity |].
    intros reg2.
    apply confined_bind.
    { apply confined_write_config; [| reflexivity].
      pose proof (set_field_range spi_en 0 (u32 reg2)
                    (config_fields_ok spi_en ltac:(in_fields)) (u32_range reg2)). lia. }
    intros _.
    apply confined_bind; [apply confined_emit; reflexivity |]. intros _.
    apply confined_ret.
Qed.

End Footprints.

(** ** kp_spi_txrx_pio: what it touches, and its edges *)

(** The byte transfer primitive reads only Status and RX-Data and writes
    only TX-Data - a transfer with a send buffer never reads RX-Data -
    and never uses the Config cache; it leaves the session state as it
    was, and writes memory nowhere but in the receive buffer of a
    transfer that has no send buffer. *)
Theorem txrx_pio_footprint (E : platform) (fuel : nat) (t : spi_transfer)
    (st : machine) (count : Z) (st' : machine) :
  kp_spi_txrx_pio E fuel t st = Some (count, st') ->
  forallb pio_event (trace st st') = true
  /\ (tx_buf t <> None -> forallb send_event (trace st st') = true)
  /\ ctl st' = ctl st
  /\ (forall a,
        (forall rx, tx_buf t = None -> rx_buf t = Some rx -> ~ (rx <= a < rx + len t)) ->
        mem st' a = mem st a).
Proof.
  intros Hrun.
  destruct (pio_confined E (fun _ => True) fuel t st count st' Logic.I Hrun)
    as (tr & Ht & Hp & [Hc Hm] & _).
  rewrite (trace_of_trace _ _ _ Ht).
  split; [exact Hp |]. split; [| split; assumption].
  intros Htx. destruct (tx_buf t) as [tx |] eqn:Heq; [| congruence].
  destruct (pio_send_confined E (fun _ => True) fuel t tx Heq st count st' Logic.I Hrun)
    as (tr' & Ht' & Hp' & _).
  rewrite <- (trace_of_trace _ _ _ Ht), (trace_of_trace _ _ _ Ht'). exact Hp'.
Qed.

Lemma txrx_pio_footprint_witness :
  exists count st',
    kp_spi_txrx_pio (ready_device [0xAA; 0xBB]) 4 (xfer None (Some 100) 2)
      (boot idle_state (fun _ => 0)) = Some (count, st')
    /\ forallb pio_event (trace (boot idle_state (fun _ => 0)) st') = true
    /\ mem st' 102 = 0.
Proof.
  destruct (pio_total (ready_device [0xAA; 0xBB]) 4 (xfer None (Some 100) 2)
              (boot idle_state (fun _ => 0)) (scripted_live _ _)) as (count & st' & Hrun).
  exists count, st'. split; [exact Hrun |].
  destruct (txrx_pio_footprint _ _ _ _ _ _ Hrun) as (Hp & _ & _ & Hm).
  split; [exact Hp |].
  rewrite Hm; [reflexivity |].
  intros rx _ Hrx. inv Hrx. simpl. lia.
Defined.

(** With nothing to move - a length of zero, or neither buffer - the
    primitive touches no data register and no memory: it performs the one
    trailing end-of-transfer wait and returns 0, whatever that wait
    returns. *)
Theorem txrx_pio_nothing_to_move (E : platform) (N : nat) (t : spi_transfer)
    (st : machine) :
  live_within E N ->
  len t = 0 \/ (tx_buf t = None /\ rx_buf t = None) ->
  exists r st',
    kp_spi_txrx_pio E N t st = Some (0, st')
    /\ kp_spi_wait_for_reg_bit E N KP_SPI_REG_STATUS KP_SPI_REG_STATUS_EOT st
       = Some (r, st')
    /\ filter is_data (trace st st') = []
    /\ wait_rets (trace st st') = [(KP_SPI_REG_STATUS, KP_SPI_REG_STATUS_EOT, r)]
    /\ ctl st' = ctl st /\ mem st' = mem st.
Proof.
  intros Hlive Hcase.
  destruct (wait_total E N KP_SPI_REG_STATUS KP_SPI_REG_STATUS_EOT st Hlive)
    as (r & st' & Hw).
  exists r, st'.
  assert (Hloop : match tx_buf t, rx_buf t with
                  | Some tx, _ => tx_loop E N (Z.to_nat (len t)) tx 0
                  | None, Some rx => rx_loop E N (Z.to_nat (len t)) rx 0
                  | None, None => ret (0, false)
                  end st = Some ((0, false), st)).
  { destruct Hcase as [Hz | [Htx Hrx]].
    - rewrite Hz. destruct (tx_buf t); [reflexivity |].
      destruct (rx_buf t); reflexivity.
    - rewrite Htx, Hrx. reflexivity. }
  split.
  - unfold kp_spi_txrx_pio. rewrite (bind_some _ _ _ _ _ Hloop).
    rewrite (bind_some _ _ _ _ _ Hw). reflexivity.
  - split; [exact Hw |].
    destruct (wait_quiet _ _ _ _ _ _ _ Hw) as (tw & Ht & Hc & Hm & _ & _ & Hwr & _ & Hd & _).
    rewrite (trace_of_trace _ _ _ Ht).
    split; [apply Hd; discriminate |]. split; [exact Hwr |]. split; assumption.
Qed.

Lemma txrx_pio_nothing_to_move_witness :
  live_within stuck_device 4
  /\ exists r st',
       kp_spi_txrx_pio stuck_device 4 (xfer (Some 100) None 0)
         (boot idle_state (fun _ => 0)) = Some (0, st')
       /\ r = - ETIMEDOUT
       /\ wait_rets (trace (boot idle_state (fun _ => 0)) st')
          = [(KP_SPI_REG_STATUS, KP_SPI_REG_STATUS_EOT, r)].
Proof.
  split; [apply scripted_live |].
  destruct (txrx_pio_nothing_to_move stuck_device 4 (xfer (Some 100) None 0)
              (boot idle_state (fun _ => 0)) (scripted_live _ _))
    as (r & st' & Hrun & Hw & _ & Hwr & _).
  - left. reflexivity.
  - exists r, st'. split; [exact Hrun |]. split; [| exact Hwr].
    vm_compute in Hw. inv Hw. reflexivity.
Defined.

(** A receive that is cut short by a timeout has clocked one unit more
    than it has read: TX-Data has been written count + 1 times, RX-Data
    read count times, and the pulse of the unit that timed out is lost. *)
Theorem rx_timeout_loses_a_pulse (E : platform) (fuel : nat) (t : spi_transfer)
    (rx : Z) (st : machine) (count : Z) (st' : machine) :
  wf_transfer t -> tx_buf t = None -> rx_buf t = Some rx ->
  kp_spi_txrx_pio E fuel t st = Some (count, st') ->
  count <> len t ->
  0 <= count < len t
  /\ writes_to KP_SPI_REG_TXDATA (trace st st') = repeat 0 (S (Z.to_nat count))
  /\ length (reads_of KP_SPI_REG_RXDATA (trace st st')) = Z.to_nat count
  /\ last (wait_rets (trace st st')) (0, 0, 0)
     = (KP_SPI_REG_STATUS, KP_SPI_REG_STATUS_RXS, - ETIMEDOUT).
Proof.
  intros Hwf Htx Hrx Hrun Hne.
  destruct (pio_rx_spec E fuel t rx st count st' Htx Hrx Hwf Hrun)
    as (tr & vs & out & r & Ht & Hc & _ & Hd & _ & Hwt & Hout).
  rewrite (trace_of_trace _ _ _ Ht).
  destruct out; [| contradiction].
  destruct (clocked_reads vs [EvWriteq KP_SPI_REG_TXDATA 0]) as [Hcw Hcr].
  subst count. rewrite Nat2Z.id.
  split; [lia |]. split; [| split].
  - rewrite <- writes_to_data, Hd, Hcw. simpl.
    rewrite <- repeat_cons. reflexivity.
  - rewrite <- reads_of_data, Hd, Hcr. simpl. rewrite app_nil_r. reflexivity.
  - rewrite Hwt. apply last_last.
Qed.

Lemma rx_timeout_loses_a_pulse_witness :
  exists count st',
    kp_spi_txrx_pio eot_only_device 4 (xfer None (Some 100) 3)
      (boot idle_state (fun _ => 0)) = Some (count, st')
    /\ count = 0
    /\ writes_to KP_SPI_REG_TXDATA (trace (boot idle_state (fun _ => 0)) st') = [0].
Proof.
  destruct (pio_total eot_only_device 4 (xfer None (Some 100) 3)
              (boot idle_state (fun _ => 0)) (scripted_live _ _)) as (count & st' & Hrun).
  exists count, st'. split; [exact Hrun |].
  assert (Hc : count = 0).
  { assert (Hrun' := Hrun). vm_compute in Hrun'. inv Hrun'. reflexivity. }
  split; [exact Hc |].
  destruct (rx_timeout_loses_a_pulse eot_only_device 4 (xfer None (Some 100) 3) 100
              (boot idle_state (fun _ => 0)) count st') as (_ & Hw & _).
  - unfold wf_transfer. simpl. lia.
  - reflexivity.
  - reflexivity.
  - exact Hrun.
  - rewrite Hc. discriminate.
  - rewrite Hw, Hc. reflexivity.
Defined.

Lemma char_to_u64_low_byte E b :
  0 <= b < 256 ->
  u8 (char_to_u64 E b) = b
  /\ (char_to_u64 E b = b
      \/ (char_signed E = true /\ 128 <= b /\ char_to_u64 E b = b + (2 ^ 64 - 256))).
Proof.
  intros Hb. unfold char_to_u64, s8.
  assert (Hu : u8 b = b) by (unfold u8; apply Z.mod_small; lia).
  destruct (char_signed E); rewrite ?Hu; [| split; [reflexivity | left; reflexivity]].
  destruct (Z.ltb_spec b (2 ^ 7)).
  - rewrite u64_small by lia. split; [exact Hu | left; reflexivity].
  - assert (H64 : u64 (b - 2 ^ 8) = b + (2 ^ 64 - 256)).
    { unfold u64. rewrite <- (Z_mod_plus_full (b - 2 ^ 8) 1 (2 ^ 64)).
      rewrite Z.mod_small by lia. lia. }
    rewrite H64. split.
    + unfold u8. replace (b + (2 ^ 64 - 256)) with (b + (2 ^ 56 - 1) * 2 ^ 8) by lia.
      rewrite Z_mod_plus_full. apply Z.mod_small. lia.
    + right. split; [reflexivity |]. split; [lia | reflexivity].
Qed.

(** A send writes the bytes of the buffer, in order, one per write of
    TX-Data: the low byte of every value written is the buffer byte, and
    the value is that byte itself or - where plain char is signed and the
    byte is 0x80 or more - the byte with the upper 56 bits set. *)
Theorem send_writes_buffer_bytes (E : platform) (fuel : nat) (t : spi_transfer)
    (tx : Z) (st : machine) (count : Z) (st' : machine) :
  wf_transfer t -> tx_buf t = Some tx ->
  kp_spi_txrx_pio E fuel t st = Some (count, st') ->
  map u8 (writes_to KP_SPI_REG_TXDATA (trace st st'))
  = map (fun i => load8 st (tx + Z.of_nat i)) (seq 0 (Z.to_nat count))
  /\ Forall (fun v => 0 <= v < 256
                      \/ (char_signed E = true /\ 2 ^ 64 - 128 <= v < 2 ^ 64))
       (writes_to KP_SPI_REG_TXDATA (trace st st')).
Proof.
  intros Hwf Htx Hrun.
  destruct (pio_tx_spec E fuel t tx st count st' Htx Hwf Hrun)
    as (tr & k & out & r & Ht & Hc & _ & _ & Hw & _).
  rewrite (trace_of_trace _ _ _ Ht), Hw, Hc, Nat2Z.id.
  assert (Hb : forall a, 0 <= load8 st a < 256) by (intros a; apply u8_range).
  split.
  - rewrite map_map. apply map_ext. intros i.
    apply (char_to_u64_low_byte E _ (Hb _)).
  - apply Forall_forall. intros v Hv. apply in_map_iff in Hv.
    destruct Hv as (i & <- & _).
    destruct (char_to_u64_low_byte E _ (Hb (tx + Z.of_nat i))) as [_ [-> | (Hs & H128 & ->)]].
    + left. apply Hb.
    + right. split; [exact Hs |]. specialize (Hb (tx + Z.of_nat i)). lia.
Qed.

Lemma send_writes_buffer_bytes_witness :
  exists count st',
    kp_spi_txrx_pio (ready_device []) 4 (xfer (Some 0x7F) None 3)
      (boot idle_state (fun a => a)) = Some (count, st')
    /\ writes_to KP_SPI_REG_TXDATA (trace (boot idle_state (fun a => a)) st')
       = [0x7F; 0xFFFFFFFFFFFFFF80; 0xFFFFFFFFFFFFFF81]
    /\ map u8 (writes_to KP_SPI_REG_TXDATA (trace (boot idle_state (fun a => a)) st'))
       = map (fun i => load8 (boot idle_state (fun a => a)) (0x7F + Z.of_nat i))
           (seq 0 (Z.to_nat count)).
Proof.
  destruct (pio_total (ready_device []) 4 (xfer (Some 0x7F) None 3)
              (boot idle_state (fun a => a)) (scripted_live _ _)) as (count & st' & Hrun).
  exists count, st'. split; [exact Hrun |]. split.
  - assert (Hrun' := Hrun). vm_compute in Hrun'. inv Hrun'. vm_compute. reflexivity.
  - apply (send_writes_buffer_bytes (ready_device []) 4 (xfer (Some 0x7F) None 3) 0x7F
             (boot idle_state (fun a => a)) count st').
    + unfold wf_transfer. simpl. lia.
    + reflexivity.
    + exact Hrun.
Defined.

(** ** kp_spi_setup: outcomes *)

Lemma setup_config_range spidev sc0 : 0 <= setup_config spidev sc0 < 2 ^ 32.
Proof.
  unfold setup_config.
  repeat (apply set_field_range; [apply config_fields_ok; in_fields |]).
  apply u32_range.
Qed.

Lemma setup_inv (kpspi : kp_spi) (kzalloc_ok : bool) (sc0 : Z)
    (spidev : spi_device) (m : Z -> Z) (l : list event)
    (r : Z) (d' : spi_device) (l' : list event) :
  kp_spi_setup kpspi kzalloc_ok sc0 spidev m l = (r, d', l') ->
  (r = - ENOMEM <-> controller_state spidev = None /\ kzalloc_ok = false)
  /\ (r = - ENOMEM -> d' = spidev /\ l' = l)
  /\ (r <> - ENOMEM ->
      r = 0
      /\ l' = EvWriteq KP_SPI_REG_CONFIG (setup_config spidev sc0) :: l
      /\ dev_chip_select d' = dev_chip_select spidev
      /\ dev_bits_per_word d' = dev_bits_per_word spidev
      /\ exists c,
           controller_state d' = Some c
           /\ conf_cache c = setup_config spidev sc0
           /\ (forall c0, controller_state spidev = Some c0 ->
                 base c = base c0 /\ phys c = phys c0
                 /\ chip_select c = chip_select c0 /\ word_len c = word_len c0)).
Proof.
  unfold kp_spi_setup. intros H.
  assert (Hv : s64 (setup_config spidev sc0) = setup_config spidev sc0).
  { apply s64_small. pose proof (setup_config_range spidev sc0). lia. }
  destruct (controller_state spidev) as [c0 |] eqn:Hcs; [| destruct kzalloc_ok].
  - inv H. split; [split; [discriminate | intros [Hx _]; discriminate] |].
    split; [discriminate |]. intros _.
    repeat (split; [reflexivity |]).
    eexists. split; [reflexivity |]. split; [exact Hv |].
    intros c Hc. inv Hc. simpl. auto.
  - inv H. split; [split; [discriminate | intros [_ Hx]; discriminate] |].
    split; [discriminate |]. intros _.
    repeat (split; [reflexivity |]).
    eexists. split; [reflexivity |]. split; [exact Hv |].
    intros c Hc. discriminate.
  - inv H. split; [split; auto |]. split; [auto |].
    intros Hx. contradiction.
Qed.

(** kp_spi_setup fails only when there is no session state yet and the
    allocation fails: it then returns -ENOMEM, writes nothing and leaves
    the device as it was.  In every other case it returns 0 after exactly
    one bus write, of the Config word, and the device has a session state
    whose cache holds that word; a state that existed before keeps its
    base, phys, chip_select and word_len. *)
Theorem setup_outcomes (kpspi : kp_spi) (kzalloc_ok : bool) (sc0 : Z)
    (spidev : spi_device) (m : Z -> Z) (l : list event)
    (r : Z) (d' : spi_device) (l' : list event) :
  kp_spi_setup kpspi kzalloc_ok sc0 spidev m l = (r, d', l') ->
  (r = - ENOMEM <-> controller_state spidev = None /\ kzalloc_ok = false)
  /\ (r = - ENOMEM -> d' = spidev /\ l' = l)
  /\ (r <> - ENOMEM ->
      r = 0
      /\ l' = EvWriteq KP_SPI_REG_CONFIG (setup_config spidev sc0) :: l
      /\ dev_chip_select d' = dev_chip_select spidev
      /\ dev_bits_per_word d' = dev_bits_per_word spidev
      /\ exists c,
           controller_state d' = Some c
           /\ conf_cache c = setup_config spidev sc0
           /\ (forall c0, controller_state spidev = Some c0 ->
                 base c = base c0 /\ phys c = phys c0
                 /\ chip_select c = chip_select c0 /\ word_len c = word_len c0)).
Proof. apply setup_inv. Qed.

Lemma setup_outcomes_witness :
  kp_spi_setup kp0 false 0 new_device (fun _ => 0) [] = (- ENOMEM, new_device, [])
  /\ (- ENOMEM = - ENOMEM <-> controller_state new_device = None /\ false = false).
Proof.
  assert (H : kp_spi_setup kp0 false 0 new_device (fun _ => 0) []
              = (- ENOMEM, new_device, [])) by reflexivity.
  split; [exact H |].
  apply (setup_outcomes kp0 false 0 new_device (fun _ => 0) [] _ _ _ H).
Defined.

(** A second call of kp_spi_setup allocates nothing, whether memory is
    available or not: it writes the Config word again and leaves the
    device exactly as the first call left it when the word is the same;
    in general only the cache follows the word written. *)
Theorem setup_again (kpspi : kp_spi) (ok ok' : bool) (sc0 sc0' : Z)
    (spidev : spi_device) (m : Z -> Z) (l : list event)
    (d1 : spi_device) (l1 : list event) :
  kp_spi_setup kpspi ok sc0 spidev m l = (0, d1, l1) ->
  exists c1,
    controller_state d1 = Some c1
    /\ kp_spi_setup kpspi ok' sc0' d1 m l1
       = (0,
          {| dev_chip_select := dev_chip_select spidev;
             dev_bits_per_word := dev_bits_per_word spidev;
             controller_state :=
               Some {| base := base c1; phys := phys c1;
                       chip_select := chip_select c1; word_len := word_len c1;
                       conf_cache := setup_config spidev sc0' |} |},
          EvWriteq KP_SPI_REG_CONFIG (setup_config spidev sc0') :: l1)
    /\ (setup_config spidev sc0' = setup_config spidev sc0 ->
        kp_spi_setup kpspi ok' sc0' d1 m l1
        = (0, d1, EvWriteq KP_SPI_REG_CONFIG (setup_config spidev sc0) :: l1)).
Proof.
  intros H.
  destruct (setup_inv _ _ _ _ _ _ _ _ _ H) as (_ & _ & Hok).
  destruct Hok as (_ & Hl & Hcs & Hbpw & c1 & Hc1 & Hcache & _); [discriminate |].
  assert (Hv : forall x, s64 (setup_config spidev x) = setup_config spidev x).
  { intros x. apply s64_small. pose proof (setup_config_range spidev x). lia. }
  assert (Hsame : forall x, setup_config d1 x = setup_config spidev x).
  { intros x. unfold setup_config. rewrite Hcs, Hbpw. reflexivity. }
  assert (Hrun : kp_spi_setup kpspi ok' sc0' d1 m l1
          = (0,
             {| dev_chip_select := dev_chip_select spidev;
                dev_bits_per_word := dev_bits_per_word spidev;
                controller_state :=
                  Some {| base := base c1; phys := phys c1;
                          chip_select := chip_select c1; word_len := word_len c1;
                          conf_cache := setup_config spidev sc0' |} |},
             EvWriteq KP_SPI_REG_CONFIG (setup_config spidev sc0') :: l1)).
  { unfold kp_spi_setup. rewrite Hc1, Hsame, Hcs, Hbpw. simpl.
    rewrite Hv. reflexivity. }
  exists c1. split; [exact Hc1 |]. split; [exact Hrun |].
  intros Heq. rewrite Hrun, Heq. f_equal. f_equal.
  destruct d1 as [dcs dbpw dst]. simpl in *. subst dcs dbpw dst.
  f_equal. f_equal. destruct c1; simpl in *. subst. reflexivity.
Qed.

Lemma setup_again_witness :
  kp_spi_setup kp0 true 8 new_device (fun _ => 0) []
  = (0, snd (fst (kp_spi_setup kp0 true 8 new_device (fun _ => 0) [])),
     [EvWriteq KP_SPI_REG_CONFIG 0x4078])
  /\ snd (kp_spi_setup kp0 false 8
            (snd (fst (kp_spi_setup kp0 true 8 new_device (fun _ => 0) [])))
            (fun _ => 0) [EvWriteq KP_SPI_REG_CONFIG 0x4078])
     = [EvWriteq KP_SPI_REG_CONFIG 0x4078; EvWriteq KP_SPI_REG_CONFIG 0x4078].
Proof.
  assert (H : kp_spi_setup kp0 true 8 new_device (fun _ => 0) []
              = (0, snd (fst (kp_spi_setup kp0 true 8 new_device (fun _ => 0) [])),
                 [EvWriteq KP_SPI_REG_CONFIG 0x4078])) by reflexivity.
  split; [exact H |].
  destruct (setup_again kp0 true false 8 8 new_device (fun _ => 0) [] _ _ H)
    as (c1 & _ & Hrun & _).
  rewrite Hrun. reflexivity.
Defined.

(** After a successful kp_spi_setup the cache is populated with the word
    written, a u32: the next read of Config returns that word and does not
    reach the bus. *)
Theorem setup_populates_cache (E : platform) (kpspi : kp_spi) (ok : bool) (sc0 : Z)
    (spidev : spi_device) (m : Z -> Z) (l : list event)
    (d' : spi_device) (l' : list event) :
  kp_spi_setup kpspi ok sc0 spidev m l = (0, d', l') ->
  exists c,
    controller_state d' = Some c
    /\ 0 <= conf_cache c < 2 ^ 32
    /\ kp_spi_read_reg E KP_SPI_REG_CONFIG {| ctl := c; mem := m; log := l' |}
       = (setup_config spidev sc0,
          {| ctl := c; mem := m;
             log := EvCached KP_SPI_REG_CONFIG (setup_config spidev sc0) :: l' |}).
Proof.
  intros H.
  destruct (setup_inv _ _ _ _ _ _ _ _ _ H) as (_ & _ & Hok).
  destruct Hok as (_ & _ & _ & _ & c & Hc & Hcache & _); [discriminate |].
  assert (Hr : 0 <= setup_config spidev sc0 < 2 ^ 32).
  { pose proof (setup_config_range spidev sc0). lia. }
  exists c. split; [exact Hc |]. split; [rewrite Hcache; exact Hr |].
  rewrite read_reg_cached by (simpl; rewrite Hcache; lia).
  simpl. rewrite Hcache, u64_small by lia. reflexivity.
Qed.

Lemma setup_populates_cache_witness :
  exists d' c,
    kp_spi_setup kp0 true 8 new_device (fun _ => 0) []
    = (0, d', [EvWriteq KP_SPI_REG_CONFIG 0x4078])
    /\ controller_state d' = Some c
    /\ fst (kp_spi_read_reg counting_device KP_SPI_REG_CONFIG
              {| ctl := c; mem := fun _ => 0;
                 log := [EvWriteq KP_SPI_REG_CONFIG 0x4078] |}) = 0x4078.
Proof.
  assert (H : kp_spi_setup kp0 true 8 new_device (fun _ => 0) []
              = (0, snd (fst (kp_spi_setup kp0 true 8 new_device (fun _ => 0) [])),
                 [EvWriteq KP_SPI_REG_CONFIG 0x4078])) by reflexivity.
  destruct (setup_populates_cache counting_device kp0 true 8 new_device (fun _ => 0) []
              _ _ H) as (c & Hc & _ & Hrd).
  exists (snd (fst (kp_spi_setup kp0 true 8 new_device (fun _ => 0) []))), c.
  split; [exact H |]. split; [exact Hc |]. rewrite Hrd. reflexivity.
Defined.

(** ** kp_spi_bytes_per_word *)

(** kp_spi_bytes_per_word returns 1, 2 or 4.  For a word length up to
    32 bits the result is the smallest of the three that holds the word;
    for a longer word it is 4, which does not hold it.  Together these
    fix the result for every word length. *)
Theorem bytes_per_word_fits (w : Z) :
  let b := kp_spi_bytes_per_word w in
  (b = 1 \/ b = 2 \/ b = 4)
  /\ (w <= 32 -> w <= 8 * b)
  /\ (forall b', b' = 1 \/ b' = 2 \/ b' = 4 -> w <= 8 * b' -> b <= b')
  /\ (32 < w -> b = 4 /\ 8 * b < w).
Proof.
  unfold kp_spi_bytes_per_word. cbv zeta.
  destruct (Z.leb_spec w 8); [| destruct (Z.leb_spec w 16)].
  - split; [auto |]. split; [lia |]. split; [| lia].
    intros b' [-> | [-> | ->]] _; lia.
  - split; [auto |]. split; [lia |]. split; [| lia].
    intros b' [-> | [-> | ->]] Hb; lia.
  - split; [auto |]. split; [lia |]. split; [| lia].
    intros b' [-> | [-> | ->]] Hb; lia.
Qed.

(** ** kp_spi_transfer_one_message: footprint, delays, the cache at the end *)

Lemma udelays_app a b : udelays (a ++ b) = udelays a ++ udelays b.
Proof.
  induction a as [| e a IH]; simpl; [reflexivity |].
  destruct e; try exact IH. simpl. congruence.
Qed.

Lemma pio_events_quiet t :
  forallb pio_event t = true ->
  udelays t = [] /\ writes_to KP_SPI_REG_CONFIG t = [] /\ ~ In EvFinalize t.
Proof.
  induction t as [| e t IH]; simpl; [intros _; repeat split; auto |].
  intros H. apply andb_prop in H. destruct H as [He Ht].
  destruct (IH Ht) as (Hu & Hw & Hf).
  destruct e; simpl in He; try discriminate; simpl;
    (split; [exact Hu |]); (split; [| intros [Hx | Hx]; [discriminate | auto]]);
    try exact Hw.
  apply Z.eqb_eq in He. subst idx. exact Hw.
Qed.

Lemma wait_events_quiet t :
  forallb (wait_event KP_SPI_REG_STATUS) t = true ->
  udelays t = [] /\ filter is_write_event t = [] /\ filter is_data t = [].
Proof.
  induction t as [| e t IH]; simpl; [intros _; repeat split; auto |].
  intros H. apply andb_prop in H. destruct H as [He Ht].
  destruct (IH Ht) as (Hu & Hw & Hd).
  destruct e; simpl in He; try discriminate; simpl; repeat split; try assumption.
  apply Z.eqb_eq in He. subst idx. exact Hd.
Qed.

Lemma udelays_read e i v rest :
  reg_read e = Some (i, v) -> udelays (e :: rest) = udelays rest.
Proof. destruct e; simpl; intros H; try discriminate; reflexivity. Qed.

Section MessageEnd.

Variable E : platform.

(** A validated run, cut at the outcome of the up-front wait. *)
Lemma message_body_end fuel spidev m st res st' :
  passes_validation m = true ->
  message_body E fuel spidev m st = Some (res, st') ->
  exists e0 reg r st_w tw,
    reg_read e0 = Some (KP_SPI_REG_CONFIG, reg)
    /\ trace_of st st_w
         (e0 :: EvWriteq KP_SPI_REG_CONFIG (set_field spi_en 1 (u32 reg)) :: tw)
    /\ wait_rets tw = [(KP_SPI_REG_STATUS, KP_SPI_REG_STATUS_EOT, r)]
    /\ forallb (wait_event KP_SPI_REG_STATUS) tw = true
    /\ conf_cache (ctl st_w) = set_field spi_en 1 (u32 reg)
    /\ 0 <= conf_cache (ctl st_w) < 2 ^ 32
    /\ mem st_w = mem st
    /\ ((r = - ETIMEDOUT /\ res = (0, 0, set_result m 0)
         /\ st' = log_event EvFinalize (log_event EvPrintk st_w))
        \/ (r = 0 /\ exists s alen st_d,
              do_transfers E fuel spidev (transfers m) 0 st_w = Some ((s, alen), st_d)
              /\ res = (0, s, set_result m alen)
              /\ st' = log_event EvFinalize
                         (kp_spi_write_reg KP_SPI_REG_CONFIG
                            (set_field spi_en 0 (u32 (u64 (conf_cache (ctl st_d)))))
                            (log_event
                               (EvCached KP_SPI_REG_CONFIG (u64 (conf_cache (ctl st_d))))
                               st_d)))).
Proof.
  unfold passes_validation, message_body. intros Hv H.
  destruct (transfers m) as [| t0 ts0] eqn:Hts; [discriminate |].
  rewrite <- Hts in *. clear Hts t0 ts0.
  mstep H v st0 Hval. rewrite validate_eq, Hv in Hval. inv Hval. simpl in H.
  mstep H reg st1 Hrd. apply lift_inv in Hrd.
  destruct (read_reg_spec _ _ _ _ _ Hrd) as (e0 & -> & He0 & _).
  mstep H u st2 Hu. apply modify_inv in Hu. subst st2.
  set (v1 := set_field spi_en 1 (u32 reg)) in *.
  assert (Hv1 : 0 <= v1 < 2 ^ 32).
  { apply set_field_range; [apply fields_ok | apply u32_range]. }
  mstep H r st3 Hw.
  destruct (wait_confined E (fun _ => True) fuel KP_SPI_REG_STATUS KP_SPI_REG_STATUS_EOT
              ltac:(discriminate) _ _ _ Logic.I Hw) as (tw' & Htw' & Hpw & _ & _).
  apply wait_quiet in Hw.
  destruct Hw as (tw & Htw & Hcw & Hmw & Hr & _ & Hwr & _ & _ & _).
  assert (tw' = tw)
    by (rewrite <- (trace_of_trace _ _ _ Htw), <- (trace_of_trace _ _ _ Htw'); reflexivity).
  subst tw'.
  assert (Hcache : conf_cache (ctl st3) = v1).
  { rewrite Hcw. simpl. apply s64_small. lia. }
  exists e0, reg, r, st3, tw.
  split; [exact He0 |].
  split; [unfold trace_of in *; rewrite Htw; simpl; rewrite <- !app_assoc; reflexivity |].
  split; [exact Hwr |]. split; [exact Hpw |]. split; [exact Hcache |].
  split; [rewrite Hcache; exact Hv1 |]. split; [rewrite Hmw; reflexivity |].
  rewrite (ret_neg _ Hr) in H. destruct Hr as [-> | ->]; simpl in H.
  - right. split; [reflexivity |].
    mstep H sa st4 Hdo. destruct sa as [s alen].
    assert (Hc3 : cached (ctl st3)) by (unfold cached; rewrite Hcache; lia).
    destruct (do_transfers_confined E fuel spidev _ _ _ _ _ Hc3 Hdo)
      as (_ & _ & _ & _ & Hc4).
    mstep H reg2 st5 Hrd2. apply lift_inv in Hrd2.
    rewrite read_reg_cached in Hrd2 by exact Hc4. inv Hrd2.
    mstep H u' st6 Hu. apply modify_inv in Hu. subst st6.
    mstep H u'' st7 Hu. apply emit_inv in Hu. subst st7.
    apply ret_inv in H. destruct H as [-> ->].
    exists s, alen, st4. split; [exact Hdo |]. split; reflexivity.
  - left. split; [reflexivity |].
    mstep H u' st4 Hu. apply emit_inv in Hu. subst st4.
    mstep H u'' st5 Hu. apply emit_inv in Hu. subst st5.
    apply ret_inv in H. destruct H as [-> ->]. split; reflexivity.
Qed.

(** The delays of the transfer loop: those of the transfers it completed,
    which are all of them exactly when the local status is 0. *)
Lemma do_transfers_delays fuel spidev :
  forall ts acc st s acc' st',
    do_transfers E fuel spidev ts acc st = Some ((s, acc'), st') ->
    exists tr k,
      trace_of st st' tr /\ (k <= length ts)%nat
      /\ udelays tr
         = filter (fun d => negb (d =? 0)) (map delay_usecs (firstn k ts))
      /\ (s = 0 -> k = length ts) /\ (s <> 0 -> (k < length ts)%nat).
Proof.
  induction ts as [| t ts IH]; intros acc st s acc' st' H.
  - simpl in H. apply ret_inv in H. destruct H as [H ->]. inv H.
    exists [], 0%nat. repeat split; auto. intros Hx. contradiction.
  - simpl in H.
    destruct (is_null (tx_buf t) && is_null (rx_buf t) && negb (len t =? 0)).
    { apply ret_inv in H. destruct H as [H ->]. inv H.
      exists [], 0%nat. simpl. repeat split; auto; try lia; try discriminate. }
    mstep H ba st1 Hbody. destruct ba as [brk acc1].
    assert (Hb : exists tr1, trace_of st st1 tr1 /\ udelays tr1 = []).
    { destruct (negb (len t =? 0)).
      - mstep Hbody reg st2 Hrd. apply lift_inv in Hrd.
        destruct (read_reg_spec _ _ _ _ _ Hrd) as (e0 & -> & He0 & _).
        mstep Hbody u st3 Hu. apply modify_inv in Hu. subst st3.
        mstep Hbody u' st4 Hu. apply modify_inv in Hu. subst st4.
        mstep Hbody count st5 Hpio.
        apply ret_inv in Hbody. destruct Hbody as [_ ->].
        destruct (pio_confined E (fun _ => True) fuel t _ _ _ Logic.I Hpio)
          as (trp & Htp & Hpp & _ & _).
        exists (e0 :: EvWriteq KP_SPI_REG_CONFIG (transfer_config spidev t reg) :: trp).
        split.
        + unfold trace_of in *. rewrite Htp. simpl. rewrite <- !app_assoc. reflexivity.
        + rewrite (udelays_read _ _ _ _ He0). simpl.
          apply (pio_events_quiet _ Hpp).
      - apply ret_inv in Hbody. destruct Hbody as [_ ->]. exists [].
        split; reflexivity. }
    destruct Hb as (tr1 & Ht1 & Hu1).
    destruct brk.
    + apply ret_inv in H. destruct H as [H ->]. inv H.
      exists tr1, 0%nat. simpl. repeat split; auto; try lia; try discriminate.
    + mstep H u st2 Hd.
      destruct (IH _ _ _ _ _ H) as (tr2 & k & Ht2 & Hk & Hu2 & Hs0 & Hs1).
      destruct (Z.eqb_spec (delay_usecs t) 0) as [Hz | Hnz]; simpl in Hd.
      * apply ret_inv in Hd. destruct Hd as [_ ->].
        exists (tr1 ++ tr2), (S k).
        split; [eapply trace_of_trans; eassumption |].
        split; [simpl; lia |].
        split; [| split; [intros Hs; simpl; f_equal; auto |
                          intros Hs; simpl; apply Hs1 in Hs; lia]].
        rewrite udelays_app, Hu1, Hu2. simpl.
        destruct (Z.eqb_spec (delay_usecs t) 0); [reflexivity | contradiction].
      * apply emit_inv in Hd. subst st2.
        exists (tr1 ++ EvUdelay (delay_usecs t) :: tr2), (S k).
        split.
        { eapply trace_of_trans; [exact Ht1 |].
          change (EvUdelay (delay_usecs t) :: tr2)
            with ([EvUdelay (delay_usecs t)] ++ tr2).
          eapply trace_of_trans; [apply trace_of_log_event | exact Ht2]. }
        split; [simpl; lia |].
        split; [| split; [intros Hs; simpl; f_equal; auto |
                          intros Hs; simpl; apply Hs1 in Hs; lia]].
        rewrite udelays_app, Hu1. simpl. rewrite Hu2.
        destruct (Z.eqb_spec (delay_usecs t) 0); [contradiction | reflexivity].
Qed.

End MessageEnd.

Lemma passes_validation_okb m :
  passes_validation m = true -> forallb transfer_okb (transfers m) = true.
Proof.
  unfold passes_validation. destruct (transfers m); [discriminate | auto].
Qed.

Lemma reg_read_inv e i v :
  reg_read e = Some (i, v) -> e = EvReadq i v \/ e = EvCached i v.
Proof. destruct e; simpl; intros H; inv H; auto. Qed.

Lemma wait_events_no_config t :
  forallb (wait_event KP_SPI_REG_STATUS) t = true ->
  writes_to KP_SPI_REG_CONFIG t = [].
Proof.
  intros H. apply pio_events_quiet.
  eapply forallb_weaken; [| exact H].
  intros e He. apply send_event_pio, wait_event_send, He.
Qed.

Lemma do_transfers_zero_length E fuel spidev :
  forall ts acc st,
    Forall (fun t => len t = 0) ts ->
    exists st',
      do_transfers E fuel spidev ts acc st = Some ((0, acc), st')
      /\ trace_of st st'
           (map EvUdelay (filter (fun d => negb (d =? 0)) (map delay_usecs ts)))
      /\ ctl st' = ctl st /\ mem st' = mem st.
Proof.
  induction ts as [| t ts IH]; intros acc st Hz.
  - exists st. repeat split; reflexivity.
  - inversion Hz as [| ? ? Hlen Hrest]; subst. cbn [do_transfers].
    rewrite Hlen. cbn [Z.eqb negb]. rewrite Bool.andb_false_r. rewrite bind_ret.
    cbn [map filter].
    destruct (negb (delay_usecs t =? 0)).
    + rewrite bind_emit.
      destruct (IH acc (log_event (EvUdelay (delay_usecs t)) st) Hrest)
        as (st' & Hrun & Ht & Hc & Hm).
      exists st'. split; [exact Hrun |]. split; [| split; assumption].
      change (map EvUdelay (delay_usecs t :: ?l))
        with ([EvUdelay (delay_usecs t)] ++ map EvUdelay l).
      eapply trace_of_trans; [apply trace_of_log_event | exact Ht].
    + rewrite bind_ret. apply IH. exact Hrest.
Qed.

(** A message on a session whose cache is populated reads Status and
    RX-Data from the bus and nothing else, takes Config from the cache
    only, and writes only Config and TX-Data; FIFO-Control is never
    touched.  The session keeps its base, phys and chip_select and a
    populated cache, and memory changes nowhere but in the receive buffers
    of the transfers that have no send buffer. *)
Theorem message_footprint (E : platform) (fuel : nat) (spidev : spi_device)
    (m : spi_message) (st : machine) (r : Z) (m' : spi_message) (st' : machine) :
  0 <= conf_cache (ctl st) ->
  kp_spi_transfer_one_message E fuel spidev m st = Some ((r, m'), st') ->
  forallb message_event (trace st st') = true
  /\ base (ctl st') = base (ctl st) /\ phys (ctl st') = phys (ctl st)
  /\ chip_select (ctl st') = chip_select (ctl st)
  /\ 0 <= conf_cache (ctl st')
  /\ (forall a, outside_rx (transfers m) a -> mem st' a = mem st a).
Proof.
  intros Hc Hrun.
  destruct (transfer_one_message_inv _ _ _ _ _ _ _ _ Hrun) as (s & Hb).
  destruct (message_body_confined E fuel spidev m st _ st' Hc Hb)
    as (tr & Ht & Hp & [(Hbase & Hphys & Hcs) Hm] & Hc').
  rewrite (trace_of_trace _ _ _ Ht).
  repeat (split; [assumption |]). exact Hm.
Qed.

Lemma message_footprint_witness :
  exists m' st',
    kp_spi_transfer_one_message (ready_device [0xAA; 0xBB]) 4 board_device
      (msg [xfer None (Some 100) 2]) (boot idle_state (fun _ => 0))
    = Some ((0, m'), st')
    /\ forallb message_event (trace (boot idle_state (fun _ => 0)) st') = true
    /\ mem st' 102 = 0.
Proof.
  destruct (message_ready (ready_device [0xAA; 0xBB]) (ready_device_ready _) 3
              board_device (msg [xfer None (Some 100) 2]) (boot idle_state (fun _ => 0)))
    as (st' & tr & Hrun & _).
  - reflexivity.
  - repeat constructor; unfold wf_transfer; simpl; lia.
  - do 2 eexists. split; [exact Hrun |].
    assert (Hc : 0 <= conf_cache (ctl (boot idle_state (fun _ => 0)))) by (simpl; lia).
    destruct (message_footprint _ _ _ _ _ _ _ _ Hc Hrun)
      as (Hp & _ & _ & _ & _ & Hm).
    split; [exact Hp |].
    rewrite Hm; [reflexivity |].
    intros t rx [<- | []] _ Hrx. inv Hrx. simpl. lia.
Defined.

(** Transfers of length zero cost nothing but their delays: the transfer
    loop goes through a list of them without a single register access,
    whatever their buffers and whatever the fuel, sleeps the non-zero
    delays in the order of the list, leaves the byte count as it was and
    ends with status 0. *)
Theorem zero_length_transfers_only_sleep (E : platform) (fuel : nat)
    (spidev : spi_device) (ts : list spi_transfer) (acc : Z) (st : machine) :
  Forall (fun t => len t = 0) ts ->
  exists st',
    do_transfers E fuel spidev ts acc st = Some ((0, acc), st')
    /\ trace st st'
       = map EvUdelay (filter (fun d => negb (d =? 0)) (map delay_usecs ts))
    /\ ctl st' = ctl st /\ mem st' = mem st.
Proof.
  intros Hz.
  destruct (do_transfers_zero_length E fuel spidev ts acc st Hz)
    as (st' & Hrun & Ht & Hc & Hm).
  exists st'. split; [exact Hrun |].
  split; [apply trace_of_trace; exact Ht | split; assumption].
Qed.

Lemma zero_length_transfers_only_sleep_witness :
  exists st',
    do_transfers stuck_device 0 board_device
      [ {| tx_buf := None; rx_buf := None; len := 0; bits_per_word := 0;
           delay_usecs := 5; speed_hz := 0 |};
        xfer (Some 100) None 0;
        {| tx_buf := None; rx_buf := Some 200; len := 0; bits_per_word := 16;
           delay_usecs := 7; speed_hz := 0 |} ] 3 (boot idle_state (fun _ => 0))
    = Some ((0, 3), st')
    /\ trace (boot idle_state (fun _ => 0)) st' = [EvUdelay 5; EvUdelay 7].
Proof.
  destruct (zero_length_transfers_only_sleep stuck_device 0 board_device
              [ {| tx_buf := None; rx_buf := None; len := 0; bits_per_word := 0;
                   delay_usecs := 5; speed_hz := 0 |};
                xfer (Some 100) None 0;
                {| tx_buf := None; rx_buf := Some 200; len := 0; bits_per_word := 16;
                   delay_usecs := 7; speed_hz := 0 |} ] 3 (boot idle_state (fun _ => 0)))
    as (st' & Hrun & Ht & _).
  - repeat constructor.
  - exists st'. split; [exact Hrun | exact Ht].
Defined.

(** When the up-front wait for end-of-transfer times out, a validated
    message is given up after one bus write: Config with SPI-enable set.
    No data register is touched, no delay is slept, memory is as it was;
    the message is finalized with 0 bytes and status 0 and the function
    returns 0, while the cached Config word still has SPI-enable set. *)
Theorem eot_timeout_path (E : platform) (fuel : nat) (spidev : spi_device)
    (m : spi_message) (st : machine) (r : Z) (m' : spi_message) (st' : machine) :
  passes_validation m = true ->
  kp_spi_transfer_one_message E fuel spidev m st = Some ((r, m'), st') ->
  hd_error (wait_rets (trace st st'))
  = Some (KP_SPI_REG_STATUS, KP_SPI_REG_STATUS_EOT, - ETIMEDOUT) ->
  r = 0 /\ actual_length m' = 0 /\ status m' = 0
  /\ (exists v,
        filter is_write_event (trace st st') = [EvWriteq KP_SPI_REG_CONFIG v]
        /\ get_field spi_en v = 1 /\ conf_cache (ctl st') = v)
  /\ filter is_data (trace st st') = []
  /\ udelays (trace st st') = []
  /\ mem st' = mem st
  /\ last (trace st st') EvRelax = EvFinalize.
Proof.
  intros Hv Hrun Hhd.
  destruct (transfer_one_message_inv _ _ _ _ _ _ _ _ Hrun) as (s & Hb).
  destruct (message_body_end E _ _ _ _ _ _ Hv Hb)
    as (e0 & reg & r0 & st_w & tw & He0 & Htw & Hwr & Hpw & Hcache & _ & Hmem & Hcase).
  destruct (wait_events_quiet _ Hpw) as (Hud & Hwe & Hda).
  destruct Hcase as [(-> & Hres & ->) | (-> & s' & alen & st_d & Hdo & Hres & ->)].
  - inv Hres.
    assert (Ht : trace_of st (log_event EvFinalize (log_event EvPrintk st_w))
                   ((e0 :: EvWriteq KP_SPI_REG_CONFIG (set_field spi_en 1 (u32 reg)) :: tw)
                    ++ [EvPrintk; EvFinalize])).
    { eapply trace_of_trans; [exact Htw |]. reflexivity. }
    rewrite (trace_of_trace _ _ _ Ht).
    split; [reflexivity |]. split; [reflexivity |]. split; [reflexivity |].
    destruct (reg_read_inv _ _ _ He0) as [-> | ->].
    + split.
      { exists (set_field spi_en 1 (u32 reg)).
        split; [simpl; rewrite filter_app, Hwe; reflexivity |].
        split; [apply spi_en_set | exact Hcache]. }
      split; [simpl; rewrite filter_app, Hda; reflexivity |].
      split; [simpl; rewrite udelays_app, Hud; reflexivity |].
      split; [exact Hmem |].
      change (?a :: ?b :: tw) with ([a; b] ++ tw).
      rewrite <- app_assoc.
      change (tw ++ [EvPrintk; EvFinalize]) with (tw ++ [EvPrintk] ++ [EvFinalize]).
      rewrite !app_assoc. apply last_last.
    + split.
      { exists (set_field spi_en 1 (u32 reg)).
        split; [simpl; rewrite filter_app, Hwe; reflexivity |].
        split; [apply spi_en_set | exact Hcache]. }
      split; [simpl; rewrite filter_app, Hda; reflexivity |].
      split; [simpl; rewrite udelays_app, Hud; reflexivity |].
      split; [exact Hmem |].
      change (?a :: ?b :: tw) with ([a; b] ++ tw).
      rewrite <- app_assoc.
      change (tw ++ [EvPrintk; EvFinalize]) with (tw ++ [EvPrintk] ++ [EvFinalize]).
      rewrite !app_assoc. apply last_last.
  - exfalso.
    destruct (do_transfers_delays E _ _ _ _ _ _ _ _ Hdo) as (trd & k & Htd & _).
    assert (Ht : trace_of st
                   (log_event EvFinalize
                      (kp_spi_write_reg KP_SPI_REG_CONFIG
                         (set_field spi_en 0 (u32 (u64 (conf_cache (ctl st_d)))))
                         (log_event
                            (EvCached KP_SPI_REG_CONFIG (u64 (conf_cache (ctl st_d))))
                            st_d)))
                   ((e0 :: EvWriteq KP_SPI_REG_CONFIG (set_field spi_en 1 (u32 reg)) :: tw)
                    ++ trd
                    ++ [EvCached KP_SPI_REG_CONFIG (u64 (conf_cache (ctl st_d)));
                        EvWriteq KP_SPI_REG_CONFIG
                          (set_field spi_en 0 (u32 (u64 (conf_cache (ctl st_d)))));
                        EvFinalize])).
    { eapply trace_of_trans; [exact Htw |].
      eapply trace_of_trans; [exact Htd |]. reflexivity. }
    rewrite (trace_of_trace _ _ _ Ht) in Hhd.
    rewrite wait_rets_app in Hhd.
    rewrite (wait_rets_read _ _ _ _ He0) in Hhd.
    cbn [wait_rets] in Hhd. rewrite Hwr in Hhd. simpl in Hhd.
    inversion Hhd.
Qed.

Lemma eot_timeout_path_witness :
  exists m' st',
    kp_spi_transfer_one_message stuck_device 4 board_device
      (msg [xfer (Some 100) None 2]) (boot idle_state (fun a => a))
    = Some ((0, m'), st')
    /\ filter is_data (trace (boot idle_state (fun a => a)) st') = []
    /\ get_field spi_en (conf_cache (ctl st')) = 1.
Proof.
  assert (Hrun : exists m' st',
             kp_spi_transfer_one_message stuck_device 4 board_device
               (msg [xfer (Some 100) None 2]) (boot idle_state (fun a => a))
             = Some ((0, m'), st')
             /\ hd_error (wait_rets (trace (boot idle_state (fun a => a)) st'))
                = Some (KP_SPI_REG_STATUS, KP_SPI_REG_STATUS_EOT, - ETIMEDOUT)).
  { do 2 eexists. split; vm_compute; reflexivity. }
  destruct Hrun as (m' & st' & Hrun & Hhd).
  exists m', st'. split; [exact Hrun |].
  assert (Hv : passes_validation (msg [xfer (Some 100) None 2]) = true) by reflexivity.
  destruct (eot_timeout_path _ _ _ _ _ _ _ _ Hv Hrun Hhd)
    as (_ & _ & _ & (v & _ & Hen & Hc) & Hd & _).
  split; [exact Hd |]. rewrite Hc. exact Hen.
Defined.

(** At the end of a validated message the cache holds the last word
    written to Config, a u32, whatever the cache held before.  That word
    has SPI-enable cleared when the up-front wait succeeded, and set when
    it timed out. *)
Theorem config_cache_follows_writes (E : platform) (fuel : nat) (spidev : spi_device)
    (m : spi_message) (st : machine) (r : Z) (m' : spi_message) (st' : machine) :
  passes_validation m = true ->
  kp_spi_transfer_one_message E fuel spidev m st = Some ((r, m'), st') ->
  exists ws v r0 rest,
    writes_to KP_SPI_REG_CONFIG (trace st st') = ws ++ [v]
    /\ conf_cache (ctl st') = v /\ 0 <= v < 2 ^ 32
    /\ wait_rets (trace st st')
       = (KP_SPI_REG_STATUS, KP_SPI_REG_STATUS_EOT, r0) :: rest
    /\ get_field spi_en v = (if r0 =? 0 then 0 else 1).
Proof.
  intros Hv Hrun.
  destruct (transfer_one_message_inv _ _ _ _ _ _ _ _ Hrun) as (s & Hb).
  destruct (message_body_end E _ _ _ _ _ _ Hv Hb)
    as (e0 & reg & r0 & st_w & tw & He0 & Htw & Hwr & Hpw & Hcache & Hrange & _ & Hcase).
  pose proof (wait_events_no_config _ Hpw) as Hww.
  destruct Hcase as [(-> & Hres & ->) | (-> & s' & alen & st_d & Hdo & Hres & ->)].
  - assert (Ht : trace_of st (log_event EvFinalize (log_event EvPrintk st_w))
                   ((e0 :: EvWriteq KP_SPI_REG_CONFIG (set_field spi_en 1 (u32 reg)) :: tw)
                    ++ [EvPrintk; EvFinalize])).
    { eapply trace_of_trans; [exact Htw |]. reflexivity. }
    rewrite (trace_of_trace _ _ _ Ht).
    exists [], (set_field spi_en 1 (u32 reg)), (- ETIMEDOUT), [].
    split.
    { rewrite writes_to_app, (writes_to_read _ _ _ _ _ He0), writes_to_same, Hww.
      reflexivity. }
    split; [exact Hcache |]. split; [rewrite <- Hcache; exact Hrange |].
    split.
    { rewrite wait_rets_app, (wait_rets_read _ _ _ _ He0). cbn [wait_rets].
      rewrite Hwr. reflexivity. }
    rewrite spi_en_set. reflexivity.
  - destruct (do_transfers_delays E _ _ _ _ _ _ _ _ Hdo) as (trd & k & Htd & _).
    set (c := u64 (conf_cache (ctl st_d))) in *.
    set (v2 := set_field spi_en 0 (u32 c)) in *.
    assert (Hv2 : 0 <= v2 < 2 ^ 32).
    { apply set_field_range; [apply fields_ok | apply u32_range]. }
    assert (Ht : trace_of st
                   (log_event EvFinalize
                      (kp_spi_write_reg KP_SPI_REG_CONFIG v2
                         (log_event (EvCached KP_SPI_REG_CONFIG c) st_d)))
                   ((e0 :: EvWriteq KP_SPI_REG_CONFIG (set_field spi_en 1 (u32 reg)) :: tw)
                    ++ trd
                    ++ [EvCached KP_SPI_REG_CONFIG c; EvWriteq KP_SPI_REG_CONFIG v2;
                        EvFinalize])).
    { eapply trace_of_trans; [exact Htw |].
      eapply trace_of_trans; [exact Htd |]. reflexivity. }
    rewrite (trace_of_trace _ _ _ Ht).
    exists (set_field spi_en 1 (u32 reg) :: writes_to KP_SPI_REG_CONFIG trd), v2, 0,
      (wait_rets trd).
    split.
    { rewrite !writes_to_app, (writes_to_read _ _ _ _ _ He0), writes_to_same, Hww.
      reflexivity. }
    split; [simpl; apply s64_small; lia |]. split; [exact Hv2 |].
    split.
    { rewrite !wait_rets_app, (wait_rets_read _ _ _ _ He0). cbn [wait_rets].
      rewrite Hwr. simpl. rewrite app_nil_r. reflexivity. }
    unfold v2. rewrite spi_en_clear. reflexivity.
Qed.

Lemma config_cache_follows_writes_witness :
  exists m' st',
    kp_spi_transfer_one_message (ready_device []) 4 board_device
      (msg [xfer (Some 100) None 2])
      (boot {| base := 0; phys := 0; chip_select := 1; word_len := 8;
               conf_cache := -1 |} (fun a => a))
    = Some ((0, m'), st')
    /\ exists ws, writes_to KP_SPI_REG_CONFIG
                    (trace (boot {| base := 0; phys := 0; chip_select := 1;
                                    word_len := 8; conf_cache := -1 |} (fun a => a)) st')
                  = ws ++ [conf_cache (ctl st')].
Proof.
  destruct (message_ready (ready_device []) (ready_device_ready _) 3
              board_device (msg [xfer (Some 100) None 2])
              (boot {| base := 0; phys := 0; chip_select := 1; word_len := 8;
                       conf_cache := -1 |} (fun a => a)))
    as (st' & tr & Hrun & _).
  - reflexivity.
  - repeat constructor; unfold wf_transfer; simpl; lia.
  - do 2 eexists. split; [exact Hrun |].
    assert (Hv : passes_validation (msg [xfer (Some 100) None 2]) = true) by reflexivity.
    destruct (config_cache_follows_writes _ _ _ _ _ _ _ _ Hv Hrun)
      as (ws & v & r0 & rest & Hw & Hc & _).
    exists ws. rewrite Hc. exact Hw.
Defined.

(** The delays a validated message sleeps are the non-zero delays of a
    prefix of its transfers, in order, each after its transfer is done:
    the transfer that comes back short is not followed by its delay.  When
    no wait times out the prefix is the whole list. *)
Theorem message_delays (E : platform) (fuel : nat) (spidev : spi_device)
    (m : spi_message) (st : machine) (r : Z) (m' : spi_message) (st' : machine) :
  passes_validation m = true ->
  kp_spi_transfer_one_message E fuel spidev m st = Some ((r, m'), st') ->
  exists k,
    (k <= length (transfers m))%nat
    /\ udelays (trace st st')
       = filter (fun d => negb (d =? 0)) (map delay_usecs (firstn k (transfers m)))
    /\ (Forall wf_transfer (transfers m) -> all_waits_ok (trace st st') ->
        k = length (transfers m)).
Proof.
  intros Hv Hrun.
  destruct (transfer_one_message_inv _ _ _ _ _ _ _ _ Hrun) as (s & Hb).
  destruct (message_body_end E _ _ _ _ _ _ Hv Hb)
    as (e0 & reg & r0 & st_w & tw & He0 & Htw & Hwr & Hpw & Hcache & Hrange & _ & Hcase).
  destruct (wait_events_quiet _ Hpw) as (Hud & _ & _).
  destruct Hcase as [(-> & Hres & ->) | (-> & s' & alen & st_d & Hdo & Hres & ->)].
  - assert (Ht : trace_of st (log_event EvFinalize (log_event EvPrintk st_w))
                   ((e0 :: EvWriteq KP_SPI_REG_CONFIG (set_field spi_en 1 (u32 reg)) :: tw)
                    ++ [EvPrintk; EvFinalize])).
    { eapply trace_of_trans; [exact Htw |]. reflexivity. }
    rewrite (trace_of_trace _ _ _ Ht).
    exists 0%nat. split; [lia |].
    split.
    { rewrite udelays_app, (udelays_read _ _ _ _ He0). cbn [udelays].
      rewrite Hud. reflexivity. }
    intros _ Hall. exfalso.
    unfold all_waits_ok in Hall.
    rewrite wait_rets_app, (wait_rets_read _ _ _ _ He0) in Hall.
    cbn [wait_rets] in Hall. rewrite Hwr in Hall. simpl in Hall.
    inversion Hall as [| ? ? Hx _]. simpl in Hx. discriminate.
  - destruct (do_transfers_delays E _ _ _ _ _ _ _ _ Hdo)
      as (trd & k & Htd & Hk & Hu & Hs0 & _).
    set (c := u64 (conf_cache (ctl st_d))) in *.
    set (v2 := set_field spi_en 0 (u32 c)) in *.
    assert (Ht : trace_of st
                   (log_event EvFinalize
                      (kp_spi_write_reg KP_SPI_REG_CONFIG v2
                         (log_event (EvCached KP_SPI_REG_CONFIG c) st_d)))
                   ((e0 :: EvWriteq KP_SPI_REG_CONFIG (set_field spi_en 1 (u32 reg)) :: tw)
                    ++ trd
                    ++ [EvCached KP_SPI_REG_CONFIG c; EvWriteq KP_SPI_REG_CONFIG v2;
                        EvFinalize])).
    { eapply trace_of_trans; [exact Htw |].
      eapply trace_of_trans; [exact Htd |]. reflexivity. }
    rewrite (trace_of_trace _ _ _ Ht).
    exists k. split; [exact Hk |].
    split.
    { rewrite !udelays_app, (udelays_read _ _ _ _ He0). cbn [udelays].
      rewrite Hud, Hu. simpl. rewrite app_nil_r. reflexivity. }
    intros Hwf Hall. apply Hs0.
    assert (Hcs : cs_asserted st_w).
    { unfold cs_asserted. split; [exact Hrange |]. rewrite Hcache. apply spi_en_set. }
    destruct (do_transfers_spec E _ _ _ _ _ _ _ _ Hdo Hwf (passes_validation_okb _ Hv)
                Hcs ltac:(lia))
      as (trd' & short & Htd' & _ & _ & _ & _ & _ & _ & Hok).
    assert (trd' = trd)
      by (rewrite <- (trace_of_trace _ _ _ Htd), <- (trace_of_trace _ _ _ Htd');
          reflexivity).
    subst trd'. apply Hok.
    apply all_waits_ok_app in Hall. destruct Hall as [_ Hall].
    apply all_waits_ok_app in Hall. destruct Hall as [Hall _]. exact Hall.
Qed.

Lemma message_delays_witness :
  exists m' st',
    kp_spi_transfer_one_message (ready_device []) 4 board_device
      (msg [ {| tx_buf := Some 100; rx_buf := None; len := 1; bits_per_word := 0;
                delay_usecs := 9; speed_hz := 0 |};
             xfer (Some 101) None 1;
             {| tx_buf := None; rx_buf := None; len := 0; bits_per_word := 0;
                delay_usecs := 4; speed_hz := 0 |} ])
      (boot idle_state (fun a => a))
    = Some ((0, m'), st')
    /\ udelays (trace (boot idle_state (fun a => a)) st') = [9; 4].
Proof.
  destruct (message_ready (ready_device []) (ready_device_ready _) 3 board_device
      (msg [ {| tx_buf := Some 100; rx_buf := None; len := 1; bits_per_word := 0;
                delay_usecs := 9; speed_hz := 0 |};
             xfer (Some 101) None 1;
             {| tx_buf := None; rx_buf := None; len := 0; bits_per_word := 0;
                delay_usecs := 4; speed_hz := 0 |} ])
      (boot idle_state (fun a => a)))
    as (st' & tr & Hrun & Htr & Hok).
  - reflexivity.
  - repeat constructor; unfold wf_transfer; simpl; lia.
  - do 2 eexists. split; [exact Hrun |].
    assert (Hv : passes_validation
                   (msg [ {| tx_buf := Some 100; rx_buf := None; len := 1;
                             bits_per_word := 0; delay_usecs := 9; speed_hz := 0 |};
                          xfer (Some 101) None 1;
                          {| tx_buf := None; rx_buf := None; len := 0;
                             bits_per_word := 0; delay_usecs := 4; speed_hz := 0 |} ])
                 = true) by reflexivity.
    destruct (message_delays _ _ _ _ _ _ _ _ Hv Hrun) as (k & _ & Hu & Hall).
    rewrite Hu, Hall; [reflexivity | |].
    + repeat constructor; unfold wf_transfer; simpl; lia.
    + rewrite (trace_of_trace _ _ _ Htr). exact Hok.
Defined.

(** ** kp_spi_setup and kp_spi_cleanup over the life of a device *)

Lemma setups_with_state kpspi m :
  forall calls spidev c l rs d l',
    controller_state spidev = Some c ->
    setups kpspi calls spidev m l = (rs, d, l') ->
    rs = repeat 0 (length calls)
    /\ length l' = (length l + length calls)%nat
    /\ exists c',
         controller_state d = Some c'
         /\ base c' = base c /\ phys c' = phys c
         /\ chip_select c' = chip_select c /\ word_len c' = word_len c.
Proof.
  induction calls as [| [ok sc0] calls IH]; intros spidev c l rs d l' Hc H.
  - simpl in H. inv H. split; [reflexivity |]. split; [simpl; lia |].
    exists c. auto.
  - cbn [setups] in H.
    destruct (kp_spi_setup kpspi ok sc0 spidev m l) as [[r d1] l1] eqn:Hs.
    destruct (setups kpspi calls d1 m l1) as [[rs1 d2] l2] eqn:Hrest. inv H.
    destruct (setup_inv _ _ _ _ _ _ _ _ _ Hs) as (Hfail & _ & Hok).
    assert (Hr : r <> - ENOMEM).
    { intros Hx. apply Hfail in Hx. destruct Hx as [Hx _]. congruence. }
    destruct (Hok Hr) as (-> & -> & _ & _ & c1 & Hc1 & _ & Hkeep).
    destruct (Hkeep c Hc) as (Hb & Hp & Hcs & Hw).
    destruct (IH _ _ _ _ _ _ Hc1 Hrest) as (-> & Hlen & c' & Hc' & Hb' & Hp' & Hcs' & Hw').
    split; [reflexivity |]. split; [rewrite Hlen; simpl; lia |].
    exists c'. split; [exact Hc' |]. repeat split; congruence.
Qed.

(** Over any sequence of kp_spi_setup calls on a device that starts
    without session state, the calls fail with -ENOMEM as long as the
    allocation fails and return 0 from the first successful allocation
    on, whatever the later allocation outcomes would be; each call that
    returns 0 writes Config once and the others write nothing.
    kp_spi_cleanup at the end frees exactly one block when some call
    succeeded - the one built from the controller and the device - and
    nothing when none did. *)
Theorem setup_cleanup_pairing (kpspi : kp_spi) (calls : list (bool * Z))
    (spidev : spi_device) (m : Z -> Z) (l : list event)
    (rs : list Z) (d : spi_device) (l' : list event) :
  controller_state spidev = None ->
  setups kpspi calls spidev m l = (rs, d, l') ->
  exists j k,
    rs = repeat (- ENOMEM) j ++ repeat 0 k
    /\ (j + k = length calls)%nat
    /\ Forall (fun c => fst c = false) (firstn j calls)
    /\ (k <> 0%nat -> nth_error (map fst calls) j = Some true)
    /\ length l' = (length l + k)%nat
    /\ (k = 0%nat -> kp_spi_cleanup d = [])
    /\ (k <> 0%nat ->
        exists c, kp_spi_cleanup d = [c]
                  /\ base c = kp_base kpspi /\ phys c = kp_phys kpspi
                  /\ chip_select c = dev_chip_select spidev
                  /\ word_len c = dev_bits_per_word spidev).
Proof.
  revert spidev l rs d l'.
  induction calls as [| [ok sc0] calls IH]; intros spidev l rs d l' Hnone H.
  - simpl in H. inv H. exists 0%nat, 0%nat.
    split; [reflexivity |]. split; [reflexivity |]. split; [constructor |].
    split; [intros Hx; contradiction |]. split; [simpl; lia |].
    split; [intros _; unfold kp_spi_cleanup; rewrite Hnone; reflexivity |].
    intros Hx. contradiction.
  - cbn [setups] in H.
    destruct (kp_spi_setup kpspi ok sc0 spidev m l) as [[r d1] l1] eqn:Hs.
    destruct (setups kpspi calls d1 m l1) as [[rs1 d2] l2] eqn:Hrest. inv H.
    destruct (setup_inv _ _ _ _ _ _ _ _ _ Hs) as (Hfail & Hsame & Hok).
    destruct ok.
    + assert (Hr : r <> - ENOMEM).
      { intros Hx. apply Hfail in Hx. destruct Hx as [_ Hx]. discriminate. }
      destruct (Hok Hr) as (-> & -> & _ & _ & c1 & Hc1 & _ & _).
      assert (Hfresh : c1 = ctl (kp_spi_write_reg KP_SPI_REG_CONFIG
                                   (setup_config spidev sc0)
                                   {| ctl := new_controller_state kpspi spidev;
                                      mem := m; log := l |})).
      { unfold kp_spi_setup in Hs. rewrite Hnone in Hs. inv Hs.
        simpl in Hc1. inv Hc1. reflexivity. }
      destruct (setups_with_state _ _ _ _ _ _ _ _ _ Hc1 Hrest)
        as (-> & Hlen & c' & Hc' & Hb & Hp & Hcs & Hw).
      exists 0%nat, (S (length calls)).
      split; [reflexivity |]. split; [reflexivity |]. split; [constructor |].
      split; [intros _; reflexivity |].
      split; [rewrite Hlen; simpl; lia |].
      split; [intros Hx; discriminate |].
      intros _. exists c'. unfold kp_spi_cleanup. rewrite Hc'.
      split; [reflexivity |]. rewrite Hb, Hp, Hcs, Hw, Hfresh. simpl. auto.
    + assert (Hr : r = - ENOMEM) by (apply Hfail; auto).
      destruct (Hsame Hr) as (-> & ->). subst r.
      destruct (IH _ _ _ _ _ Hnone Hrest)
        as (j & k & -> & Hjk & Hall & Hnth & Hlen & Hz & Hnz).
      exists (S j), k.
      split; [reflexivity |]. split; [simpl; lia |].
      split; [simpl; constructor; [reflexivity | exact Hall] |].
      split; [exact Hnth |]. split; [exact Hlen |]. split; assumption.
Qed.

Lemma setup_cleanup_pairing_witness :
  exists d l',
    setups kp0 [(false, 3); (true, 8); (false, 8)] new_device (fun _ => 0) []
    = ([- ENOMEM; 0; 0], d, l')
    /\ length l' = 2%nat
    /\ length (kp_spi_cleanup d) = 1%nat.
Proof.
  assert (H : setups kp0 [(false, 3); (true, 8); (false, 8)] new_device (fun _ => 0) []
              = ([- ENOMEM; 0; 0],
                 snd (fst (setups kp0 [(false, 3); (true, 8); (false, 8)] new_device
                             (fun _ => 0) [])),
                 snd (setups kp0 [(false, 3); (true, 8); (false, 8)] new_device
                        (fun _ => 0) []))) by reflexivity.
  do 2 eexists. split; [exact H |].
  destruct (setup_cleanup_pairing kp0 _ new_device (fun _ => 0) [] _ _ _
              ltac:(reflexivity) H)
    as (j & k & _ & Hjk & Hall & Hnth & Hlen & _ & Hnz).
  assert (Hk : k = 2%nat).
  { simpl in Hjk. destruct k as [| k'].
    - assert (j = 3%nat) by lia. subst j. simpl in Hall.
      inversion Hall as [| ? ? _ Hall']. inversion Hall' as [| ? ? Hx _]. discriminate.
    - specialize (Hnth ltac:(discriminate)).
      destruct j as [| [| [| j]]]; simpl in Hnth; try discriminate; [lia |].
      destruct j; discriminate. }
  subst k. split; [exact Hlen |].
  destruct Hnz as (c & Hc & _); [discriminate |]. rewrite Hc. reflexivity.
Defined.

(** ** kp_spi_probe *)

Lemma filter_new_devices l :
  filter is_new_device (map KNewDevice l) = map KNewDevice l
  /\ filter is_master_put (map KNewDevice l) = [].
Proof.
  induction l as [| i l [IH1 IH2]]; simpl; [split; reflexivity |].
  rewrite IH1, IH2. split; reflexivity.
Qed.

(** When kp_spi_probe returns a negative value - -ENODEV, -ENOMEM or the
    status of the registration - no board device has been created, and
    the master, if one was allocated, has been put exactly once, as the
    last call; without a master nothing is put. *)
Theorem probe_failure_releases (K : kernel) (pldev : platform_device)
    (r : Z) (k : option kp_spi) (calls : list kcall) :
  kp_spi_probe K pldev = (r, k, calls) -> r < 0 ->
  filter is_new_device calls = []
  /\ (r = - ENODEV \/ r = - ENOMEM \/ r = s32 (spi_register_master K))
  /\ (platform_data pldev <> None -> spi_alloc_master_ok K = true ->
      exists pre, calls = pre ++ [KMasterPut] /\ filter is_master_put pre = [])
  /\ (platform_data pldev = None \/ spi_alloc_master_ok K = false ->
      filter is_master_put calls = []).
Proof.
  unfold kp_spi_probe. intros H Hneg.
  destruct (platform_data pldev) as [card_id |].
  - destruct (spi_alloc_master_ok K); simpl in H.
    + destruct (mem_resource pldev) as [res |].
      * destruct (Z.ltb_spec (s32 (spi_register_master K)) 0).
        -- inv H. split; [reflexivity |]. split; [auto |].
           split; [| intros [Hx | Hx]; discriminate].
           intros _ _.
           exists [KAllocMaster; KSetDrvdata; KGetResource;
                   KIoremap (res_start res) (resource_size K res); KRegisterMaster;
                   KDevErr].
           split; reflexivity.
        -- destruct (Z.shiftr (Z.land card_id 4294901760) 16
                     =? PCI_DEVICE_ID_DAKTRONICS_KADOKA_P2KR0 K); inv H; lia.
      * inv H. split; [reflexivity |]. split; [auto |].
        split; [| intros [Hx | Hx]; discriminate].
        intros _ _. exists [KAllocMaster; KSetDrvdata; KGetResource; KDevErr].
        split; reflexivity.
    + inv H. split; [reflexivity |]. split; [auto |].
      split; [intros _ Hx; discriminate | intros _; reflexivity].
  - inv H. split; [reflexivity |]. split; [auto |].
    split; [intros Hx; congruence | intros _; reflexivity].
Qed.

Lemma probe_failure_releases_witness :
  kp_spi_probe willing_kernel
    {| pdev_id := 0; platform_data := Some 0x4B030000; mem_resource := None |}
  = (- ENODEV, None, [KAllocMaster; KSetDrvdata; KGetResource; KDevErr; KMasterPut])
  /\ filter is_new_device
       [KAllocMaster; KSetDrvdata; KGetResource; KDevErr; KMasterPut] = [].
Proof.
  assert (H : kp_spi_probe willing_kernel
                {| pdev_id := 0; platform_data := Some 0x4B030000; mem_resource := None |}
              = (- ENODEV, None,
                 [KAllocMaster; KSetDrvdata; KGetResource; KDevErr; KMasterPut]))
    by reflexivity.
  split; [exact H |].
  apply (probe_failure_releases _ _ _ _ _ H). reflexivity.
Defined.

(** When kp_spi_probe returns a non-negative value, that value is the
    status of a registration that succeeded, after the registers were
    mapped - whatever the mapping returned, which is not checked.  Either
    the upper half of the card id names the P2KR0, and then one device per
    entry of the board table has been created, in order, and the master
    is kept; or it does not, and then no device was created and the
    master was put after the registration, yet the value returned is
    still the non-negative status. *)
Theorem probe_nonnegative_return (K : kernel) (pldev : platform_device)
    (r : Z) (k : option kp_spi) (calls : list kcall) :
  kp_spi_probe K pldev = (r, k, calls) -> 0 <= r ->
  exists card_id res pre,
    platform_data pldev = Some card_id /\ mem_resource pldev = Some res
    /\ spi_alloc_master_ok K = true
    /\ r = s32 (spi_register_master K)
    /\ k = Some {| kp_base := u64 (ioremap_nocache K (res_start res) (resource_size K res));
                   kp_phys := u64 (ioremap_nocache K (res_start res) (resource_size K res)) |}
    /\ pre = [KAllocMaster; KSetDrvdata; KGetResource;
              KIoremap (res_start res) (resource_size K res); KRegisterMaster]
    /\ ((Z.shiftr (Z.land card_id 0xFFFF0000) 16 = PCI_DEVICE_ID_DAKTRONICS_KADOKA_P2KR0 K
         /\ calls = pre ++ map KNewDevice (seq 0 (p2kr0_board_info_size K))
         /\ filter is_master_put calls = [])
        \/ (Z.shiftr (Z.land card_id 0xFFFF0000) 16 <> PCI_DEVICE_ID_DAKTRONICS_KADOKA_P2KR0 K
            /\ calls = pre ++ [KDevErr; KMasterPut]
            /\ filter is_new_device calls = [])).
Proof.
  unfold kp_spi_probe. intros H Hpos.
  destruct (platform_data pldev) as [card_id |]; [| inv H; unfold ENODEV in Hpos; lia].
  destruct (spi_alloc_master_ok K); simpl in H; [| inv H; unfold ENOMEM in Hpos; lia].
  destruct (mem_resource pldev) as [res |]; [| inv H; unfold ENODEV in Hpos; lia].
  destruct (Z.ltb_spec (s32 (spi_register_master K)) 0); [inv H; lia |].
  exists card_id, res,
    [KAllocMaster; KSetDrvdata; KGetResource;
     KIoremap (res_start res) (resource_size K res); KRegisterMaster].
  destruct (Z.eqb_spec (Z.shiftr (Z.land card_id 4294901760) 16)
              (PCI_DEVICE_ID_DAKTRONICS_KADOKA_P2KR0 K)) as [Heq | Hne]; inv H;
    repeat (split; [reflexivity |]).
  - left. split; [assumption |]. split; [reflexivity |].
    simpl. apply filter_new_devices.
  - right. split; [assumption |]. split; reflexivity.
Qed.

Lemma probe_nonnegative_return_witness :
  kp_spi_probe willing_kernel (card 0x12340001)
  = (0, Some {| kp_base := 0x1100; kp_phys := 0x1100 |},
     [KAllocMaster; KSetDrvdata; KGetResource; KIoremap 0x100 0x100; KRegisterMaster;
      KDevErr; KMasterPut])
  /\ exists card_id, platform_data (card 0x12340001) = Some card_id
                     /\ Z.shiftr (Z.land card_id 0xFFFF0000) 16 = 0x1234.
Proof.
  assert (H : kp_spi_probe willing_kernel (card 0x12340001)
              = (0, Some {| kp_base := 0x1100; kp_phys := 0x1100 |},
                 [KAllocMaster; KSetDrvdata; KGetResource; KIoremap 0x100 0x100;
                  KRegisterMaster; KDevErr; KMasterPut])) by reflexivity.
  split; [exact H |].
  destruct (probe_nonnegative_return _ _ _ _ _ H ltac:(lia))
    as (card_id & res & pre & Hc & _).
  exists card_id. split; [exact Hc |]. inv Hc. reflexivity.
Defined.

(** ** The byte transfer primitive: claim C5 *)

Lemma trace_of_unique st st' t1 t2 : trace_of st st' t1 -> trace_of st st' t2 -> t1 = t2.
Proof.
  intros H1 H2.
  rewrite <- (trace_of_trace _ _ _ H1), <- (trace_of_trace _ _ _ H2). reflexivity.
Qed.

Lemma unit_ready_bit_cases t :
  (exists tx, tx_buf t = Some tx /\ unit_ready_bit t = KP_SPI_REG_STATUS_TXS)
  \/ (tx_buf t = None /\ unit_ready_bit t = KP_SPI_REG_STATUS_RXS).
Proof. unfold unit_ready_bit. destruct (tx_buf t); eauto. Qed.

Section UnitWaits.

Variable E : platform.

(** A wait on the status register that timed out has read the register
    from the bus with the bit clear. *)
Lemma wait_timed_out_read fuel bit st r st' :
  kp_spi_wait_for_reg_bit E fuel KP_SPI_REG_STATUS bit st = Some (r, st') -> r <> 0 ->
  exists t v,
    trace_of st st' t /\ In v (reads_of KP_SPI_REG_STATUS t) /\ Z.land v bit = 0.
Proof.
  intros H Hr.
  destruct (wait_confined E (fun _ => True) fuel KP_SPI_REG_STATUS bit
              ltac:(discriminate) _ _ _ Logic.I H) as (tw & Htw & Hpw & _).
  apply wait_spec in H. destruct H as (polls & Ht & Hp & _).
  destruct (polls_timeout _ _ _ _ _ Hp Hr) as (pre & j & e2 & v2 & -> & _ & He2 & Hv2 & _).
  pose proof (trace_of_unique _ _ _ _ Htw Ht) as Heq. subst tw.
  eexists. exists v2. split; [exact Ht |]. split; [| exact Hv2].
  destruct (reg_read_inv _ _ _ He2) as [-> | ->].
  - change (EvJiffies ?a :: ?l) with ([EvJiffies a] ++ l).
    rewrite !reads_of_app. apply in_or_app. right. apply in_or_app. left.
    apply in_or_app. right. simpl. left. reflexivity.
  - exfalso. simpl in Hpw. rewrite !forallb_app in Hpw. simpl in Hpw.
    rewrite !Bool.andb_false_r in Hpw.
    repeat rewrite ?Bool.andb_false_r, ?Bool.andb_false_l in Hpw. discriminate.
Qed.

Lemma tx_loop_timed_out fuel :
  forall n tx p st p' st',
    tx_loop E fuel n tx p st = Some ((p', true), st') ->
    exists t v,
      trace_of st st' t /\ In v (reads_of KP_SPI_REG_STATUS t)
      /\ Z.land v KP_SPI_REG_STATUS_TXS = 0.
Proof.
  induction n as [| n IH]; intros tx p st p' st' H; simpl in H.
  - apply ret_inv in H. destruct H as [H _]. inv H.
  - mstep H val st1 Hval. inv Hval.
    mstep H r st2 Hw.
    destruct (Z.ltb_spec r 0) as [Hneg | Hpos].
    + apply ret_inv in H. destruct H as [_ ->].
      apply (wait_timed_out_read _ _ _ _ _ Hw). lia.
    + pose proof (wait_quiet _ _ _ _ _ _ _ Hw) as (tw & Htw & _).
      mstep H u st3 Hu. apply modify_inv in Hu. subst st3.
      rewrite write_reg_data in H by discriminate.
      destruct (IH _ _ _ _ _ H) as (t & v & Ht & Hin & Hv).
      exists (tw ++ EvWriteq KP_SPI_REG_TXDATA (char_to_u64 E (load8 st1 tx)) :: t), v.
      split; [| split; [| exact Hv]].
      * eapply trace_of_trans; [exact Htw |].
        apply (trace_of_trans _ _ _ [_] t (trace_of_log_event _ _) Ht).
      * rewrite reads_of_app. apply in_or_app. right. simpl. exact Hin.
Qed.

Lemma rx_loop_timed_out fuel :
  forall n rx p st p' st',
    rx_loop E fuel n rx p st = Some ((p', true), st') ->
    exists t v,
      trace_of st st' t /\ In v (reads_of KP_SPI_REG_STATUS t)
      /\ Z.land v KP_SPI_REG_STATUS_RXS = 0.
Proof.
  induction n as [| n IH]; intros rx p st p' st' H; simpl in H.
  - apply ret_inv in H. destruct H as [H _]. inv H.
  - mstep H u st1 Hu. apply modify_inv in Hu. subst st1.
    mstep H r st2 Hw. rewrite write_reg_data in Hw by discriminate.
    destruct (Z.ltb_spec r 0) as [Hneg | Hpos].
    + apply ret_inv in H. destruct H as [_ ->].
      destruct (wait_timed_out_read _ _ _ _ _ Hw ltac:(lia)) as (t & v & Ht & Hin & Hv).
      exists (EvWriteq KP_SPI_REG_TXDATA 0 :: t), v.
      split; [| split; [simpl; exact Hin | exact Hv]].
      apply (trace_of_trans _ _ _ [_] t (trace_of_log_event _ _) Ht).
    + pose proof (wait_quiet _ _ _ _ _ _ _ Hw) as (tw & Htw & _).
      mstep H test st3 Hrd. apply lift_inv in Hrd.
      destruct (read_reg_spec _ _ _ _ _ Hrd) as (e & -> & He & _).
      mstep H u' st4 Hu. apply modify_inv in Hu. subst st4.
      destruct (IH _ _ _ _ _ H) as (t & v & Ht & Hin & Hv).
      exists (EvWriteq KP_SPI_REG_TXDATA 0 :: tw ++ e :: t), v.
      split; [| split; [| exact Hv]].
      * change (EvWriteq KP_SPI_REG_TXDATA 0 :: tw ++ e :: t)
          with ([EvWriteq KP_SPI_REG_TXDATA 0] ++ tw ++ [e] ++ t).
        eapply trace_of_trans;
          [apply (trace_of_log_event (EvWriteq KP_SPI_REG_TXDATA 0) st) |].
        eapply trace_of_trans; [exact Htw |].
        eapply trace_of_trans; [apply (trace_of_log_event e st2) | exact Ht].
      * simpl. rewrite reads_of_app. apply in_or_app. right.
        destruct (reg_read_inv _ _ _ He) as [-> | ->]; simpl; exact Hin.
Qed.

(** A count short of the length means that a per-unit wait timed out,
    after a bus read of Status that showed the unit's ready bit clear. *)
Lemma pio_short_read fuel t st count st' :
  wf_transfer t -> has_buffer t ->
  kp_spi_txrx_pio E fuel t st = Some (count, st') -> count <> len t ->
  exists v, In v (reads_of KP_SPI_REG_STATUS (trace st st'))
            /\ Z.land v (unit_ready_bit t) = 0.
Proof.
  intros Hwf Hbuf Hrun Hne.
  destruct (pio_spec E _ _ _ _ _ Hrun Hwf)
    as (tr & k & out' & r' & ubit & Htr & _ & Hc & _ & _ & _ & Hub & Hwt & Hout).
  assert (Ho : out' = true).
  { destruct out'; [reflexivity |]. exfalso. apply Hne. rewrite Hc. auto. }
  subst out'.
  unfold kp_spi_txrx_pio in Hrun. mstep Hrun po st1 Hloop. destruct po as [p' out].
  destruct out.
  - apply ret_inv in Hrun. destruct Hrun as [_ ->].
    unfold unit_ready_bit.
    destruct (tx_buf t) as [tx |]; [| destruct (rx_buf t) as [rx |]].
    + destruct (tx_loop_timed_out _ _ _ _ _ _ _ Hloop) as (t1 & v & Ht1 & Hin & Hv).
      rewrite (trace_of_trace _ _ _ Ht1). eauto.
    + destruct (rx_loop_timed_out _ _ _ _ _ _ _ Hloop) as (t1 & v & Ht1 & Hin & Hv).
      rewrite (trace_of_trace _ _ _ Ht1). eauto.
    + apply ret_inv in Hloop. destruct Hloop as [Hx _]. inv Hx.
  - exfalso.
    mstep Hrun r st2 Hw. apply ret_inv in Hrun. destruct Hrun as [_ ->].
    assert (Hl : exists t1, trace_of st st1 t1).
    { destruct (tx_buf t) as [tx |]; [| destruct (rx_buf t) as [rx |]].
      - apply tx_loop_spec in Hloop. destruct Hloop as (t1 & _ & Ht1 & _). eauto.
      - apply rx_loop_spec in Hloop. destruct Hloop as (t1 & _ & Ht1 & _). eauto.
      - apply ret_inv in Hloop. destruct Hloop as [_ ->]. exists []. reflexivity. }
    destruct Hl as (t1 & Ht1).
    pose proof (wait_quiet _ _ _ _ _ _ _ Hw) as (tw & Htw & _ & _ & _ & _ & Hwr & _).
    pose proof (trace_of_unique _ _ _ _ Htr (trace_of_trans _ _ _ _ _ Ht1 Htw)) as Heq.
    subst tr. rewrite wait_rets_app, Hwr in Hwt.
    apply (f_equal (fun l => last l (0, 0, 0))) in Hwt.
    rewrite !last_last in Hwt. inv Hwt. apply Hub. reflexivity.
Qed.

End UnitWaits.

(** C5.  The byte transfer primitive moves one byte per unit and returns
    the number of units moved, whatever the session state (the configured
    word length included).  A send moves the bytes of the buffer, one bus
    write each; a receive stores the low byte of each value read.  Each
    unit is gated by a wait on the Status register for the unit's ready
    bit - TX-ready for a send, RX-ready for a receive - and all the waits
    before the last one succeeded, one per unit moved.  Either no
    per-unit wait timed out, the count is the requested length and the
    outcome of the trailing end-of-transfer wait is immaterial; or the
    last wait is a per-unit wait that timed out after Status was read
    with the ready bit clear, the loop stopped there and the count is the
    number of units completed before it, short of the length.  So the
    count is the length whenever no per-unit wait timed out, and in
    particular whenever every value read from Status shows the ready
    bit. *)
Theorem txrx_pio_counts_bytes (E : platform) (N : nat) (t : spi_transfer)
    (st : machine) :
  live_within E N -> wf_transfer t -> has_buffer t ->
  exists count st' k,
    kp_spi_txrx_pio E N t st = Some (count, st')
    /\ count = Z.of_nat k
    /\ ((count = len t
         /\ exists r, wait_rets (trace st st') =
                      repeat (KP_SPI_REG_STATUS, unit_ready_bit t, 0) k
                      ++ [(KP_SPI_REG_STATUS, KP_SPI_REG_STATUS_EOT, r)])
        \/ (count < len t
            /\ wait_rets (trace st st') =
               repeat (KP_SPI_REG_STATUS, unit_ready_bit t, 0) k
               ++ [(KP_SPI_REG_STATUS, unit_ready_bit t, - ETIMEDOUT)]
            /\ exists v, In v (reads_of KP_SPI_REG_STATUS (trace st st'))
                         /\ Z.land v (unit_ready_bit t) = 0))
    /\ (~ In (KP_SPI_REG_STATUS, unit_ready_bit t, - ETIMEDOUT)
            (wait_rets (trace st st')) ->
        count = len t)
    /\ (Forall (fun v => Z.land v (unit_ready_bit t) <> 0)
          (reads_of KP_SPI_REG_STATUS (trace st st')) ->
        count = len t)
    /\ (forall tx, tx_buf t = Some tx ->
          writes_to KP_SPI_REG_TXDATA (trace st st') =
          map (fun i => char_to_u64 E (load8 st (tx + Z.of_nat i))) (seq 0 k)
          /\ mem st' = mem st)
    /\ (forall rx, tx_buf t = None -> rx_buf t = Some rx ->
          exists vs,
            length vs = k
            /\ reads_of KP_SPI_REG_RXDATA (trace st st') = vs
            /\ forall a, mem st' a =
                         if (rx <=? a) && (a <? rx + count)
                         then u8 (nth (Z.to_nat (a - rx)) vs 0) else mem st a)
    /\ (forall c, kp_spi_txrx_pio E N t (with_ctl c st) = Some (count, with_ctl c st')).
Proof.
  intros Hlive Hwf Hbuf.
  destruct (pio_total E N t st Hlive) as (count & st' & Hrun).
  assert (Hre : forall c, kp_spi_txrx_pio E N t (with_ctl c st)
                          = Some (count, with_ctl c st')).
  { intros c. rewrite pio_retarget, Hrun. reflexivity. }
  pose proof (pio_short_read E N t st count st' Hwf Hbuf Hrun) as Hshort.
  assert (Hfull : Forall (fun v => Z.land v (unit_ready_bit t) <> 0)
                    (reads_of KP_SPI_REG_STATUS (trace st st')) ->
                  count = len t).
  { intros Hall. destruct (Z.eq_dec count (len t)) as [| Hne]; [assumption |].
    destruct (Hshort Hne) as (v & Hin & Hv).
    rewrite Forall_forall in Hall. exfalso. exact (Hall v Hin Hv). }
  destruct (unit_ready_bit_cases t) as [(tx & Htx & Hbit) | (Htx & Hbit)].
  - destruct (pio_tx_spec E N t tx st count st' Htx Hwf Hrun)
      as (tr & k & out & r & Ht & Hc & _ & Hm & Hw & _ & Hwt & Hout).
    exists count, st', k. rewrite Hbit in *.
    rewrite (trace_of_trace _ _ _ Ht) in *.
    split; [exact Hrun |]. split; [exact Hc |].
    split; [| split; [| split; [exact Hfull | split; [| split; [| exact Hre]]]]].
    + destruct out; [right | left]; (split; [lia |]).
      * split; [exact Hwt | apply Hshort; lia].
      * eauto.
    + intros Hno. destruct out; [| lia].
      exfalso. apply Hno. rewrite Hwt. apply in_or_app. right. left. reflexivity.
    + intros tx' Heq. rewrite Htx in Heq. inv Heq. split; assumption.
    + intros rx Hn. rewrite Htx in Hn. discriminate.
  - destruct (rx_buf t) as [rx |] eqn:Hrx;
      [| destruct Hbuf as [Hb | Hb]; congruence].
    destruct (pio_rx_spec E N t rx st count st' Htx Hrx Hwf Hrun)
      as (tr & vs & out & r & Ht & Hc & _ & Hd & Hm & Hwt & Hout).
    exists count, st', (length vs). rewrite Hbit in *.
    rewrite (trace_of_trace _ _ _ Ht) in *.
    split; [exact Hrun |]. split; [exact Hc |].
    split; [| split; [| split; [exact Hfull | split; [| split; [| exact Hre]]]]].
    + destruct out; [right | left]; (split; [lia |]).
      * split; [exact Hwt | apply Hshort; lia].
      * eauto.
    + intros Hno. destruct out; [| lia].
      exfalso. apply Hno. rewrite Hwt. apply in_or_app. right. left. reflexivity.
    + intros tx Heq. rewrite Htx in Heq. discriminate.
    + intros rx' _ Heq. inv Heq. exists vs. split; [reflexivity |].
      split; [| exact Hm].
      rewrite <- reads_of_data, Hd.
      destruct (clocked_reads vs (if out then [EvWriteq KP_SPI_REG_TXDATA 0] else []))
        as [_ Hr].
      rewrite Hr. destruct out; simpl; apply app_nil_r.
Qed.

(** A send of two bytes to a device that is ready: both are moved. *)
Lemma txrx_pio_counts_bytes_witness :
  live_within (ready_device []) 4
  /\ wf_transfer (xfer (Some 100) None 2) /\ has_buffer (xfer (Some 100) None 2)
  /\ exists count st',
       kp_spi_txrx_pio (ready_device []) 4 (xfer (Some 100) None 2)
         (boot idle_state (fun a => a)) = Some (count, st')
       /\ count = 2
       /\ writes_to KP_SPI_REG_TXDATA (trace (boot idle_state (fun a => a)) st')
          = [100; 101].
Proof.
  assert (Hwf : wf_transfer (xfer (Some 100) None 2)) by (unfold wf_transfer; simpl; lia).
  assert (Hb : has_buffer (xfer (Some 100) None 2)) by (left; discriminate).
  split; [apply scripted_live |]. split; [exact Hwf |]. split; [exact Hb |].
  destruct (txrx_pio_counts_bytes (ready_device []) 4 (xfer (Some 100) None 2)
              (boot idle_state (fun a => a)) (scripted_live _ _) Hwf Hb)
    as (count & st' & k & Hrun & _).
  exists count, st'. split; [exact Hrun |].
  assert (Hrun' := Hrun). vm_compute in Hrun'. inv Hrun'.
  split; [reflexivity | vm_compute; reflexivity].
Defined.

(** ** The register cache: claim C7 *)

(** Every session state has a populated cache: kp_spi_setup ends with a
    Config write, and nothing the driver does afterwards empties it. *)
Lemma session_state_cached c : session_state c -> 0 <= conf_cache c.
Proof.
  induction 1 as [kpspi ok sc0 spidev m l d' l' c Hs Hc
                 | st v _ _
                 | st w _ IH
                 | E fuel spidev m st r st' _ IH Hrun].
  - destruct (setup_inv _ _ _ _ _ _ _ _ _ Hs) as (_ & _ & Hok).
    destruct Hok as (_ & _ & _ & _ & c1 & Hc1 & Hcache & _); [discriminate |].
    rewrite Hc in Hc1. inv Hc1. rewrite Hcache.
    pose proof (setup_config_range spidev sc0). lia.
  - simpl. rewrite s64_small; pose proof (u32_range v); lia.
  - exact IH.
  - destruct r as [r m'].
    destruct (transfer_one_message_inv _ _ _ _ _ _ _ _ Hrun) as (s & Hb).
    destruct (message_body_confined E fuel spidev m st _ st' IH Hb) as (_ & _ & _ & _ & Hc').
    exact Hc'.
Qed.

(** C7.  In every session state - one kp_spi_setup has left in the
    device, or one that came of it by Config writes, word-length updates
    and messages - two successive reads of Config with no write in between
    return the same value, the cached one, and the second read does not
    access the bus; nor does the first. *)
Theorem config_read_twice (E : platform) (st : machine) :
  session_state (ctl st) ->
  let r1 := kp_spi_read_reg E KP_SPI_REG_CONFIG st in
  let r2 := kp_spi_read_reg E KP_SPI_REG_CONFIG (snd r1) in
  fst r1 = fst r2
  /\ fst r1 = u64 (conf_cache (ctl st))
  /\ filter is_bus (trace (snd r1) (snd r2)) = []
  /\ filter is_bus (trace st (snd r2)) = []
  /\ ctl (snd r2) = ctl st
  /\ session_state (ctl (snd r2)).
Proof.
  intros Hs. pose proof (session_state_cached _ Hs) as Hc. cbv zeta.
  rewrite (read_reg_cached E st Hc). cbn [fst snd].
  rewrite (read_reg_cached E (log_event _ st) Hc). cbn [fst snd].
  split; [reflexivity |]. split; [reflexivity |].
  split.
  { rewrite (trace_of_trace _ _ [EvCached KP_SPI_REG_CONFIG (u64 (conf_cache (ctl st)))]);
      reflexivity. }
  split.
  { rewrite (trace_of_trace _ _ [EvCached KP_SPI_REG_CONFIG (u64 (conf_cache (ctl st)));
                                 EvCached KP_SPI_REG_CONFIG (u64 (conf_cache (ctl st)))]);
      reflexivity. }
  split; [reflexivity | exact Hs].
Qed.

(** The state kp_spi_setup leaves in a new device, read on a device that
    would answer every bus read differently. *)
Lemma config_read_twice_witness :
  session_state {| base := 0; phys := 0; chip_select := 1; word_len := 8;
                   conf_cache := 0x4078 |}
  /\ fst (kp_spi_read_reg counting_device KP_SPI_REG_CONFIG
            (boot {| base := 0; phys := 0; chip_select := 1; word_len := 8;
                     conf_cache := 0x4078 |} (fun _ => 0)))
     = fst (kp_spi_read_reg counting_device KP_SPI_REG_CONFIG
              (snd (kp_spi_read_reg counting_device KP_SPI_REG_CONFIG
                      (boot {| base := 0; phys := 0; chip_select := 1; word_len := 8;
                               conf_cache := 0x4078 |} (fun _ => 0))))).
Proof.
  assert (Hs : session_state {| base := 0; phys := 0; chip_select := 1; word_len := 8;
                                conf_cache := 0x4078 |}).
  { apply (session_setup kp0 true 8 new_device (fun _ => 0) []
             {| dev_chip_select := 1; dev_bits_per_word := 8;
                controller_state :=
                  Some {| base := 0; phys := 0; chip_select := 1; word_len := 8;
                          conf_cache := 0x4078 |} |}
             [EvWriteq KP_SPI_REG_CONFIG 0x4078]); reflexivity. }
  split; [exact Hs |].
  apply (config_read_twice counting_device
           (boot {| base := 0; phys := 0; chip_select := 1; word_len := 8;
                    conf_cache := 0x4078 |} (fun _ => 0)) Hs).
Defined.

(** ** Device setup: claim C8 *)

Lemma get_dpe_bit x : get_field dpe x = Z.b2z (Z.testbit x 3).
Proof.
  unfold get_field. simpl f_off. simpl f_width.
  rewrite Z.land_ones by lia. change (2 ^ 1) with 2.
  rewrite <- Z.bit0_mod, Z.shiftr_spec by lia. reflexivity.
Qed.

(** C8.  The code does not do what the claim says.  On its first call
    for a device kp_spi_setup returns 0 after writing a Config word whose
    transmission-enable bit (dpe) is bit 3 of what the automatic variable
    [sc], which is never initialised as a whole, held on entry: the bit is
    set in the word written whenever it was set there, where the claim has
    it cleared.  The code clears the transfer mode instead. *)
Theorem setup_writes_stack_dpe (kpspi : kp_spi) (sc0 : Z) (spidev : spi_device)
    (m : Z -> Z) (l : list event) :
  controller_state spidev = None ->
  exists d',
    kp_spi_setup kpspi true sc0 spidev m l
    = (0, d', EvWriteq KP_SPI_REG_CONFIG (setup_config spidev sc0) :: l)
    /\ get_field dpe (setup_config spidev sc0) = Z.b2z (Z.testbit sc0 3)
    /\ get_field trm (setup_config spidev sc0) = 0.
Proof.
  intros Hnone.
  eexists. split; [unfold kp_spi_setup; rewrite Hnone; reflexivity |].
  unfold setup_config. split.
  - rewrite !(keeps_field dpe) by (discriminate || in_fields).
    rewrite get_dpe_bit. unfold u32.
    rewrite Z.mod_pow2_bits_low by lia. reflexivity.
  - rewrite (keeps_field trm) by (discriminate || in_fields).
    rewrite get_set_same by (simpl; lia). reflexivity.
Qed.

Lemma setup_writes_stack_dpe_witness :
  controller_state new_device = None
  /\ exists d',
       kp_spi_setup kp0 true 8 new_device (fun _ => 0) []
       = (0, d', [EvWriteq KP_SPI_REG_CONFIG 0x4078])
       /\ get_field dpe 0x4078 = 1.
Proof.
  split; [reflexivity |].
  destruct (setup_writes_stack_dpe kp0 8 new_device (fun _ => 0) [] eq_refl)
    as (d' & Hrun & Hdpe & _).
  exists d'. split; [exact Hrun | exact Hdpe].
Defined.
